(** * ZenBudget: the transaction state, its persistence and the derived views

    A shallow embedding of [script.js]: the module-level state
    ([transactions], [filteredTransactions], [db]), the IndexedDB helpers,
    the handlers that mutate the state ([loadTransactions], [addTransaction],
    the delete button's click handler, [clearAllTransactions],
    [filterTransactions]) and the two aggregations ([updateBalance],
    [updateSpendingSummary]).

    JavaScript numbers are IEEE 754 binary64 values: they are modelled by
    [spec_float] with the library's operations at precision 53 and maximal
    exponent 1024.  Strings are sequences of code units; the model carries
    the code units 0..255. *)

From Stdlib Require Import ZArith NArith List Bool Lia.
From Stdlib Require Import Strings.String Strings.Ascii.
From Stdlib Require Import Sorting.Permutation Sorting.Sorted.
From Stdlib Require Import Floats.SpecFloat.
From Stdlib Require Import QArith Qpower Lqa.
Import ListNotations.

Close Scope Q_scope.

Set Implicit Arguments.

(* ================================================================= *)
(** ** JavaScript numbers *)

Module Number.

Definition t : Type := spec_float.

Definition prec : Z := 53.
Definition emax : Z := 1024.

Definition NaN : t := S754_nan.
Definition Infinity : t := S754_infinity false.
Definition zero : t := S754_zero false.

(** The number denoted by an integer literal. *)
Definition ofZ (z : Z) : t := binary_normalize prec emax z 0 false.

Definition add (x y : t) : t := SFadd prec emax x y.
Definition sub (x y : t) : t := SFsub prec emax x y.
Definition mul (x y : t) : t := SFmul prec emax x y.
Definition div (x y : t) : t := SFdiv prec emax x y.

(** [x >= y], [x > y], [x < y] and [x === y]; each is [false] as soon
    as one side is [NaN]. *)
Definition geb (x y : t) : bool := SFleb y x.
Definition gtb (x y : t) : bool := SFltb y x.
Definition ltb (x y : t) : bool := SFltb x y.
Definition strictEq (x y : t) : bool := SFeqb x y.

Definition isNaN (x : t) : bool :=
  match x with S754_nan => true | _ => false end.

Definition isFinite (x : t) : bool :=
  match x with S754_zero _ | S754_finite _ _ _ => true | _ => false end.

(** [Math.abs]. *)
Definition abs (x : t) : t := SFabs x.

(** ToBoolean on a number: [0], [-0] and [NaN] are falsy. *)
Definition toBoolean (x : t) : bool :=
  match x with S754_zero _ | S754_nan => false | _ => true end.

(** Numbers whose sign bit is clear and that are not [NaN]:
    [+0], the positive finite numbers and [+Infinity]. *)
Definition positive0 (x : t) : Prop :=
  match x with
  | S754_zero false | S754_infinity false | S754_finite false _ _ => True
  | _ => False
  end.

End Number.

Declare Scope number_scope.
Delimit Scope number_scope with num.
Bind Scope number_scope with Number.t.
Infix "+" := Number.add : number_scope.
Infix "-" := Number.sub : number_scope.
Infix "*" := Number.mul : number_scope.
Infix "/" := Number.div : number_scope.
Infix ">=?" := Number.geb (at level 70) : number_scope.
Infix ">?" := Number.gtb (at level 70) : number_scope.
Infix "===" := Number.strictEq (at level 70) : number_scope.

(* ================================================================= *)
(** ** JavaScript strings *)

Module Str.

Open Scope string_scope.

Definition isEmpty (s : string) : bool :=
  match s with "" => true | _ => false end.

(** WhiteSpace and LineTerminator code units below 256:
    TAB, LF, VT, FF, CR, SP and NBSP. *)
Definition isWhiteSpace (c : ascii) : bool :=
  let n := N_of_ascii c in
  ((9 <=? n) && (n <=? 13) || (n =? 32) || (n =? 160))%N.

Fixpoint trimStart (s : string) : string :=
  match s with
  | "" => ""
  | String c r => if isWhiteSpace c then trimStart r else s
  end.

Fixpoint trimEnd (s : string) : string :=
  match s with
  | "" => ""
  | String c r =>
      let r' := trimEnd r in
      if isWhiteSpace c && isEmpty r' then "" else String c r'
  end.

(** [String.prototype.trim]. *)
Definition trim (s : string) : string := trimEnd (trimStart s).

(** Upper-case letters below 256 are A..Z, U+00C0..U+00D6 and
    U+00D8..U+00DE; each is 32 below its lower-case form. *)
Definition lowerChar (c : ascii) : ascii :=
  let n := N_of_ascii c in
  if ((65 <=? n) && (n <=? 90)
      || (192 <=? n) && (n <=? 214)
      || (216 <=? n) && (n <=? 222))%N
  then ascii_of_N (n + 32) else c.

(** [String.prototype.toLowerCase]. *)
Fixpoint toLowerCase (s : string) : string :=
  match s with
  | "" => ""
  | String c r => String (lowerChar c) (toLowerCase r)
  end.

Fixpoint startsWith (s sub : string) : bool :=
  match sub, s with
  | "", _ => true
  | String _ _, "" => false
  | String b sub', String a s' => Ascii.eqb a b && startsWith s' sub'
  end.

(** [String.prototype.includes]. *)
Fixpoint includes (s sub : string) : bool :=
  startsWith s sub ||
  match s with
  | "" => false
  | String _ s' => includes s' sub
  end.

End Str.

(* ================================================================= *)
(** ** Data model and application state *)

Open Scope string_scope.

(** A record of the [transactions] object store; [id] is the key path. *)
Record Transaction : Type := {
  id : Number.t;
  name : string;
  amount : Number.t;
  category : string;
  date : string;
  type : string
}.

(** How a promise settles. *)
Inductive Settled : Type :=
| Fulfilled
| Rejected (reason : string).

(** What the browser does with an IndexedDB request: it fires [onsuccess],
    or it fires [onerror] with [event.target.error], or the call that
    should issue the request ([indexedDB.open], [db.transaction],
    [transaction.objectStore], [store.put] and the like) throws [error]
    and no handler is ever installed.  Every request of the script is
    issued inside a promise executor, where an exception rejects the
    promise.  A request that fails aborts its database transaction, so the
    object store keeps the records it had. *)
Inductive Request : Type :=
| Succeeds
| Fails (error : string)
| Throws (error : string).

(** The module-level variables [transactions], [filteredTransactions] and
    [db].  [db] is [None] while the variable is [undefined]; otherwise it
    holds the records of the object store, in key order.  The last two
    fields record what the user is shown: the in-app notifications
    ([showNotification]'s message and type) and the [alert] boxes.  What
    is written to the console or drawn in the document is not recorded. *)
Record State : Type := {
  transactions : list Transaction;
  filteredTransactions : list Transaction;
  db : option (list Transaction);
  notifications : list (string * string);
  alerts : list string
}.

(** The state when the script has been evaluated. *)
Definition initialState : State :=
  {| transactions := []; filteredTransactions := []; db := None;
     notifications := []; alerts := [] |}.

Definition setLists (ts fs : list Transaction) (s : State) : State :=
  {| transactions := ts; filteredTransactions := fs; db := db s;
     notifications := notifications s; alerts := alerts s |}.

Definition setDb (d : option (list Transaction)) (s : State) : State :=
  {| transactions := transactions s;
     filteredTransactions := filteredTransactions s; db := d;
     notifications := notifications s; alerts := alerts s |}.

Definition showNotification (message type : string) (s : State) : State :=
  {| transactions := transactions s;
     filteredTransactions := filteredTransactions s; db := db s;
     notifications := notifications s ++ [(message, type)];
     alerts := alerts s |}.

Definition alert (message : string) (s : State) : State :=
  {| transactions := transactions s;
     filteredTransactions := filteredTransactions s; db := db s;
     notifications := notifications s;
     alerts := alerts s ++ [message] |}.

(* ================================================================= *)
(** ** The object store *)

Module Store.

(** [store.put(record)]: replaces the record that has the same key, or
    adds the record at its place in key order.  The keys are the numbers
    [Date.now() + Math.random()]. *)
Fixpoint put (t : Transaction) (records : list Transaction)
  : list Transaction :=
  match records with
  | [] => [t]
  | r :: rest =>
      if (id r === id t)%num then t :: rest
      else if Number.ltb (id t) (id r) then t :: records
      else r :: put t rest
  end.

(** [store.delete(key)]. *)
Definition delete (key : Number.t) (records : list Transaction)
  : list Transaction :=
  filter (fun r => negb (id r === key)%num) records.

(** [store.clear()]. *)
Definition clear (records : list Transaction) : list Transaction := [].

(** [store.getAll()]. *)
Definition getAll (records : list Transaction) : list Transaction :=
  records.

End Store.

(** Each helper below is the promise its function returns: the state once
    the request has completed, and how the promise settles. *)

Definition saveTransaction (transaction : Transaction) (request : Request)
    (s : State) : State * Settled :=
  match db s with
  | None => (s, Rejected "IndexedDB not initialized")
  | Some records =>
      match request with
      | Succeeds => (setDb (Some (Store.put transaction records)) s, Fulfilled)
      | Fails error => (s, Rejected error)
      | Throws error => (s, Rejected error)
      end
  end.

Definition deleteTransaction (key : Number.t) (request : Request)
    (s : State) : State * Settled :=
  match db s with
  | None => (s, Rejected "IndexedDB not initialized")
  | Some records =>
      match request with
      | Succeeds => (setDb (Some (Store.delete key records)) s, Fulfilled)
      | Fails error => (s, Rejected error)
      | Throws error => (s, Rejected error)
      end
  end.

Definition clearAllTransactionsFromDB (request : Request) (s : State)
    : State * Settled :=
  match db s with
  | None => (s, Rejected "IndexedDB not initialized")
  | Some records =>
      match request with
      | Succeeds => (setDb (Some (Store.clear records)) s, Fulfilled)
      | Fails error => (s, Rejected error)
      | Throws error => (s, Rejected error)
      end
  end.

(* ================================================================= *)
(** ** Loading *)

(** [Array.prototype.sort] with a comparison function.  The function's
    result is used through its sign only, and [NaN] counts as [+0]; the
    sort is stable.  [None] stands for [NaN].  The language fixes the
    result only for a comparison function that is a consistent order, and
    then it is the one computed here; a function that returns [NaN] on
    some pairs and a sign on others is not one, and engines differ on
    it.  The order computed here is therefore relied on only where every
    comparison yields a number; elsewhere only the fact that sorting
    rearranges the array is used. *)
Section ArraySort.

Variable A : Type.
Variable comparefn : A -> A -> option Z.

(** [x] is not moved behind [y]: [comparefn(x, y)] is not positive. *)
Definition keepsBefore (x y : A) : bool :=
  match comparefn x y with
  | Some v => (v <=? 0)%Z
  | None => true
  end.

Fixpoint insertSorted (x : A) (l : list A) : list A :=
  match l with
  | [] => [x]
  | y :: r => if keepsBefore x y then x :: l else y :: insertSorted x r
  end.

Definition Array_sort (l : list A) : list A :=
  fold_right insertSorted [] l.

End ArraySort.

Section Loading.

(** [timeValue str] is the time value, in milliseconds, of
    [new Date(str)]; [None] when the date is invalid (the time value is
    [NaN]). *)
Variable timeValue : string -> option Z.

(** [(a, b) => new Date(b.date) - new Date(a.date)].  A difference of
    two time values has the sign of the exact difference. *)
Definition byDateDescending (a b : Transaction) : option Z :=
  match timeValue (date b), timeValue (date a) with
  | Some tb, Some ta => Some (tb - ta)%Z
  | _, _ => None
  end.

(** [loadTransactions]: without a database both lists are emptied and the
    promise is fulfilled; [onsuccess] sorts what [getAll] returned and
    copies it; [onerror] empties both lists and rejects; an exception from
    [db.transaction], [objectStore] or [getAll] rejects before either
    handler exists, and the lists stay as they were. *)
Definition loadTransactions (request : Request) (s : State)
  : State * Settled :=
  match db s with
  | None => (setLists [] [] s, Fulfilled)
  | Some records =>
      match request with
      | Succeeds =>
          let sorted := Array_sort byDateDescending (Store.getAll records) in
          (setLists sorted sorted s, Fulfilled)
      | Fails error => (setLists [] [] s, Rejected error)
      | Throws error => (s, Rejected error)
      end
  end.

End Loading.

(* ================================================================= *)
(** ** Adding *)

(** An [async] handler runs up to its [await] and resumes once the awaited
    promise has settled.  For each handler the code that runs on resumption
    is given on its own, as a function of the state it then finds (the
    definitions named [..._saved], [..._deleted], [..._cleared] and
    [..._failed]); the handler itself is its run from start to end. *)

(** What [addTransaction] reads: the three form fields, the amount field
    already through [parseFloat], and the two values it takes from the
    clock and the random generator. *)
Record Submission : Type := {
  nameValue : string;          (* transactionNameInput.value *)
  amountParsed : Number.t;     (* parseFloat(transactionAmountInput.value) *)
  categoryValue : string;      (* transactionCategoryInput.value *)
  freshId : Number.t;          (* Date.now() + Math.random() *)
  nowISO : string              (* new Date().toISOString() *)
}.

(** The guard [!name || isNaN(amount) || !category]. *)
Definition rejectsInput (f : Submission) : bool :=
  Str.isEmpty (Str.trim (nameValue f))
  || Number.isNaN (amountParsed f)
  || Str.isEmpty (categoryValue f).

Definition typeOf (amount : Number.t) : string :=
  if (amount >=? Number.zero)%num then "income" else "expense".

(** The object literal built once the guard has passed. *)
Definition newTransaction (f : Submission) : Transaction :=
  {| id := freshId f;
     name := Str.trim (nameValue f);
     amount := amountParsed f;
     category := categoryValue f;
     date := nowISO f;
     type := typeOf (amountParsed f) |}.

(** The [try] block after [await saveTransaction(transaction)]. *)
Definition addTransaction_saved (transaction : Transaction) (s : State)
  : State :=
  let ts := transaction :: transactions s in
  showNotification "Transaction added successfully!" "success"
    (setLists ts ts s).

(** The [catch] block. *)
Definition addTransaction_failed (s : State) : State :=
  showNotification "Error saving transaction. Please try again." "error" s.

Definition addTransaction (f : Submission) (request : Request) (s : State)
  : State * Settled :=
  if rejectsInput f then
    (alert "Please fill in all fields correctly." s, Fulfilled)
  else
    let transaction := newTransaction f in
    match saveTransaction transaction request s with
    | (s', Fulfilled) => (addTransaction_saved transaction s', Fulfilled)
    | (s', Rejected _) => (addTransaction_failed s', Fulfilled)
    end.

(* ================================================================= *)
(** ** Searching *)

Definition matchesTerm (searchTerm : string) (transaction : Transaction)
  : bool :=
  Str.includes (Str.toLowerCase (name transaction)) searchTerm
  || Str.includes (Str.toLowerCase (category transaction)) searchTerm
  || Str.includes (Str.toLowerCase (type transaction)) searchTerm.

(** [searchValue] is [searchInput.value]. *)
Definition filterTransactions (searchValue : string) (s : State) : State :=
  let searchTerm := Str.trim (Str.toLowerCase searchValue) in
  if Str.isEmpty searchTerm then
    setLists (transactions s) (transactions s) s
  else
    setLists (transactions s)
      (filter (matchesTerm searchTerm) (transactions s)) s.

(* ================================================================= *)
(** ** Deleting and clearing *)

Definition withoutId (key : Number.t) (l : list Transaction)
  : list Transaction :=
  filter (fun t => negb (id t === key)%num) l.

(** The [try] block of the delete button's handler after
    [await deleteTransaction(transaction.id)]. *)
Definition deleteClick_deleted (key : Number.t) (s : State) : State :=
  showNotification "Transaction deleted successfully!" "success"
    (setLists (withoutId key (transactions s))
       (withoutId key (filteredTransactions s)) s).

Definition deleteClick_failed (s : State) : State :=
  showNotification "Error deleting transaction. Please try again." "error" s.

(** The click handler that [renderTransactions] attaches to the delete
    button of the transaction whose id is [key]; [confirmed] is the answer
    to the [confirm] dialog. *)
Definition deleteClick (confirmed : bool) (key : Number.t)
    (request : Request) (s : State) : State * Settled :=
  if confirmed then
    match deleteTransaction key request s with
    | (s', Fulfilled) => (deleteClick_deleted key s', Fulfilled)
    | (s', Rejected _) => (deleteClick_failed s', Fulfilled)
    end
  else (s, Fulfilled).

Definition clearAllTransactions_cleared (s : State) : State :=
  showNotification "All transactions have been cleared." "success"
    (setLists [] [] s).

Definition clearAllTransactions_failed (s : State) : State :=
  showNotification "Error clearing transactions. Please try again." "error" s.

Definition clearAllTransactions (request : Request) (s : State)
  : State * Settled :=
  match clearAllTransactionsFromDB request s with
  | (s', Fulfilled) => (clearAllTransactions_cleared s', Fulfilled)
  | (s', Rejected _) => (clearAllTransactions_failed s', Fulfilled)
  end.

(** [request.onupgradeneeded]: [db] becomes the database that is being
    created or upgraded, whose object store holds [durable] (nothing when
    the store has just been created). *)
Definition onupgradeneeded (durable : list Transaction) (s : State)
  : State :=
  setDb (Some durable) s.

(** [initIndexedDB].  [upgrade] tells whether the browser fires
    [onupgradeneeded] before the open request completes.  [onsuccess]
    assigns the opened database to [db] and fulfils; [onerror] rejects and
    assigns nothing, so that [db] keeps what the upgrade handler gave it,
    if that has run; when [indexedDB.open] itself throws, nothing has
    run. *)
Definition initIndexedDB (upgrade : bool) (request : Request)
    (durable : list Transaction) (s : State) : State * Settled :=
  let upgraded := if upgrade then onupgradeneeded durable s else s in
  match request with
  | Succeeds => (setDb (Some durable) upgraded, Fulfilled)
  | Fails error => (upgraded, Rejected error)
  | Throws error => (s, Rejected error)
  end.

(* ================================================================= *)
(** ** Totals *)

Open Scope number_scope.

Record Totals : Type := { income : Number.t; expense : Number.t }.

Definition isIncome (transaction : Transaction) : bool :=
  String.eqb (type transaction) "income".

Definition isExpense (transaction : Transaction) : bool :=
  String.eqb (type transaction) "expense".

(** The callback given to [reduce] in [updateBalance]. *)
Definition totalsStep (acc : Totals) (transaction : Transaction) : Totals :=
  if isIncome transaction then
    {| income := income acc + amount transaction; expense := expense acc |}
  else
    {| income := income acc;
       expense := expense acc + Number.abs (amount transaction) |}.

Definition totals (ts : list Transaction) : Totals :=
  fold_left totalsStep ts {| income := Number.zero; expense := Number.zero |}.

Definition totalBalance (ts : list Transaction) : Number.t :=
  income (totals ts) - expense (totals ts).

(** The three amounts [updateBalance] hands to [formatCurrency]:
    balance, income, expense. *)
Definition updateBalance (s : State) : Number.t * Number.t * Number.t :=
  (totalBalance (transactions s),
   income (totals (transactions s)),
   expense (totals (transactions s))).

(** A sum taken from left to right, starting at [0]. *)
Definition sumFrom (start : Number.t) (l : list Number.t) : Number.t :=
  fold_left Number.add l start.

Definition sum (l : list Number.t) : Number.t := sumFrom Number.zero l.

(** The data model's rule for a transaction: the amount is a number and
    [type] is the one derived from it. *)
Definition wellTyped (transaction : Transaction) : Prop :=
  Number.isNaN (amount transaction) = false
  /\ type transaction = typeOf (amount transaction).

(* ================================================================= *)
(** ** The spending summary *)

(** The values a property of the [categories] object can hold. *)
Inductive Value : Type :=
| VUndefined
| VNumber (x : Number.t)
| VText      (* a string made by [+] from an operand that is no number *)
| VObject.   (* a function or an object found on [Object.prototype] *)

Module JsObject.

(** An object created by [{}]: its own properties, listed in the order
    of [[OwnPropertyKeys]] (array indices in ascending order, then the
    other names in the order of their creation).  Its prototype is
    [Object.prototype]. *)
Definition t : Type := list (string * Value).

Definition empty : t := [].

Definition prototypeKeys : list string :=
  ["constructor"; "hasOwnProperty"; "isPrototypeOf";
   "propertyIsEnumerable"; "toLocaleString"; "toString"; "valueOf";
   "__defineGetter__"; "__defineSetter__"; "__lookupGetter__";
   "__lookupSetter__"; "__proto__"]%string.

Definition inherited (k : string) : bool :=
  existsb (String.eqb k) prototypeKeys.

Definition digit (c : ascii) : option N :=
  let n := N_of_ascii c in
  if ((48 <=? n) && (n <=? 57))%N then Some (n - 48)%N else None.

Fixpoint digitsValue (acc : N) (s : string) : option N :=
  match s with
  | EmptyString => Some acc
  | String c r =>
      match digit c with
      | Some d => digitsValue (10 * acc + d)%N r
      | None => None
      end
  end.

(** A property name is an array index when it is the canonical decimal
    form of an integer below [2^32 - 1]. *)
Definition arrayIndex (k : string) : option N :=
  match k with
  | EmptyString => None
  | String c r =>
      if Ascii.eqb c "0" && negb (Str.isEmpty r) then None
      else
        match digitsValue 0 k with
        | Some n => if (n <? 4294967295)%N then Some n else None
        | None => None
        end
  end.

(** [k], a new property, is listed before the existing property [k']. *)
Definition comesBefore (k k' : string) : bool :=
  match arrayIndex k, arrayIndex k' with
  | Some i, Some j => (i <? j)%N
  | Some _, None => true
  | None, _ => false
  end.

Fixpoint getOwn (k : string) (o : t) : option Value :=
  match o with
  | [] => None
  | (k', v) :: rest => if String.eqb k k' then Some v else getOwn k rest
  end.

(** [o[k]] *)
Definition get (o : t) (k : string) : Value :=
  match getOwn k o with
  | Some v => v
  | None => if inherited k then VObject else VUndefined
  end.

Fixpoint define (k : string) (v : Value) (o : t) : t :=
  match o with
  | [] => [(k, v)]
  | (k', v') :: rest =>
      if String.eqb k k' then (k, v) :: rest
      else if comesBefore k k' then (k, v) :: o
      else (k', v') :: define k v rest
  end.

(** [o[k] = v] for a primitive [v].  [__proto__] is an accessor of
    [Object.prototype] whose setter ignores primitives. *)
Definition set (o : t) (k : string) (v : Value) : t :=
  if String.eqb k "__proto__" then o else define k v o.

(** [Object.entries(o)] *)
Definition entries (o : t) : list (string * Value) := o.

End JsObject.

Definition toBoolean (v : Value) : bool :=
  match v with
  | VUndefined => false
  | VNumber x => Number.toBoolean x
  | VText => true
  | VObject => true
  end.

Definition toNumber (v : Value) : Number.t :=
  match v with
  | VNumber x => x
  | _ => Number.NaN
  end.

(** [v + amount], where [amount] is a number. *)
Definition plus (v : Value) (amount : Number.t) : Value :=
  match v with
  | VNumber x => VNumber (x + amount)
  | VUndefined => VNumber Number.NaN
  | VText => VText
  | VObject => VText
  end.

(** The callback given to [expenseTransactions.forEach]. *)
Definition groupStep (categories : JsObject.t) (transaction : Transaction)
  : JsObject.t :=
  let category := category transaction in
  let amount := Number.abs (amount transaction) in
  let categories :=
    if negb (toBoolean (JsObject.get categories category))
    then JsObject.set categories category (VNumber Number.zero)
    else categories in
  JsObject.set categories category
    (plus (JsObject.get categories category) amount).

Definition percentageOf (totalExpenses : Number.t) (amount : Value)
  : Number.t :=
  if totalExpenses >? Number.zero
  then (toNumber amount / totalExpenses) * Number.ofZ 100
  else Number.zero.

(** One progress bar of the summary. *)
Record CategoryBar : Type := {
  barCategory : string;
  barAmount : Value;
  barPercentage : Number.t
}.

Definition totalExpensesOf (expenseTransactions : list Transaction)
  : Number.t :=
  fold_left (fun sum transaction => sum + Number.abs (amount transaction))
    expenseTransactions Number.zero.

(** The bar made from one entry of [categories]. *)
Definition barOf (totalExpenses : Number.t) (entry : string * Value)
  : CategoryBar :=
  {| barCategory := fst entry;
     barAmount := snd entry;
     barPercentage := percentageOf totalExpenses (snd entry) |}.

(** The bars [updateSpendingSummary] appends to the container, in order. *)
Definition updateSpendingSummary (s : State) : list CategoryBar :=
  let expenseTransactions := filter isExpense (transactions s) in
  if (List.length expenseTransactions =? 0)%nat then []
  else
    let totalExpenses := totalExpensesOf expenseTransactions in
    let categories := fold_left groupStep expenseTransactions JsObject.empty in
    map (barOf totalExpenses) (JsObject.entries categories).

(** The summands of the expense total, and the transactions they come
    from. *)
Definition absAmount (transaction : Transaction) : Number.t :=
  Number.abs (amount transaction).

Definition notIncome (transaction : Transaction) : bool :=
  negb (isIncome transaction).

(* ================================================================= *)
(** ** Sample data *)

(** Records shaped like the ones [addSampleData] builds. *)
Definition sampleTransaction (key : Z) (n : string) (a : Number.t)
    (c d : string) : Transaction :=
  {| id := Number.ofZ key; name := n; amount := a; category := c;
     date := d; type := typeOf a |}.

Definition salary : Transaction :=
  sampleTransaction 1700000000001 "Salary" (Number.ofZ 3500) "Income"
    "2024-03-01T09:00:00.000Z".

Definition rent : Transaction :=
  sampleTransaction 1700000000002 "Rent" (Number.ofZ (-1200)) "Rent"
    "2024-03-02T09:00:00.000Z".

Definition groceries : Transaction :=
  sampleTransaction 1700000000003 "Groceries" (Number.ofZ (-150)) "Food"
    "2024-03-03T09:00:00.000Z".

Definition seafood : Transaction :=
  sampleTransaction 1700000000004 "Seafood" (Number.ofZ (-40)) "Food"
    "2024-03-04T09:00:00.000Z".

Definition lunch : Transaction :=
  sampleTransaction 1700000000005 "Lunch" (Number.ofZ (-12)) "Food"
    "2024-03-04T09:00:00.000Z".

(** An expense filed under a category named after the year. *)
Definition seasonPass : Transaction :=
  sampleTransaction 1700000000006 "Season pass" (Number.ofZ (-300)) "2024"
    "2024-03-09T09:00:00.000Z".

(** A session whose database is open and holds [l], already loaded. *)
Definition loadedState (l : list Transaction) : State :=
  {| transactions := l; filteredTransactions := l; db := Some l;
     notifications := []; alerts := [] |}.

Definition submission (n : string) (a : Number.t) (c : string) : Submission :=
  {| nameValue := n; amountParsed := a; categoryValue := c;
     freshId := Number.ofZ 1700000000009;
     nowISO := "2024-03-09T09:00:00.000Z" |}.

(* ================================================================= *)
(** ** Readings of the specification *)

(** The validation as the specification words it: the name is empty after
    trimming, or the amount is not a finite number, or the category is
    empty. *)
Definition failsStatedValidation (f : Submission) : bool :=
  Str.isEmpty (Str.trim (nameValue f))
  || negb (Number.isFinite (amountParsed f))
  || Str.isEmpty (categoryValue f).

(** A result that reports an error to its caller: the promise is
    rejected. *)
Definition propagatesError (result : State * Settled) : Prop :=
  exists reason, snd result = Rejected reason.

(** A result that signals an error in any way the program has: a rejected
    promise or a notification of type ['error']. *)
Definition signalsError (result : State * Settled) : Prop :=
  propagatesError result
  \/ exists message, In (message, "error") (notifications (fst result)).

(** [sub] occurs in [s]. *)
Definition Substring (sub s : string) : Prop :=
  exists pre post : string, s = (pre ++ sub ++ post)%string.

(** A transaction one of whose three searched fields, in lower case,
    contains [term]. *)
Definition termMatch (term : string) (transaction : Transaction) : Prop :=
  Substring term (Str.toLowerCase (name transaction))
  \/ Substring term (Str.toLowerCase (category transaction))
  \/ Substring term (Str.toLowerCase (type transaction)).

(** The match as the specification words it: the query itself, compared
    without regard to case. *)
Definition statedMatch (query : string) (transaction : Transaction) : Prop :=
  termMatch (Str.toLowerCase query) transaction.

(* ================================================================= *)
(** ** Dates and sessions *)

Section DateOrder.

Variable timeValue : string -> option Z.

Definition validDate (transaction : Transaction) : Prop :=
  timeValue (date transaction) <> None.

(** The date of [a] is not older than the date of [b]. *)
Definition notOlder (a b : Transaction) : Prop :=
  exists ta tb,
    timeValue (date a) = Some ta /\ timeValue (date b) = Some tb
    /\ (tb <= ta)%Z.

End DateOrder.

(** The records of the object store; none while [db] is [undefined]. *)
Definition storedRecords (s : State) : list Transaction :=
  match db s with
  | Some records => records
  | None => []
  end.

(** The time values of the dates that the samples use. *)
Definition sampleTimeValue (str : string) : option Z :=
  if String.eqb str "2024-03-01T09:00:00.000Z" then Some 1709283600000%Z
  else if String.eqb str "2024-03-02T09:00:00.000Z" then Some 1709370000000%Z
  else if String.eqb str "2024-03-03T09:00:00.000Z" then Some 1709456400000%Z
  else if String.eqb str "2024-03-04T09:00:00.000Z" then Some 1709542800000%Z
  else if String.eqb str "2024-03-09T09:00:00.000Z" then Some 1709974800000%Z
  else None.

(** What can happen to the state, each with what the browser contributes:
    the outcome of the store request and the user's input.  The database
    is [Opened] at the version it has, or [Upgraded] (created, or brought
    to the version asked for) while it is opened. *)
Inductive Event : Type :=
| Opened (request : Request) (durable : list Transaction)
| Upgraded (request : Request) (durable : list Transaction)
| Loaded (request : Request)
| Submitted (f : Submission) (request : Request)
| DeleteClicked (confirmed : bool) (key : Number.t) (request : Request)
| ClearConfirmed (request : Request)
| Searched (searchValue : string).

Section Session.

Variable timeValue : string -> option Z.

Definition handle (s : State) (e : Event) : State :=
  match e with
  | Opened request durable => fst (initIndexedDB false request durable s)
  | Upgraded request durable => fst (initIndexedDB true request durable s)
  | Loaded request => fst (loadTransactions timeValue request s)
  | Submitted f request => fst (addTransaction f request s)
  | DeleteClicked confirmed key request =>
      fst (deleteClick confirmed key request s)
  | ClearConfirmed request => fst (clearAllTransactions request s)
  | Searched searchValue => filterTransactions searchValue s
  end.

Definition run (events : list Event) (s : State) : State :=
  fold_left handle events s.

End Session.

(** Every element of the filtered list is an element of the transaction
    list. *)
Definition viewWithin (s : State) : Prop :=
  incl (filteredTransactions s) (transactions s).

(* ================================================================= *)
(** ** Readings for the spending summary *)

(** The distinct elements of a list, in the order of their first
    occurrence. *)
Fixpoint firstOccurrences (l : list string) : list string :=
  match l with
  | [] => []
  | k :: rest =>
      k :: filter (fun k' => negb (String.eqb k' k)) (firstOccurrences rest)
  end.

(** The order of the bars as the specification words it. *)
Definition statedOrder (s : State) : Prop :=
  map barCategory (updateSpendingSummary s)
  = firstOccurrences (map category (filter isExpense (transactions s))).

Definition isIndexKey (k : string) : bool :=
  match JsObject.arrayIndex k with Some _ => true | None => false end.

(** The names that become ordinary properties of [categories]. *)
Definition isNameKey (k : string) : bool :=
  negb (isIndexKey k) && negb (String.eqb k "__proto__").

(** Both keys are array indices, the first not above the second. *)
Definition indexLe (k k' : string) : Prop :=
  match JsObject.arrayIndex k, JsObject.arrayIndex k' with
  | Some i, Some j => (i <= j)%N
  | _, _ => False
  end.

Definition hasCategory (c : string) (transaction : Transaction) : bool :=
  String.eqb (category transaction) c.

(** The sum, from left to right, of [Math.abs(amount)] over the
    transactions of one category. *)
Definition groupAmount (c : string) (expenseTransactions : list Transaction)
  : Number.t :=
  sum (map absAmount (filter (hasCategory c) expenseTransactions)).

Definition numericAmount (transaction : Transaction) : Prop :=
  Number.isNaN (amount transaction) = false.

(** The keys of [JsObject.define k v o], from the keys of [o]. *)
Fixpoint insertKey (k : string) (keys : list string) : list string :=
  match keys with
  | [] => [k]
  | k' :: rest =>
      if String.eqb k k' then keys
      else if JsObject.comesBefore k k' then k :: keys
      else k' :: insertKey k rest
  end.

(** The value [groupStep] stores under the transaction's category. *)
Definition nextValue (o : JsObject.t) (transaction : Transaction) : Value :=
  let current := JsObject.get o (category transaction) in
  plus (if toBoolean current then current else VNumber Number.zero)
    (absAmount transaction).

(** The own properties whose names are not on the prototype hold numbers
    with a clear sign bit. *)
Definition tidy (o : JsObject.t) : Prop :=
  forall c v, JsObject.inherited c = false -> JsObject.getOwn c o = Some v ->
              exists x, v = VNumber x /\ Number.positive0 x.

(** The number held under [c], [0] while there is none. *)
Definition held (c : string) (o : JsObject.t) : Number.t :=
  match JsObject.getOwn c o with
  | Some v => toNumber v
  | None => Number.zero
  end.


Definition notProto (k : string) : bool := negb (String.eqb k "__proto__").

Definition isPlainKey (k : string) : bool := negb (isIndexKey k).

(** The keys of an object after the keys [cs] have been defined in turn. *)
Definition keysAfter (cs keys : list string) : list string :=
  fold_left (fun ks c => insertKey c ks) cs keys.


(** The transactions in memory and in the store obey the data model. *)
Definition allWellTyped (s : State) : Prop :=
  Forall wellTyped (transactions s) /\ Forall wellTyped (storedRecords s).

(** The records found when the database is opened obey the data model. *)
Definition opensWellTyped (e : Event) : Prop :=
  match e with
  | Opened _ durable => Forall wellTyped durable
  | Upgraded _ durable => Forall wellTyped durable
  | _ => True
  end.

(* ================================================================= *)
(** ** Rendering *)

(** What [createTransactionElement] computes from the transaction: the
    class of the element, the value stored as [data-id], the strings it
    interpolates into the markup assigned to [innerHTML] at the places of
    the name and of the category, the class and the sign of the amount,
    and the number it hands to [formatCurrency].  The two strings are
    inserted unescaped and the browser parses them as HTML: they are the
    text on display only when they hold no markup.  The date text comes
    from [toLocaleDateString] and is left out. *)
Record TransactionElement : Type := {
  elementClass : string;
  elementId : Number.t;
  nameMarkup : string;
  categoryMarkup : string;
  amountClass : string;
  amountSign : string;
  amountShown : Number.t
}.

Definition createTransactionElement (transaction : Transaction)
  : TransactionElement :=
  {| elementClass := ("transaction-item " ++ type transaction)%string;
     elementId := id transaction;
     nameMarkup := name transaction;
     categoryMarkup := category transaction;
     amountClass := if isIncome transaction then "income" else "expense";
     amountSign := if isIncome transaction then "+" else "-";
     amountShown := Number.abs (amount transaction) |}.

(** What [renderTransactions] leaves in the list: the empty-list text, or
    one element per filtered transaction, each with a delete button whose
    handler holds that transaction's id. *)
Inductive Rendered : Type :=
| EmptyListText
| Items (items : list (TransactionElement * Number.t)).

Definition renderTransactions (s : State) : Rendered :=
  if (List.length (filteredTransactions s) =? 0)%nat then EmptyListText
  else
    Items (map (fun transaction =>
                  (createTransactionElement transaction, id transaction))
             (filteredTransactions s)).

(** The ids held by the delete buttons that are on the page. *)
Definition deleteKeys (r : Rendered) : list Number.t :=
  match r with
  | EmptyListText => []
  | Items items => map snd items
  end.

(** The class list [updateBalance] gives the balance element. *)
Definition balanceClassList (totalBalance : Number.t) : list string :=
  "balance-amount"
  :: (if totalBalance >? Number.zero then ["positive"]
      else if Number.ltb totalBalance Number.zero then ["negative"]
      else []).

(** [-x] *)
Definition negate (x : Number.t) : Number.t := SFopp x.

(* ================================================================= *)
(** ** Colours and icons *)

(** What a lookup in an object literal of strings gives: one of its
    strings, or the function or object that [Object.prototype] holds under
    that name. *)
Inductive Looked : Type :=
| Text (s : string)
| FromPrototype.

Fixpoint ownText (table : list (string * string)) (k : string)
  : option string :=
  match table with
  | [] => None
  | (k', v) :: rest => if String.eqb k k' then Some v else ownText rest k
  end.

(** [table[k] || fallback] *)
Definition lookupOr (table : list (string * string)) (k fallback : string)
  : Looked :=
  match ownText table k with
  | Some v => if Str.isEmpty v then Text fallback else Text v
  | None => if JsObject.inherited k then FromPrototype else Text fallback
  end.

Definition colors : list (string * string) :=
  [("Food", "#10b981"); ("Rent", "#6366f1"); ("Fun", "#8b5cf6");
   ("Income", "#06b6d4"); ("Other", "#f59e0b")].

Definition icons : list (string * string) :=
  [("Food", "utensils"); ("Rent", "home"); ("Fun", "gamepad");
   ("Income", "money-bill-wave"); ("Other", "shopping-bag")].

Definition getCategoryColor (category : string) : Looked :=
  lookupOr colors category "#94a3b8".

Definition getCategoryIcon (category : string) : Looked :=
  lookupOr icons category "tag".

(* ================================================================= *)
(** ** Start-up *)

Section StartUp.

Variable timeValue : string -> option Z.

(** [init]: the state, how its promise settles, and whether
    [setupEventListeners] has been reached.  The document is taken to hold
    the elements the script looks up, so that the rendering between the
    load and [setupEventListeners] does not throw. *)
Definition init (upgrade : bool) (openRequest : Request)
    (durable : list Transaction) (loadRequest : Request) (s : State)
  : State * Settled * bool :=
  match initIndexedDB upgrade openRequest durable s with
  | (s1, Rejected error) => (s1, Rejected error, false)
  | (s1, Fulfilled) =>
      match loadTransactions timeValue loadRequest s1 with
      | (s2, Rejected error) => (s2, Rejected error, false)
      | (s2, Fulfilled) => (s2, Fulfilled, true)
      end
  end.

End StartUp.

(* ================================================================= *)
(** ** Sample data *)

(** The name, amount and category of each element of
    [sampleTransactions]. *)
Definition sampleRows : list (string * Number.t * string) :=
  [("Salary", Number.ofZ 3500, "Income");
   ("Rent", Number.ofZ (-1200), "Rent");
   ("Groceries", Number.ofZ (-150), "Food");
   ("Concert Tickets", Number.ofZ (-85), "Fun");
   ("Freelance Work", Number.ofZ 800, "Income");
   ("Restaurant", Number.ofZ (-65), "Food");
   ("Netflix Subscription", Number.ofZ (-1599) / Number.ofZ 100, "Fun");
   ("Coffee Shop", Number.ofZ (-25) / Number.ofZ 2, "Food")].

(** What the browser contributes to the [i]-th sample: its date string,
    its id and the outcome of its write. *)
Record SampleEnv : Type := {
  sampleDate : nat -> string;
  sampleId : nat -> Number.t;
  sampleRequest : nat -> Request
}.

Definition fullTransaction (env : SampleEnv) (i : nat)
    (row : string * Number.t * string) : Transaction :=
  {| id := sampleId env i;
     name := fst (fst row);
     amount := snd (fst row);
     category := snd row;
     date := sampleDate env i;
     type := typeOf (snd (fst row)) |}.

(** The [for] loop of [addSampleData], from the [i]-th element on. *)
Fixpoint saveSamples (env : SampleEnv) (i : nat)
    (rows : list (string * Number.t * string)) (s : State)
  : State * Settled :=
  match rows with
  | [] => (s, Fulfilled)
  | row :: rest =>
      match saveTransaction (fullTransaction env i row)
              (sampleRequest env i) s with
      | (s', Fulfilled) =>
          saveSamples env (S i) rest
            (setLists (transactions s' ++ [fullTransaction env i row])
               (filteredTransactions s') s')
      | (s', Rejected error) => (s', Rejected error)
      end
  end.

Definition addSampleData (env : SampleEnv) (s : State) : State * Settled :=
  if (0 <? List.length (transactions s))%nat then (s, Fulfilled)
  else
    match saveSamples env 0 sampleRows s with
    | (s', Fulfilled) =>
        (showNotification
           "Sample data loaded. Try the search and clear features!" "success"
           (setLists (transactions s') (transactions s') s'),
         Fulfilled)
    | (s', Rejected _) =>
        (showNotification "Error loading sample data." "error" s', Fulfilled)
    end.

(* ================================================================= *)
(** ** Readings for the session *)

(** The list in memory holds the records of the store, each as often as
    the store does. *)
Definition inSync (s : State) : Prop :=
  match db s with
  | Some records => Permutation records (transactions s)
  | None => True
  end.

(** The id of the submission is the key of no stored record. *)
Definition freshKey (f : Submission) (s : State) : Prop :=
  existsb (fun r => id r === freshId f) (storedRecords s) = false.

(** The events after which memory and store are compared: a submission
    brings a key the store does not hold, the database is not reopened,
    and no read of the store is refused (a read that throws leaves the
    lists alone, a refused one empties them). *)
Definition keepsSync (s : State) (e : Event) : Prop :=
  match e with
  | Opened _ _ => False
  | Upgraded _ _ => False
  | Loaded (Fails _) => False
  | Submitted f _ => freshKey f s
  | _ => True
  end.

(** What the user has been told so far. *)
Definition feedbackCount (s : State) : nat :=
  List.length (notifications s) + List.length (alerts s).

(** The events that end with an alert or a notification. *)
Definition answered (e : Event) : bool :=
  match e with
  | Submitted _ _ => true
  | DeleteClicked confirmed _ _ => confirmed
  | ClearConfirmed _ => true
  | _ => false
  end.

(** The term [filterTransactions] searches for. *)
Definition searchTermOf (searchValue : string) : string :=
  Str.trim (Str.toLowerCase searchValue).

Fixpoint allWhiteSpace (s : string) : bool :=
  match s with
  | EmptyString => true
  | String c r => Str.isWhiteSpace c && allWhiteSpace r
  end.

(** The filtered list is what a search for [term] gives. *)
Definition showsSearch (term : string) (s : State) : Prop :=
  filteredTransactions s = filter (matchesTerm term) (transactions s).

Section OrderReadings.

Variable timeValue : string -> option Z.

(** No element is older than any element after it. *)
Definition newestFirst (l : list Transaction) : Prop :=
  StronglySorted (notOlder timeValue) l.

Definition orderedLists (s : State) : Prop :=
  newestFirst (transactions s) /\ newestFirst (filteredTransactions s).

(** The clock has not gone back: the date of the submission is not older
    than the date of the first listed transaction. *)
Definition clockAhead (f : Submission) (s : State) : Prop :=
  match transactions s with
  | [] => True
  | first :: _ => notOlder timeValue (newTransaction f) first
  end.

Definition keepsOrder (s : State) (e : Event) : Prop :=
  match e with
  | Submitted f _ => clockAhead f s
  | Loaded _ => Forall (validDate timeValue) (storedRecords s)
  | _ => True
  end.

End OrderReadings.

(** How many of the writes from the [i]-th on succeed before the first
    that fails, among [n] writes. *)
Fixpoint leadingSuccesses (env : SampleEnv) (i n : nat) : nat :=
  match n with
  | O => O
  | S n' =>
      match sampleRequest env i with
      | Succeeds => S (leadingSuccesses env (S i) n')
      | Fails _ => O
      | Throws _ => O
      end
  end.

(** The transactions built from [rows], the first being the [i]-th. *)
Fixpoint builtFrom (env : SampleEnv) (i : nat)
    (rows : list (string * Number.t * string)) : list Transaction :=
  match rows with
  | [] => []
  | row :: rest => fullTransaction env i row :: builtFrom env (S i) rest
  end.

(** An environment for the samples: the dates and ids of a run in which
    the [failing]-th write is refused. *)
Definition sampleEnv (failing : nat) : SampleEnv :=
  {| sampleDate := fun _ => "2024-03-01T09:00:00.000Z";
     sampleId := fun i => Number.ofZ (1700000000100 + Z.of_nat i);
     sampleRequest := fun i =>
       if (i =? failing)%nat then Fails "QuotaExceededError" else Succeeds |}.

(** How many samples are written: none while [db] is [undefined]. *)
Definition savedCount (env : SampleEnv) (i : nat)
    (rows : list (string * Number.t * string)) (s : State) : nat :=
  match db s with
  | None => O
  | Some _ => leadingSuccesses env i (List.length rows)
  end.

(** The store after the records [l] have been put one after the other. *)
Definition putAll (l records : list Transaction) : list Transaction :=
  fold_left (fun recs t => Store.put t recs) l records.

(** The five categories that have a colour and an icon of their own. *)
Definition listedCategories : list string :=
  ["Food"; "Rent"; "Fun"; "Income"; "Other"].

Section Reopening.

Variable timeValue : string -> option Z.

(** The page is loaded again: the script starts from its initial state,
    the database opens on the records the store was left with, and the
    read succeeds. *)
Definition reopen (s : State) : State :=
  fst (fst (init timeValue false Succeeds (storedRecords s) Succeeds
              initialState)).

End Reopening.

(* ================================================================= *)
(** ** The numbers that binary64 values stand for *)

Module Exact.

(** The rational number that a finite value [m * 2^e] stands for; [0] for
    the values that stand for none. *)
Definition value (x : Number.t) : Q :=
  match x with
  | S754_finite s m e => (inject_Z (cond_Zopp s (Zpos m)) * 2 ^ e)%Q
  | _ => 0%Q
  end.

(** [Number.EPSILON], the gap between [1] and the next number. *)
Definition EPSILON : Q := (2 ^ (-52))%Q.

(** The exponent [e] of a finite value [m * 2^e]. *)
Definition exponent (x : Number.t) : Z :=
  match x with
  | S754_finite _ _ e => e
  | _ => 0%Z
  end.

(** The normal numbers: finite, with a mantissa of 53 bits. *)
Definition isNormal (x : Number.t) : bool :=
  match x with
  | S754_finite _ m e =>
      (Zpos (digits2_pos m) =? 53)%Z && (-1074 <=? e)%Z && (e <=? 971)%Z
  | _ => false
  end.

(** A positive number with a mantissa of 53 bits. *)
Definition normalPos (x : Number.t) : Prop :=
  match x with
  | S754_finite false m e =>
      (2 ^ 52 <= Zpos m < 2 ^ 53)%Z /\ (-1074 <= e)%Z
  | _ => False
  end.

(** [+0] or a positive number with a mantissa of 53 bits. *)
Definition zeroOrNormal (x : Number.t) : Prop :=
  x = Number.zero \/ normalPos x.

(** The exact sum. *)
Definition sumQ (l : list Q) : Q := fold_right Qplus 0%Q l.

(** The factors by which [n] roundings can have raised or lowered a
    positive result. *)
Definition shrink (n : nat) : Q := ((1 - EPSILON) ^ Z.of_nat n)%Q.

Definition growth (n : nat) : Q := ((1 + EPSILON) ^ Z.of_nat n)%Q.

(** The relative tolerance allowed after the roundings that [n] expenses
    bring about: [(2 n + 4) * EPSILON]. *)
Definition tolerance (n : nat) : Q :=
  (inject_Z (Z.of_nat (2 * n + 4)) * EPSILON)%Q.

End Exact.

(** The exact sum of the amounts of the expenses filed under [c]. *)
Definition exactGroup (expenses : list Transaction) (c : string) : Q :=
  Exact.sumQ
    (map (fun t => Exact.value (absAmount t))
       (filter (hasCategory c) expenses)).

(** The percentage-weighted amounts, summed exactly: the sum over the
    bars of [percentage / 100 * totalExpenses]. *)
Definition weightedBack (totalExpenses : Number.t) (bars : list CategoryBar)
  : Q :=
  Exact.sumQ
    (map (fun bar =>
            (Exact.value (barPercentage bar) / 100
             * Exact.value totalExpenses)%Q)
       bars).

(** The percentage of the bar has neither overflowed nor left the normal
    range: it is finite, and the exponent of [totalExpenses] is at most
    1021 above the exponent of the amount, which keeps the quotient
    [amount / totalExpenses] a normal number. *)
Definition inRange (totalExpenses : Number.t) (bar : CategoryBar) : bool :=
  Number.isFinite (barPercentage bar)
  && (Exact.exponent totalExpenses
      - Exact.exponent (toNumber (barAmount bar)) <=? 1021)%Z.
(* ================================================================= *)
(** * Properties *)

(* ================================================================= *)
(** ** Signs of binary64 sums *)

Section Rounding.

Variables prec emax : Z.

Lemma shr_1_nonneg (mrs : shr_record) :
  (0 <= shr_m mrs)%Z -> (0 <= shr_m (shr_1 mrs))%Z.
Proof.
  destruct mrs as [m r s]; simpl.
  destruct m as [|p|p]; try destruct p; simpl; lia.
Qed.

Lemma iter_pos_preserves (A : Type) (f : A -> A) (P : A -> Prop) :
  (forall x, P x -> P (f x)) ->
  forall n x, P x -> P (SpecFloat.iter_pos f n x).
Proof.
  intros Hf; induction n as [n IH|n IH|]; intros x Hx; simpl; auto.
Qed.

Lemma shr_nonneg (mrs : shr_record) (e n : Z) :
  (0 <= shr_m mrs)%Z -> (0 <= shr_m (fst (shr mrs e n)))%Z.
Proof.
  intros H; destruct n; simpl; auto.
  apply iter_pos_preserves with (P := fun r => (0 <= shr_m r)%Z); auto.
  apply shr_1_nonneg.
Qed.

Lemma shr_record_of_loc_m (m : Z) (l : location) :
  shr_m (shr_record_of_loc m l) = m.
Proof. destruct l as [|[]]; reflexivity. Qed.

Lemma shr_fexp_nonneg (m e : Z) (l : location) :
  (0 <= m)%Z -> (0 <= shr_m (fst (shr_fexp prec emax m e l)))%Z.
Proof.
  intros H; unfold shr_fexp; apply shr_nonneg.
  now rewrite shr_record_of_loc_m.
Qed.

Lemma round_nearest_even_nonneg (m : Z) (l : location) :
  (0 <= m)%Z -> (0 <= round_nearest_even m l)%Z.
Proof.
  intros H; destruct l as [|[]]; simpl; try lia.
  destruct (Z.even m); lia.
Qed.

(** Rounding a non-negative mantissa with a clear sign bit gives [+0],
    a positive number or [+Infinity]. *)
Lemma binary_round_aux_positive0 (m e : Z) (l : location) :
  (0 <= m)%Z ->
  Number.positive0 (binary_round_aux prec emax false m e l).
Proof.
  intros H; unfold binary_round_aux.
  pose proof (shr_fexp_nonneg e l H) as H1.
  destruct (shr_fexp prec emax m e l) as [mrs' e']; simpl in H1.
  pose proof (round_nearest_even_nonneg (loc_of_shr_record mrs') H1) as H2.
  pose proof (shr_fexp_nonneg e' loc_Exact H2) as H3.
  destruct (shr_fexp prec emax _ e' loc_Exact) as [mrs'' e'']; simpl in H3.
  destruct (shr_m mrs'') as [|p|p]; simpl; auto; try lia.
  destruct (e'' <=? emax - prec)%Z; simpl; auto.
Qed.

Lemma binary_round_positive0 (m : positive) (e : Z) :
  Number.positive0 (binary_round prec emax false m e).
Proof.
  unfold binary_round.
  destruct (shl_align m e _) as [mz ez].
  apply binary_round_aux_positive0; lia.
Qed.

Lemma SFadd_positive0 (x y : spec_float) :
  Number.positive0 x -> Number.positive0 y ->
  Number.positive0 (SFadd prec emax x y).
Proof.
  destruct x as [[]|[]| |[] mx ex]; simpl; try tauto;
    destruct y as [[]|[]| |[] my ey]; simpl; try tauto; intros _ _.
  apply binary_round_positive0.
Qed.

End Rounding.

Module NumberFacts.

Lemma positive0_geb (x : Number.t) :
  Number.positive0 x -> (x >=? Number.zero) = true.
Proof. destruct x as [[]|[]| |[] m e]; simpl; tauto. Qed.

Lemma positive0_not_NaN (x : Number.t) :
  Number.positive0 x -> Number.isNaN x = false.
Proof. destruct x as [[]|[]| |[] m e]; simpl; tauto. Qed.

Lemma abs_positive0 (x : Number.t) :
  Number.isNaN x = false -> Number.positive0 (Number.abs x).
Proof. destruct x as [[]|[]| |[] m e]; simpl; auto; discriminate. Qed.

Lemma add_positive0 (x y : Number.t) :
  Number.positive0 x -> Number.positive0 y -> Number.positive0 (x + y).
Proof. apply SFadd_positive0. Qed.

(** [x >= 0] and [y >= 0] give [x + y >= 0]. *)
Lemma add_geb_zero (x y : Number.t) :
  (x >=? Number.zero) = true -> (y >=? Number.zero) = true ->
  (x + y >=? Number.zero) = true.
Proof.
  destruct x as [[]|[]| |[] mx ex]; simpl; try discriminate;
    destruct y as [[]|[]| |[] my ey]; simpl; try discriminate;
    try reflexivity; intros _ _.
  apply positive0_geb.
  apply (@binary_round_positive0 Number.prec Number.emax).
Qed.

Lemma zero_positive0 : Number.positive0 Number.zero.
Proof. exact I. Qed.

(** A positive-or-zero number is falsy only when it is [+0]. *)
Lemma positive0_falsy (x : Number.t) :
  Number.positive0 x -> Number.toBoolean x = false -> x = Number.zero.
Proof. destruct x as [[]|[]| |[] m e]; simpl; try tauto; discriminate. Qed.

End NumberFacts.

(* ================================================================= *)
(** ** Totals *)

Section TotalsFacts.

Import NumberFacts.

Lemma totals_from (ts : list Transaction) (acc : Totals) :
  fold_left totalsStep ts acc =
  {| income := sumFrom (income acc) (map amount (filter isIncome ts));
     expense := sumFrom (expense acc) (map absAmount (filter notIncome ts)) |}.
Proof.
  revert acc; induction ts as [|t ts IH]; intros acc; simpl.
  - now destruct acc.
  - rewrite IH; unfold totalsStep, notIncome.
    destruct (isIncome t); reflexivity.
Qed.

Lemma sumFrom_geb_zero (l : list Number.t) (start : Number.t) :
  (start >=? Number.zero) = true ->
  Forall (fun x => (x >=? Number.zero) = true) l ->
  (sumFrom start l >=? Number.zero) = true.
Proof.
  revert start; induction l as [|x l IH]; intros start Hs Hl; simpl; auto.
  inversion Hl; subst.
  apply IH; auto using add_geb_zero.
Qed.

Lemma typeOf_income (a : Number.t) :
  String.eqb (typeOf a) "income" = true -> (a >=? Number.zero) = true.
Proof.
  unfold typeOf; destruct (a >=? Number.zero); auto; discriminate.
Qed.

Lemma income_amounts_geb_zero (ts : list Transaction) :
  Forall wellTyped ts ->
  Forall (fun x => (x >=? Number.zero) = true)
    (map amount (filter isIncome ts)).
Proof.
  induction 1 as [|t ts [_ Ht] _ IH]; simpl; auto.
  destruct (isIncome t) eqn:E; simpl; auto.
  constructor; auto.
  unfold isIncome in E; rewrite Ht in E; now apply typeOf_income.
Qed.

Lemma expense_amounts_geb_zero (ts : list Transaction) :
  Forall wellTyped ts ->
  Forall (fun x => (x >=? Number.zero) = true)
    (map absAmount (filter notIncome ts)).
Proof.
  induction 1 as [|t ts [Hn _] _ IH]; simpl; auto.
  destruct (notIncome t); simpl; auto.
  constructor; auto.
  now apply positive0_geb, abs_positive0.
Qed.

End TotalsFacts.

(** C2.  For every list of transactions that obey the data model (the
    amount is a number, [type] is derived from its sign), the three values
    of [updateBalance] satisfy: income is the left-to-right sum of [amount]
    over the transactions of type ['income'], expense is the sum of
    [Math.abs(amount)] over the others, balance is [income - expense], and
    [income >= 0] and [expense >= 0]. *)
Theorem updateBalance_totals (s : State) :
  Forall wellTyped (transactions s) ->
  let '(balance, inc, exp) := updateBalance s in
  inc = sum (map amount (filter isIncome (transactions s)))
  /\ exp = sum (map absAmount (filter notIncome (transactions s)))
  /\ balance = inc - exp
  /\ (inc >=? Number.zero) = true
  /\ (exp >=? Number.zero) = true.
Proof.
  intros Hwf; unfold updateBalance, totalBalance, totals.
  rewrite totals_from; simpl.
  repeat split.
  - apply sumFrom_geb_zero; [reflexivity | now apply income_amounts_geb_zero].
  - apply sumFrom_geb_zero; [reflexivity | now apply expense_amounts_geb_zero].
Qed.

Lemma updateBalance_totals_sample :
  Forall wellTyped (transactions (loadedState [groceries; rent; salary]))
  /\ let '(balance, inc, exp) :=
       updateBalance (loadedState [groceries; rent; salary]) in
     inc = sum (map amount (filter isIncome [groceries; rent; salary]))
     /\ exp = sum (map absAmount (filter notIncome [groceries; rent; salary]))
     /\ balance = inc - exp
     /\ (inc >=? Number.zero) = true
     /\ (exp >=? Number.zero) = true.
Proof.
  assert (H : Forall wellTyped
                (transactions (loadedState [groceries; rent; salary]))).
  { simpl; repeat constructor. }
  split; [exact H|].
  exact (updateBalance_totals (loadedState [groceries; rent; salary]) H).
Defined.

Example totals_of_sample :
  updateBalance (loadedState [groceries; rent; salary]) =
  (Number.ofZ 2150, Number.ofZ 3500, Number.ofZ 1350).
Proof. vm_compute. reflexivity. Qed.

(* ================================================================= *)
(** ** Adding a transaction *)

Lemma isEmpty_false (s : string) : s <> "" -> Str.isEmpty s = false.
Proof. destruct s; simpl; congruence. Qed.

Lemma isEmpty_true (s : string) : Str.isEmpty s = true <-> s = "".
Proof. destruct s; simpl; split; congruence. Qed.

Lemma rejectsInput_spec (f : Submission) :
  rejectsInput f = true <->
  Str.trim (nameValue f) = ""
  \/ Number.isNaN (amountParsed f) = true
  \/ categoryValue f = "".
Proof.
  unfold rejectsInput.
  rewrite !orb_true_iff, !isEmpty_true; tauto.
Qed.

Lemma rejectsInput_valid (f : Submission) :
  Str.trim (nameValue f) <> "" ->
  Number.isNaN (amountParsed f) = false ->
  categoryValue f <> "" ->
  rejectsInput f = false.
Proof.
  intros Hn Ha Hc; unfold rejectsInput.
  now rewrite (isEmpty_false Hn), Ha, (isEmpty_false Hc).
Qed.

Lemma strictEq_zero_geb (a : Number.t) :
  (a === Number.zero) = true -> (a >=? Number.zero) = true.
Proof.
  destruct a as [[]|[]| |[] m e]; simpl; auto.
Qed.

Lemma ltb_zero_geb (a : Number.t) :
  Number.ltb a Number.zero = true -> (a >=? Number.zero) = false.
Proof.
  destruct a as [[]|[]| |[] m e]; simpl; auto; discriminate.
Qed.

(** A submitted [-5] is listed with amount [-5] as an expense. *)
Example addTransaction_lists_an_expense :
  let f := submission "Lunch" (Number.ofZ (-5)) "Food" in
  transactions (fst (addTransaction f Succeeds (loadedState [rent])))
  = [ {| id := freshId f; name := "Lunch"; amount := Number.ofZ (-5);
         category := "Food"; date := nowISO f; type := "expense" |};
      rent ].
Proof.
  vm_compute; reflexivity.
Qed.

(** C1.  When the name is non-empty after trimming, the amount is a number
     and the category is non-empty, and the write to the store succeeds,
     the list of [addTransaction] grows by exactly one element, placed
     first.  That element is built from the form: its name is the trimmed
     name, its amount the parsed amount, its category the chosen one, its
     id and date those of the moment, and its [type] is ['income'] when
     the submitted amount is [>= 0] (so also when it is [0] or [-0]) and
     ['expense'] otherwise. *)
Theorem addTransaction_prepends (f : Submission) (request : Request)
    (s : State) :
  Str.trim (nameValue f) <> "" ->
  Number.isNaN (amountParsed f) = false ->
  categoryValue f <> "" ->
  snd (saveTransaction (newTransaction f) request s) = Fulfilled ->
  let s' := fst (addTransaction f request s) in
  exists t : Transaction,
    transactions s' = t :: transactions s
    /\ hd_error (transactions s') = Some t
    /\ List.length (transactions s') = S (List.length (transactions s))
    /\ id t = freshId f
    /\ name t = Str.trim (nameValue f)
    /\ amount t = amountParsed f
    /\ category t = categoryValue f
    /\ date t = nowISO f
    /\ type t =
         (if amountParsed f >=? Number.zero then "income" else "expense")
    /\ ((amountParsed f === Number.zero) = true -> type t = "income")
    /\ (Number.ltb (amountParsed f) Number.zero = true ->
        type t = "expense").
Proof.
  intros Hn Ha Hc Hsave; cbv zeta.
  assert (Hts : transactions (fst (addTransaction f request s)) =
                newTransaction f :: transactions s).
  { unfold addTransaction; rewrite (rejectsInput_valid f Hn Ha Hc).
    unfold saveTransaction in *.
    destruct (db s) as [records|]; [|discriminate].
    destruct request; [reflexivity|discriminate|discriminate]. }
  exists (newTransaction f); rewrite Hts.
  repeat split.
  - simpl; unfold typeOf; intros H.
    now rewrite (strictEq_zero_geb _ H).
  - simpl; unfold typeOf; intros H.
    now rewrite (ltb_zero_geb _ H).
Qed.

Lemma addTransaction_prepends_sample :
  let f := submission "  Coffee " Number.zero "Food" in
  let s := loadedState [groceries; rent] in
  let s' := fst (addTransaction f Succeeds s) in
  exists t : Transaction,
    transactions s' = t :: transactions s
    /\ hd_error (transactions s') = Some t
    /\ List.length (transactions s') = S (List.length (transactions s))
    /\ id t = freshId f
    /\ name t = Str.trim (nameValue f)
    /\ amount t = amountParsed f
    /\ category t = categoryValue f
    /\ date t = nowISO f
    /\ type t =
         (if amountParsed f >=? Number.zero then "income" else "expense")
    /\ ((amountParsed f === Number.zero) = true -> type t = "income")
    /\ (Number.ltb (amountParsed f) Number.zero = true ->
        type t = "expense").
Proof.
  apply (@addTransaction_prepends
           (submission "  Coffee " Number.zero "Food") Succeeds
           (loadedState [groceries; rent]));
    solve [ discriminate | reflexivity ].
Defined.

(* ================================================================= *)
(** ** Validation *)

(** C3, as stated, fails: [Infinity] is not a finite number, yet the guard
    [isNaN(amount)] lets it through and the transaction is added. *)
Lemma addTransaction_accepts_Infinity :
  let f := submission "Windfall" Number.Infinity "Income" in
  let s := loadedState [rent] in
  failsStatedValidation f = true
  /\ transactions (fst (addTransaction f Succeeds s))
     = newTransaction f :: transactions s
  /\ transactions (fst (addTransaction f Succeeds s)) <> transactions s
  /\ db (fst (addTransaction f Succeeds s)) <> db s.
Proof.
  cbv zeta; repeat split; try reflexivity; intros H; vm_compute in H;
    discriminate.
Qed.

(** C3, amended.  When the name is empty after trimming, or the amount is
    [NaN], or the category is empty, [addTransaction] shows the alert,
    returns without a value, and leaves the transaction list, the filtered
    list and the store as they were.  These are the only inputs it
    rejects ([rejectsInput_spec]); an infinite amount is not among them. *)
Theorem addTransaction_invalid_input (f : Submission) (request : Request)
    (s : State) :
  Str.trim (nameValue f) = ""
  \/ Number.isNaN (amountParsed f) = true
  \/ categoryValue f = "" ->
  addTransaction f request s
  = (alert "Please fill in all fields correctly." s, Fulfilled)
  /\ transactions (fst (addTransaction f request s)) = transactions s
  /\ filteredTransactions (fst (addTransaction f request s))
     = filteredTransactions s
  /\ db (fst (addTransaction f request s)) = db s
  /\ notifications (fst (addTransaction f request s)) = notifications s.
Proof.
  intros H; apply rejectsInput_spec in H.
  unfold addTransaction; rewrite H; simpl; auto.
Qed.

Lemma addTransaction_invalid_input_sample :
  let f := submission "" (Number.ofZ 10) "Food" in
  let s := loadedState [rent] in
  (Str.trim (nameValue f) = ""
   \/ Number.isNaN (amountParsed f) = true
   \/ categoryValue f = "")
  /\ addTransaction f Succeeds s
     = (alert "Please fill in all fields correctly." s, Fulfilled)
  /\ transactions (fst (addTransaction f Succeeds s)) = transactions s
  /\ filteredTransactions (fst (addTransaction f Succeeds s))
     = filteredTransactions s
  /\ db (fst (addTransaction f Succeeds s)) = db s
  /\ notifications (fst (addTransaction f Succeeds s)) = notifications s.
Proof.
  cbv zeta.
  assert (H : Str.trim (nameValue (submission "" (Number.ofZ 10) "Food")) = ""
              \/ Number.isNaN
                   (amountParsed (submission "" (Number.ofZ 10) "Food")) = true
              \/ categoryValue (submission "" (Number.ofZ 10) "Food") = "").
  { left; reflexivity. }
  split; [exact H|].
  exact (addTransaction_invalid_input
           (submission "" (Number.ofZ 10) "Food") Succeeds
           (loadedState [rent]) H).
Defined.

(* ================================================================= *)
(** ** A failed write *)

(** C4, as stated, fails: when the write is refused the promise of
    [addTransaction] is fulfilled, not rejected. *)
Lemma addTransaction_swallows_store_error :
  let f := submission "Coffee" (Number.ofZ (-3)) "Food" in
  let s := loadedState [rent] in
  snd (saveTransaction (newTransaction f) (Fails "QuotaExceededError") s)
  = Rejected "QuotaExceededError"
  /\ ~ propagatesError (addTransaction f (Fails "QuotaExceededError") s).
Proof.
  cbv zeta; split; [reflexivity|].
  intros [reason H]; vm_compute in H; discriminate.
Qed.

(** The code resumed after a successful write puts the transaction first,
    whatever the state is by then. *)
Lemma addTransaction_saved_prepends (t : Transaction) (s : State) :
  transactions (addTransaction_saved t s) = t :: transactions s
  /\ db (addTransaction_saved t s) = db s.
Proof. split; reflexivity. Qed.

(** The [catch] block touches neither list, whatever the state is when the
    promise is rejected. *)
Lemma addTransaction_failed_lists (s : State) :
  transactions (addTransaction_failed s) = transactions s
  /\ filteredTransactions (addTransaction_failed s) = filteredTransactions s
  /\ db (addTransaction_failed s) = db s.
Proof. repeat split. Qed.

(** C4, amended.  For a valid input, when the write to the store is
    rejected, the transaction list, the filtered list and the store are
    unchanged; the error is caught inside [addTransaction], which shows
    the error notification and whose promise is fulfilled. *)
Theorem addTransaction_write_failure (f : Submission) (request : Request)
    (s : State) (reason : string) :
  rejectsInput f = false ->
  snd (saveTransaction (newTransaction f) request s) = Rejected reason ->
  let s' := fst (addTransaction f request s) in
  transactions s' = transactions s
  /\ filteredTransactions s' = filteredTransactions s
  /\ db s' = db s
  /\ notifications s'
     = (notifications s
        ++ [("Error saving transaction. Please try again.", "error")])%list
  /\ snd (addTransaction f request s) = Fulfilled.
Proof.
  intros Hv Hsave; cbv zeta.
  unfold addTransaction; rewrite Hv.
  unfold saveTransaction in *.
  destruct (db s) as [records|] eqn:Hdb.
  - destruct request; [discriminate| |]; simpl; rewrite Hdb; auto.
  - simpl. rewrite Hdb. auto.
Qed.

Lemma addTransaction_write_failure_sample :
  let f := submission "Coffee" (Number.ofZ (-3)) "Food" in
  let s := loadedState [rent] in
  let s' := fst (addTransaction f (Fails "QuotaExceededError") s) in
  transactions s' = transactions s
  /\ filteredTransactions s' = filteredTransactions s
  /\ db s' = db s
  /\ notifications s'
     = (notifications s
        ++ [("Error saving transaction. Please try again.", "error")])%list
  /\ snd (addTransaction f (Fails "QuotaExceededError") s) = Fulfilled.
Proof.
  apply (@addTransaction_write_failure
           (submission "Coffee" (Number.ofZ (-3)) "Food")
           (Fails "QuotaExceededError") (loadedState [rent])
           "QuotaExceededError"); reflexivity.
Defined.

(* ================================================================= *)
(** ** Strings *)

Lemma startsWith_spec (sub s : string) :
  Str.startsWith s sub = true <-> exists post, s = (sub ++ post)%string.
Proof.
  revert s; induction sub as [|b sub IH]; intros s.
  - split; [intros _; now exists s | intros _; now destruct s].
  - destruct s as [|a s]; simpl.
    + split; [discriminate | intros [post H]; discriminate].
    + rewrite andb_true_iff, Ascii.eqb_eq, IH.
      split.
      * intros [-> [post ->]]; now exists post.
      * intros [post H]; injection H as -> ->.
        split; [reflexivity | now exists post].
Qed.

Lemma includes_nil (sub : string) :
  Str.includes "" sub = Str.startsWith "" sub || false.
Proof. reflexivity. Qed.

Lemma includes_cons (a : ascii) (s sub : string) :
  Str.includes (String a s) sub
  = Str.startsWith (String a s) sub || Str.includes s sub.
Proof. reflexivity. Qed.

Lemma includes_spec (s sub : string) :
  Str.includes s sub = true <-> Substring sub s.
Proof.
  unfold Substring; induction s as [|a s IH].
  - rewrite includes_nil, orb_true_iff, startsWith_spec; split.
    + intros [[post H]|H]; [|discriminate].
      now exists "", post.
    + intros [pre [post H]]; left.
      destruct pre; [|discriminate]. now exists post.
  - rewrite includes_cons, orb_true_iff, startsWith_spec, IH; split.
    + intros [[post H]|[pre [post H]]].
      * now exists "", post.
      * exists (String a pre), post; simpl; now rewrite H.
    + intros [pre [post H]].
      destruct pre as [|c pre]; simpl in H.
      * left; now exists post.
      * right; injection H as _ H; now exists pre, post.
Qed.

Lemma includes_empty (s : string) : Str.includes s "" = true.
Proof. destruct s; reflexivity. Qed.

Lemma matchesTerm_spec (term : string) (t : Transaction) :
  matchesTerm term t = true <-> termMatch term t.
Proof.
  unfold matchesTerm, termMatch.
  now rewrite !orb_true_iff, !includes_spec, or_assoc.
Qed.

Lemma filter_all (A : Type) (p : A -> bool) (l : list A) :
  (forall x, p x = true) -> filter p l = l.
Proof.
  intros H; induction l as [|x l IH]; simpl; [reflexivity|].
  now rewrite H, IH.
Qed.

(* ================================================================= *)
(** ** Searching *)

(** C7, as stated, fails: the search value [" sea"] selects a transaction
    none of whose fields contains [" sea"], because the value is trimmed
    before it is compared. *)
Lemma filterTransactions_trims_query :
  let s := loadedState [seafood; rent] in
  In seafood (filteredTransactions (filterTransactions " sea" s))
  /\ ~ statedMatch " sea" seafood.
Proof.
  cbv zeta; split; [left; reflexivity|].
  unfold statedMatch; rewrite <- matchesTerm_spec.
  vm_compute; discriminate.
Qed.

(** C7, amended.  With [term] the search value in lower case and trimmed,
    [filterTransactions] sets the filtered list to the transactions, in
    their order, one of whose name, category or type contains [term] once
    put in lower case; an empty search value gives the whole list; the
    transaction list itself is untouched; and the result never depends on
    the filtered list of before. *)
Theorem filterTransactions_search (searchValue : string) (s : State) :
  let term := Str.trim (Str.toLowerCase searchValue) in
  let s' := filterTransactions searchValue s in
  transactions s' = transactions s
  /\ filteredTransactions s' = filter (matchesTerm term) (transactions s)
  /\ (forall t, matchesTerm term t = true <-> termMatch term t)
  /\ (forall t, In t (filteredTransactions s')
                <-> In t (transactions s) /\ termMatch term t)
  /\ filteredTransactions (filterTransactions "" s) = transactions s
  /\ forall view,
       filteredTransactions
         (filterTransactions searchValue (setLists (transactions s) view s))
       = filteredTransactions s'.
Proof.
  cbv zeta.
  assert (H : filteredTransactions (filterTransactions searchValue s)
              = filter (matchesTerm (Str.trim (Str.toLowerCase searchValue)))
                  (transactions s)).
  { unfold filterTransactions.
    destruct (Str.isEmpty _) eqn:E; simpl; [|reflexivity].
    apply isEmpty_true in E; rewrite E.
    symmetry; apply filter_all; intros t.
    unfold matchesTerm; now rewrite includes_empty. }
  split; [|split; [exact H|split; [|split; [|split]]]].
  - unfold filterTransactions; now destruct (Str.isEmpty _).
  - intros t; apply matchesTerm_spec.
  - intros t; rewrite H, filter_In, matchesTerm_spec; tauto.
  - reflexivity.
  - intros view; unfold filterTransactions.
    now destruct (Str.isEmpty _).
Qed.

Example filter_food :
  filteredTransactions
    (filterTransactions "food" (loadedState [groceries; rent; salary]))
  = [groceries].
Proof. reflexivity. Qed.

(* ================================================================= *)
(** ** Deleting *)

Lemma withoutId_absent (key : Number.t) (l : list Transaction) :
  existsb (fun t => id t === key) l = false -> withoutId key l = l.
Proof.
  induction l as [|t l IH]; simpl; [reflexivity|].
  rewrite orb_false_iff; intros [-> H]; simpl; now rewrite IH.
Qed.

(** The [catch] block of the handler touches neither list. *)
Lemma deleteClick_failed_lists (s : State) :
  transactions (deleteClick_failed s) = transactions s
  /\ filteredTransactions (deleteClick_failed s) = filteredTransactions s
  /\ db (deleteClick_failed s) = db s.
Proof. repeat split. Qed.




Example delete_rent :
  let s := fst (deleteClick true (id rent) Succeeds
                  (loadedState [groceries; rent])) in
  transactions s = [groceries]
  /\ expense (totals (transactions s)) = Number.ofZ 150.
Proof. split; reflexivity. Qed.

(* ================================================================= *)
(** ** Clearing *)

(** C8, as stated, fails: when the store refuses to clear, the promise of
    [clearAllTransactions] is fulfilled, not rejected. *)
Lemma clearAllTransactions_swallows_store_error :
  let s := loadedState [groceries; rent] in
  snd (clearAllTransactionsFromDB (Fails "AbortError") s)
  = Rejected "AbortError"
  /\ ~ propagatesError (clearAllTransactions (Fails "AbortError") s).
Proof.
  cbv zeta; split; [reflexivity|].
  intros [reason H]; vm_compute in H; discriminate.
Qed.

(** C8, amended.  [clearAllTransactions] asks the store first.  When the
    database is open and the request succeeds, the store is empty and so
    are both lists, and the success notification is shown; otherwise the
    store and both lists are unchanged and the error notification is
    shown.  The error is caught inside: the promise is fulfilled either
    way. *)
Theorem clearAllTransactions_store_first (request : Request) (s : State) :
  let r := clearAllTransactions request s in
  snd r = Fulfilled
  /\ match db s, request with
     | Some records, Succeeds =>
         db (fst r) = Some []
         /\ transactions (fst r) = []
         /\ filteredTransactions (fst r) = []
         /\ notifications (fst r)
            = (notifications s
               ++ [("All transactions have been cleared.", "success")])%list
     | _, _ =>
         db (fst r) = db s
         /\ transactions (fst r) = transactions s
         /\ filteredTransactions (fst r) = filteredTransactions s
         /\ notifications (fst r)
            = (notifications s
               ++ [("Error clearing transactions. Please try again.",
                    "error")])%list
     end.
Proof.
  cbv zeta; unfold clearAllTransactions, clearAllTransactionsFromDB.
  destruct (db s) as [records|] eqn:Hdb; [destruct request|]; simpl;
    rewrite ?Hdb; repeat split.
Qed.

(* ================================================================= *)
(** ** Loading *)

Section SortFacts.

Variable A : Type.
Variable comparefn : A -> A -> option Z.

Lemma insertSorted_perm (x : A) (l : list A) :
  Permutation (x :: l) (insertSorted comparefn x l).
Proof.
  induction l as [|y l IH]; simpl; [reflexivity|].
  destruct (keepsBefore comparefn x y); [reflexivity|].
  rewrite perm_swap; now constructor.
Qed.

Lemma Array_sort_perm (l : list A) :
  Permutation l (Array_sort comparefn l).
Proof.
  induction l as [|x l IH]; simpl; [constructor|].
  rewrite <- insertSorted_perm; now constructor.
Qed.

Variable R : A -> A -> Prop.
Variable ok : A -> Prop.

(** On the elements that satisfy [ok], the comparison function decides
    the order [R] and [R] is total. *)
Hypothesis keeps_R :
  forall x y, ok x -> ok y -> keepsBefore comparefn x y = true -> R x y.
Hypothesis moves_R :
  forall x y, ok x -> ok y -> keepsBefore comparefn x y = false -> R y x.

Lemma insertSorted_HdRel (a x : A) (l : list A) :
  HdRel R a l -> R a x -> HdRel R a (insertSorted comparefn x l).
Proof.
  intros Hl Hx; destruct l as [|y l]; simpl; [now constructor|].
  destruct (keepsBefore comparefn x y); constructor; auto.
  now inversion Hl.
Qed.

Lemma insertSorted_Sorted (x : A) (l : list A) :
  ok x -> Forall ok l -> Sorted R l ->
  Sorted R (insertSorted comparefn x l).
Proof.
  intros Hx Hok Hs; induction l as [|y l IH]; simpl.
  - repeat constructor.
  - inversion Hok as [|? ? Hy Hl]; subst.
    inversion Hs as [|? ? Hs' Hhd]; subst.
    destruct (keepsBefore comparefn x y) eqn:E.
    + constructor; [assumption|]. constructor. now apply keeps_R.
    + constructor; [now apply IH|].
      apply insertSorted_HdRel; [assumption|]. now apply moves_R.
Qed.

Lemma Array_sort_Sorted (l : list A) :
  Forall ok l -> Sorted R (Array_sort comparefn l).
Proof.
  induction 1 as [|x l Hx Hl IH]; simpl; [constructor|].
  apply insertSorted_Sorted; auto.
  apply (Permutation_Forall (Array_sort_perm l) Hl).
Qed.

End SortFacts.

Section LoadFacts.

Variable timeValue : string -> option Z.

Lemma byDate_keeps (x y : Transaction) :
  validDate timeValue x -> validDate timeValue y ->
  keepsBefore (byDateDescending timeValue) x y = true ->
  notOlder timeValue x y.
Proof.
  unfold validDate, notOlder, keepsBefore, byDateDescending.
  destruct (timeValue (date x)) as [tx|], (timeValue (date y)) as [ty|];
    try congruence.
  intros _ _ H; exists tx, ty; repeat split; lia.
Qed.

Lemma byDate_moves (x y : Transaction) :
  validDate timeValue x -> validDate timeValue y ->
  keepsBefore (byDateDescending timeValue) x y = false ->
  notOlder timeValue y x.
Proof.
  unfold validDate, notOlder, keepsBefore, byDateDescending.
  destruct (timeValue (date x)) as [tx|], (timeValue (date y)) as [ty|];
    try congruence.
  intros _ _ H; exists ty, tx; repeat split; lia.
Qed.

Lemma sort_byDate_Sorted (l : list Transaction) :
  Forall (validDate timeValue) l ->
  Sorted (notOlder timeValue) (Array_sort (byDateDescending timeValue) l).
Proof.
  apply Array_sort_Sorted; [apply byDate_keeps | apply byDate_moves].
Qed.

End LoadFacts.

(** While [db] is [undefined] the store cannot be read:
    [loadTransactions] empties the lists, writes to the console and
    fulfils its promise.  [init] calls [loadTransactions] only once
    [initIndexedDB] has been fulfilled, which has assigned [db]. *)
Lemma loadTransactions_without_db (timeValue : string -> option Z)
    (request : Request) (s : State) :
  db s = None ->
  loadTransactions timeValue request s = (setLists [] [] s, Fulfilled).
Proof.
  intros H; unfold loadTransactions; now rewrite H.
Qed.

(** What each way of failing leaves behind, whatever the lists held:
    [onerror] empties both lists, an exception thrown while the request is
    issued leaves them as they were; both reject with the error. *)
Lemma loadTransactions_failures (timeValue : string -> option Z)
    (error : string) (s : State) (records : list Transaction) :
  db s = Some records ->
  loadTransactions timeValue (Fails error) s
  = (setLists [] [] s, Rejected error)
  /\ loadTransactions timeValue (Throws error) s = (s, Rejected error).
Proof.
  intros H; unfold loadTransactions; now rewrite H.
Qed.

(** The state in which [init] calls [loadTransactions]: the script has
    just been evaluated and [initIndexedDB] has been fulfilled, so [db] is
    assigned and both lists are the empty arrays they were declared
    with. *)
Lemma init_loads_from_empty_lists (upgrade : bool)
    (durable : list Transaction) :
  let r := initIndexedDB upgrade Succeeds durable initialState in
  snd r = Fulfilled
  /\ db (fst r) = Some durable
  /\ transactions (fst r) = []
  /\ filteredTransactions (fst r) = [].
Proof. destruct upgrade; repeat split. Qed.



(** The dates of the three samples are valid, so the order holds of
    them. *)
Example load_sample_dates :
  Forall (validDate sampleTimeValue) [salary; rent; groceries].
Proof. repeat constructor; discriminate. Qed.

(** A read that is refused, and one that throws, at the start of a
    session. *)
Example load_sample_failures :
  let s := setLists [] [] (loadedState [salary; rent]) in
  loadTransactions sampleTimeValue (Fails "UnknownError") s
  = (s, Rejected "UnknownError")
  /\ loadTransactions sampleTimeValue (Throws "NotFoundError") s
     = (s, Rejected "NotFoundError").
Proof. split; reflexivity. Qed.

Example load_sample_order :
  transactions
    (fst (loadTransactions sampleTimeValue Succeeds
            (setLists [] [] (loadedState [salary; rent; groceries]))))
  = [groceries; rent; salary].
Proof. reflexivity. Qed.

(* ================================================================= *)
(** ** The filtered list stays within the transaction list *)

Section ViewFacts.

Variable timeValue : string -> option Z.

Lemma withoutId_incl (key : Number.t) (view l : list Transaction) :
  incl view l -> incl (withoutId key view) (withoutId key l).
Proof.
  intros H t; unfold withoutId; rewrite !filter_In.
  intros [Hin Hk]; split; auto.
Qed.

(** The code that runs once a store request has settled keeps the
    property, whatever the state it finds. *)
Lemma addTransaction_saved_view (t : Transaction) (s : State) :
  filteredTransactions (addTransaction_saved t s)
  = transactions (addTransaction_saved t s).
Proof. reflexivity. Qed.

Lemma deleteClick_deleted_view (key : Number.t) (s : State) :
  viewWithin s -> viewWithin (deleteClick_deleted key s).
Proof. apply withoutId_incl. Qed.

Lemma clearAllTransactions_cleared_view (s : State) :
  viewWithin (clearAllTransactions_cleared s).
Proof. apply incl_refl. Qed.

Lemma loadTransactions_view (request : Request) (s : State) :
  viewWithin s -> viewWithin (fst (loadTransactions timeValue request s)).
Proof.
  unfold loadTransactions; intros H.
  destruct (db s); [destruct request|]; simpl;
    solve [exact H | apply incl_refl].
Qed.

Lemma addTransaction_view (f : Submission) (request : Request) (s : State) :
  viewWithin s -> viewWithin (fst (addTransaction f request s)).
Proof.
  unfold addTransaction, saveTransaction; intros H.
  destruct (rejectsInput f); [exact H|].
  destruct (db s); [destruct request|]; simpl;
    solve [exact H | apply incl_refl].
Qed.

Lemma deleteClick_view (confirmed : bool) (key : Number.t)
    (request : Request) (s : State) :
  viewWithin s -> viewWithin (fst (deleteClick confirmed key request s)).
Proof.
  unfold deleteClick, deleteTransaction; intros H.
  destruct confirmed; [|exact H].
  destruct (db s); [destruct request|]; simpl;
    solve [exact H | now apply withoutId_incl].
Qed.

Lemma clearAllTransactions_view (request : Request) (s : State) :
  viewWithin s -> viewWithin (fst (clearAllTransactions request s)).
Proof.
  unfold clearAllTransactions, clearAllTransactionsFromDB; intros H.
  destruct (db s); [destruct request|]; simpl;
    solve [exact H | apply incl_refl].
Qed.

Lemma filterTransactions_view (searchValue : string) (s : State) :
  viewWithin (filterTransactions searchValue s).
Proof.
  unfold filterTransactions, viewWithin.
  destruct (Str.isEmpty _); simpl; [apply incl_refl|apply incl_filter].
Qed.

Lemma handle_view (s : State) (e : Event) :
  viewWithin s -> viewWithin (handle timeValue s e).
Proof.
  intros H; destruct e as [request durable|request durable|request
                           |f request|confirmed key request|request
                           |searchValue];
    simpl.
  - destruct request; exact H.
  - destruct request; exact H.
  - now apply loadTransactions_view.
  - now apply addTransaction_view.
  - now apply deleteClick_view.
  - now apply clearAllTransactions_view.
  - apply filterTransactions_view.
Qed.

Lemma run_view (events : list Event) (s : State) :
  viewWithin s -> viewWithin (run timeValue events s).
Proof.
  revert s; induction events as [|e events IH]; intros s H; simpl; auto.
  apply IH, handle_view, H.
Qed.

End ViewFacts.

(** C10.  After any sequence of openings, loads, submissions, delete
    clicks, clears and searches, with any outcome of the store requests,
    every element of [filteredTransactions] is an element of
    [transactions]; and a submission that passes validation and whose
    write succeeds leaves the filtered list equal to the whole list, the
    new transaction first, whatever search was active. *)
Theorem filtered_within_transactions (timeValue : string -> option Z)
    (events : list Event) (f : Submission) (request : Request) :
  let s := run timeValue events initialState in
  incl (filteredTransactions s) (transactions s)
  /\ (rejectsInput f = false ->
      snd (saveTransaction (newTransaction f) request s) = Fulfilled ->
      filteredTransactions (fst (addTransaction f request s))
      = transactions (fst (addTransaction f request s))
      /\ transactions (fst (addTransaction f request s))
         = newTransaction f :: transactions s).
Proof.
  cbv zeta; split.
  - apply run_view, incl_refl.
  - intros Hv Hs; unfold addTransaction; rewrite Hv.
    unfold saveTransaction in *.
    destruct (db _); [destruct request|]; try discriminate.
    split; reflexivity.
Qed.

Lemma filtered_within_transactions_sample :
  let events := [Opened Succeeds [salary; rent; groceries];
                 Loaded Succeeds; Searched "rent"] in
  let f := submission "Coffee" (Number.ofZ (-3)) "Food" in
  let s := run sampleTimeValue events initialState in
  filteredTransactions s = [rent]
  /\ rejectsInput f = false
  /\ snd (saveTransaction (newTransaction f) Succeeds s) = Fulfilled
  /\ incl (filteredTransactions s) (transactions s)
  /\ filteredTransactions (fst (addTransaction f Succeeds s))
     = transactions (fst (addTransaction f Succeeds s))
  /\ transactions (fst (addTransaction f Succeeds s))
     = newTransaction f :: transactions s.
Proof.
  cbv zeta.
  pose proof (filtered_within_transactions sampleTimeValue
                [Opened Succeeds [salary; rent; groceries];
                 Loaded Succeeds; Searched "rent"]
                (submission "Coffee" (Number.ofZ (-3)) "Food") Succeeds)
    as H.
  cbv zeta in H; destruct H as [H1 H2].
  split; [reflexivity|]. split; [reflexivity|]. split; [reflexivity|].
  split; [exact H1|].
  exact (H2 eq_refl eq_refl).
Defined.

(* ================================================================= *)
(** ** The [categories] object *)

Module ObjectFacts.

Import JsObject.

Lemma getOwn_define_same (k : string) (v : Value) (o : t) :
  getOwn k (define k v o) = Some v.
Proof.
  induction o as [|[k' v'] o IH]; simpl.
  - now rewrite String.eqb_refl.
  - destruct (String.eqb k k') eqn:E; simpl.
    + now rewrite String.eqb_refl.
    + destruct (comesBefore k k'); simpl.
      * now rewrite String.eqb_refl.
      * now rewrite E.
Qed.

Lemma getOwn_define_other (k k' : string) (v : Value) (o : t) :
  k' <> k -> getOwn k' (define k v o) = getOwn k' o.
Proof.
  intros Hne; apply String.eqb_neq in Hne.
  induction o as [|[k2 v2] o IH]; simpl.
  - now rewrite Hne.
  - destruct (String.eqb k k2) eqn:E; simpl.
    + apply String.eqb_eq in E; subst k2. now rewrite Hne.
    + destruct (comesBefore k k2); simpl.
      * now rewrite Hne.
      * now rewrite IH.
Qed.

Lemma define_define (k : string) (v0 v : Value) (o : t) :
  define k v (define k v0 o) = define k v o.
Proof.
  induction o as [|[k' v'] o IH]; simpl.
  - now rewrite String.eqb_refl.
  - destruct (String.eqb k k') eqn:E; simpl.
    + now rewrite String.eqb_refl.
    + destruct (comesBefore k k') eqn:B; simpl.
      * now rewrite String.eqb_refl.
      * now rewrite E, B, IH.
Qed.

Lemma define_keys (k : string) (v : Value) (o : t) :
  map fst (define k v o) = insertKey k (map fst o).
Proof.
  induction o as [|[k' v'] o IH]; simpl; [reflexivity|].
  destruct (String.eqb k k') eqn:E; simpl.
  - apply String.eqb_eq in E; now subst.
  - destruct (comesBefore k k'); simpl; [reflexivity|now rewrite IH].
Qed.

Lemma getOwn_In (k : string) (v : Value) (o : t) :
  getOwn k o = Some v -> In (k, v) o.
Proof.
  induction o as [|[k' v'] o IH]; simpl; [discriminate|].
  destruct (String.eqb k k') eqn:E.
  - apply String.eqb_eq in E; subst; intros [= ->]; now left.
  - intros H; right; auto.
Qed.

Lemma getOwn_None (k : string) (o : t) :
  getOwn k o = None -> ~ In k (map fst o).
Proof.
  induction o as [|[k' v'] o IH]; simpl; [tauto|].
  destruct (String.eqb k k') eqn:E; [discriminate|].
  apply String.eqb_neq in E; intros H [H'|H']; [congruence|now apply IH].
Qed.

Lemma proto_inherited : inherited "__proto__" = true.
Proof. reflexivity. Qed.

End ObjectFacts.

Section GroupingFacts.

Import JsObject ObjectFacts NumberFacts.

Lemma groupStep_proto (o : JsObject.t) (t : Transaction) :
  category t = "__proto__" -> groupStep o t = o.
Proof.
  intros H; unfold groupStep, set; rewrite H; simpl.
  now destruct (negb _).
Qed.

Lemma groupStep_define (o : JsObject.t) (t : Transaction) :
  category t <> "__proto__" ->
  groupStep o t = define (category t) (nextValue o t) o.
Proof.
  intros H; apply String.eqb_neq in H.
  unfold groupStep, nextValue, set, absAmount; rewrite H.
  destruct (toBoolean (get o (category t))); simpl; [reflexivity|].
  unfold get at 1; rewrite getOwn_define_same.
  apply define_define.
Qed.

Lemma nextValue_tidy (o : JsObject.t) (t : Transaction) :
  tidy o -> inherited (category t) = false -> numericAmount t ->
  nextValue o t = VNumber (held (category t) o + absAmount t)
  /\ Number.positive0 (held (category t) o + absAmount t).
Proof.
  intros Ho Hc Ht; unfold nextValue, held, get; rewrite Hc.
  pose proof (abs_positive0 _ Ht) as Ha; fold (absAmount t) in Ha.
  destruct (getOwn (category t) o) as [v|] eqn:E.
  - destruct (Ho _ _ Hc E) as [x [-> Hx]]; simpl.
    split; [|now apply add_positive0].
    destruct (Number.toBoolean x) eqn:B; [reflexivity|].
    now rewrite (positive0_falsy _ Hx B).
  - split; [reflexivity|].
    apply add_positive0; [exact I|exact Ha].
Qed.

Lemma not_inherited_not_proto (c : string) :
  inherited c = false -> c <> "__proto__".
Proof. intros H ->; discriminate. Qed.

Lemma groupStep_same (o : JsObject.t) (t : Transaction) :
  tidy o -> inherited (category t) = false -> numericAmount t ->
  getOwn (category t) (groupStep o t)
  = Some (VNumber (held (category t) o + absAmount t)).
Proof.
  intros Ho Hc Ht.
  rewrite groupStep_define by now apply not_inherited_not_proto.
  rewrite getOwn_define_same.
  now destruct (nextValue_tidy Ho Hc Ht) as [-> _].
Qed.

Lemma groupStep_other (o : JsObject.t) (t : Transaction) (c : string) :
  c <> category t -> getOwn c (groupStep o t) = getOwn c o.
Proof.
  intros Hne.
  destruct (String.eqb (category t) "__proto__") eqn:E.
  - apply String.eqb_eq in E; now rewrite groupStep_proto.
  - apply String.eqb_neq in E; rewrite groupStep_define by assumption.
    now apply getOwn_define_other.
Qed.

Lemma groupStep_tidy (o : JsObject.t) (t : Transaction) :
  tidy o -> numericAmount t -> tidy (groupStep o t).
Proof.
  intros Ho Ht c v Hc.
  destruct (String.eqb c (category t)) eqn:E.
  - apply String.eqb_eq in E; subst c.
    rewrite (groupStep_same Ho Hc Ht); intros [= <-].
    eexists; split; [reflexivity|].
    now destruct (nextValue_tidy Ho Hc Ht).
  - apply String.eqb_neq in E; rewrite (groupStep_other _ _ E).
    now apply Ho.
Qed.

(** After the loop, a category that is not a name on the prototype holds
    the running sum of its transactions, started from what it held. *)
Lemma grouped_value (l : list Transaction) (o : JsObject.t) (c : string) :
  tidy o -> Forall numericAmount l -> inherited c = false ->
  getOwn c (fold_left groupStep l o)
  = if existsb (hasCategory c) l
    then Some (VNumber (sumFrom (held c o)
                          (map absAmount (filter (hasCategory c) l))))
    else getOwn c o.
Proof.
  intros Ho Hl Hc; revert o Ho.
  induction Hl as [|t l Ht Hl IH]; intros o Ho; simpl; [reflexivity|].
  rewrite (IH _ (groupStep_tidy Ho Ht)).
  destruct (hasCategory c t) eqn:E; simpl.
  - unfold hasCategory in E; apply String.eqb_eq in E; subst c.
    assert (Hh : held (category t) (groupStep o t)
                 = held (category t) o + absAmount t).
    { unfold held at 1; now rewrite (groupStep_same Ho Hc Ht). }
    destruct (existsb (hasCategory (category t)) l) eqn:X.
    + now rewrite Hh.
    + rewrite (groupStep_same Ho Hc Ht).
      assert (Hf : filter (hasCategory (category t)) l = []).
      { clear -X. induction l as [|a l IH]; simpl in *; [reflexivity|].
        apply orb_false_iff in X as [-> X]; auto. }
      now rewrite Hf.
  - unfold hasCategory in E; apply String.eqb_neq in E.
    assert (Hne : c <> category t) by congruence.
    unfold held; now rewrite (groupStep_other _ _ Hne).
Qed.

End GroupingFacts.

(* ================================================================= *)
(** ** The order of the keys *)

Section KeyOrder.

Import JsObject ObjectFacts.

Lemma comesBefore_name (k k' : string) :
  isIndexKey k = false -> comesBefore k k' = false.
Proof.
  unfold isIndexKey, comesBefore.
  destruct (arrayIndex k); [discriminate|reflexivity].
Qed.

Lemma comesBefore_index_name (k k' : string) :
  isIndexKey k = true -> isIndexKey k' = false -> comesBefore k k' = true.
Proof.
  unfold isIndexKey, comesBefore.
  destruct (arrayIndex k); [|discriminate].
  destruct (arrayIndex k'); [discriminate|reflexivity].
Qed.

Lemma index_name_differ (k k' : string) :
  isIndexKey k = true -> isIndexKey k' = false -> String.eqb k k' = false.
Proof.
  intros H H'; apply String.eqb_neq; intros ->; congruence.
Qed.

Lemma insertKey_In (k x : string) (keys : list string) :
  In x (insertKey k keys) <-> x = k \/ In x keys.
Proof.
  induction keys as [|k' keys IH]; simpl; [intuition|].
  destruct (String.eqb k k') eqn:E.
  - apply String.eqb_eq in E; subst; simpl; intuition.
  - destruct (comesBefore k k'); simpl; [intuition|].
    rewrite IH; intuition.
Qed.

Lemma insertKey_names (k : string) (names : list string) :
  isIndexKey k = false ->
  insertKey k names
  = if existsb (String.eqb k) names then names else (names ++ [k])%list.
Proof.
  intros Hk; induction names as [|k' names IH]; simpl; [reflexivity|].
  destruct (String.eqb k k'); simpl; [reflexivity|].
  rewrite (comesBefore_name k k' Hk), IH.
  now destruct (existsb _ names).
Qed.

Lemma insertKey_before_names (k : string) (indices names : list string) :
  isIndexKey k = true ->
  Forall (fun c => isIndexKey c = false) names ->
  insertKey k (indices ++ names) = (insertKey k indices ++ names)%list.
Proof.
  intros Hk Hn; induction indices as [|k' indices IH]; simpl.
  - destruct Hn as [|k' names Hk' _]; simpl; [reflexivity|].
    now rewrite (index_name_differ k k' Hk Hk'),
      (comesBefore_index_name k k' Hk Hk').
  - destruct (String.eqb k k'); [reflexivity|].
    destruct (comesBefore k k'); [reflexivity|now rewrite IH].
Qed.

Lemma insertKey_after_indices (k : string) (indices names : list string) :
  isIndexKey k = false ->
  Forall (fun c => isIndexKey c = true) indices ->
  insertKey k (indices ++ names) = (indices ++ insertKey k names)%list.
Proof.
  intros Hk Hi; induction Hi as [|k' indices Hk' _ IH]; simpl; [reflexivity|].
  assert (E : String.eqb k k' = false).
  { rewrite String.eqb_sym; now apply index_name_differ. }
  now rewrite E, (comesBefore_name k k' Hk), IH.
Qed.

Lemma insertKey_indices (k : string) (indices : list string) :
  isIndexKey k = true ->
  Forall (fun c => isIndexKey c = true) indices ->
  Forall (fun c => isIndexKey c = true) (insertKey k indices).
Proof.
  intros Hk Hi; apply Forall_forall; intros x Hx.
  apply insertKey_In in Hx as [->|Hx]; [assumption|].
  now apply (proj1 (Forall_forall _ _) Hi).
Qed.

Lemma indexLe_trans (a b c : string) :
  indexLe a b -> indexLe b c -> indexLe a c.
Proof.
  unfold indexLe.
  destruct (arrayIndex a), (arrayIndex b), (arrayIndex c); try tauto; lia.
Qed.

Lemma not_before_indexLe (k k' : string) :
  isIndexKey k = true -> isIndexKey k' = true ->
  comesBefore k k' = false -> indexLe k' k.
Proof.
  unfold isIndexKey, comesBefore, indexLe.
  destruct (arrayIndex k), (arrayIndex k'); try discriminate.
  intros _ _ H; apply N.ltb_ge in H; exact H.
Qed.

Lemma before_indexLe (k k' : string) :
  isIndexKey k' = true -> comesBefore k k' = true -> indexLe k k'.
Proof.
  unfold isIndexKey, comesBefore, indexLe.
  destruct (arrayIndex k), (arrayIndex k'); try discriminate.
  intros _ H; apply N.ltb_lt in H; lia.
Qed.

Lemma before_not_indexLe (k k' : string) :
  comesBefore k k' = true -> ~ indexLe k' k.
Proof.
  unfold comesBefore, indexLe.
  destruct (arrayIndex k), (arrayIndex k'); try discriminate; try tauto.
  intros H; apply N.ltb_lt in H; lia.
Qed.

Lemma insertKey_sorted (k : string) (indices : list string) :
  isIndexKey k = true ->
  Forall (fun c => isIndexKey c = true) indices ->
  StronglySorted indexLe indices ->
  StronglySorted indexLe (insertKey k indices).
Proof.
  intros Hk Hi Hs; induction Hs as [|k' indices Hs IH Hall]; simpl.
  - repeat constructor.
  - inversion Hi as [|? ? Hk' Hi']; subst.
    destruct (String.eqb k k'); [now constructor|].
    destruct (comesBefore k k') eqn:B.
    + constructor; [now constructor|].
      pose proof (before_indexLe k k' Hk' B) as Hle.
      constructor; [assumption|].
      eapply Forall_impl; [|exact Hall].
      intros x; now apply indexLe_trans.
    + constructor; [now apply IH|].
      apply Forall_forall; intros x Hx.
      apply insertKey_In in Hx as [->|Hx].
      * now apply not_before_indexLe.
      * now apply (proj1 (Forall_forall _ _) Hall).
Qed.

Lemma insertKey_NoDup (k : string) (indices : list string) :
  StronglySorted indexLe indices -> NoDup indices ->
  NoDup (insertKey k indices).
Proof.
  intros Hs; induction Hs as [|k' indices Hs IH Hall]; intros Hnd; simpl.
  - repeat constructor; intros [].
  - inversion Hnd as [|? ? Hk' Hnd']; subst.
    destruct (String.eqb k k') eqn:E; [assumption|].
    apply String.eqb_neq in E.
    destruct (comesBefore k k') eqn:B.
    + constructor; [|assumption].
      intros [H|H]; [congruence|].
      apply (before_not_indexLe k k' B).
      now apply (proj1 (Forall_forall _ _) Hall).
    + constructor; [|now apply IH].
      intros H; apply insertKey_In in H as [H|H]; [congruence|contradiction].
Qed.

(** [firstOccurrences] *)

Lemma firstOccurrences_In (x : string) (l : list string) :
  In x (firstOccurrences l) <-> In x l.
Proof.
  induction l as [|k l IH]; simpl; [tauto|].
  rewrite filter_In, IH, negb_true_iff, String.eqb_neq.
  destruct (String.eqb_spec k x); intuition.
Qed.

Lemma firstOccurrences_NoDup (l : list string) : NoDup (firstOccurrences l).
Proof.
  induction l as [|k l IH]; simpl; constructor.
  - rewrite filter_In, negb_true_iff, String.eqb_neq; tauto.
  - now apply NoDup_filter.
Qed.

Lemma existsb_eqb_In (c : string) (l : list string) :
  existsb (String.eqb c) l = true <-> In c l.
Proof.
  rewrite existsb_exists; split.
  - intros [x [Hx E]]; apply String.eqb_eq in E; now subst.
  - intros H; exists c; now rewrite String.eqb_refl.
Qed.

Lemma firstOccurrences_snoc (c : string) (l : list string) :
  firstOccurrences (l ++ [c])
  = if existsb (String.eqb c) l then firstOccurrences l
    else (firstOccurrences l ++ [c])%list.
Proof.
  induction l as [|k l IH]; simpl; [reflexivity|].
  rewrite IH.
  destruct (String.eqb c k) eqn:E; simpl.
  - destruct (existsb _ l); [reflexivity|].
    now rewrite filter_app; simpl; rewrite E; simpl; rewrite app_nil_r.
  - destruct (existsb _ l); [reflexivity|].
    now rewrite filter_app; simpl; rewrite E.
Qed.

End KeyOrder.

Section SummaryFacts.

Import JsObject ObjectFacts NumberFacts.

Lemma grouped_keys (l : list Transaction) (o : JsObject.t) :
  map fst (fold_left groupStep l o)
  = keysAfter (filter notProto (map category l)) (map fst o).
Proof.
  revert o; induction l as [|t l IH]; intros o; simpl; [reflexivity|].
  rewrite IH; unfold notProto at 2.
  destruct (String.eqb (category t) "__proto__") eqn:E; simpl.
  - apply String.eqb_eq in E; now rewrite groupStep_proto.
  - apply String.eqb_neq in E.
    now rewrite groupStep_define, define_keys.
Qed.

Lemma keysAfter_snoc (cs : list string) (c : string) (keys : list string) :
  keysAfter (cs ++ [c]) keys = insertKey c (keysAfter cs keys).
Proof. unfold keysAfter; now rewrite fold_left_app. Qed.

Lemma keysAfter_indices (cs : list string) :
  Forall (fun c => isIndexKey c = true) cs ->
  Forall (fun c => isIndexKey c = true) (keysAfter cs [])
  /\ StronglySorted indexLe (keysAfter cs [])
  /\ NoDup (keysAfter cs [])
  /\ forall c, In c (keysAfter cs []) <-> In c cs.
Proof.
  induction cs as [|c cs IH] using rev_ind; intros H.
  - repeat split; try constructor; auto.
  - apply Forall_app in H as [Hcs Hc]; inversion Hc as [|? ? Hc' _]; subst.
    destruct (IH Hcs) as [Hi [Hs [Hn He]]].
    rewrite keysAfter_snoc; repeat split.
    + now apply insertKey_indices.
    + now apply insertKey_sorted.
    + now apply insertKey_NoDup.
    + rewrite insertKey_In, He, in_app_iff; simpl; intuition.
    + rewrite insertKey_In, He, in_app_iff; simpl; intuition.
Qed.

Lemma filter_index_Forall (cs : list string) :
  Forall (fun c => isIndexKey c = true) (filter isIndexKey cs).
Proof. apply Forall_forall; intros c H; now apply filter_In in H. Qed.

(** Array indices first, then the other names by first occurrence. *)
Lemma keysAfter_split (cs : list string) :
  keysAfter cs []
  = (keysAfter (filter isIndexKey cs) []
     ++ firstOccurrences (filter isPlainKey cs))%list.
Proof.
  induction cs as [|c cs IH] using rev_ind; [reflexivity|].
  rewrite keysAfter_snoc, IH, !filter_app; simpl; unfold isPlainKey at 3.
  destruct (isIndexKey c) eqn:E; simpl.
  - rewrite keysAfter_snoc, !app_nil_r.
    apply insertKey_before_names; [assumption|].
    apply Forall_forall; intros x Hx.
    apply firstOccurrences_In, filter_In in Hx as [_ Hx].
    now apply negb_true_iff in Hx.
  - rewrite app_nil_r, firstOccurrences_snoc.
    rewrite insertKey_after_indices; [|assumption|].
    + f_equal; rewrite insertKey_names by assumption.
      destruct (existsb (String.eqb c) (firstOccurrences _)) eqn:X;
        destruct (existsb (String.eqb c) (filter _ cs)) eqn:Y;
        try reflexivity.
      * rewrite existsb_eqb_In, firstOccurrences_In, <- existsb_eqb_In in X.
        congruence.
      * rewrite existsb_eqb_In, <- firstOccurrences_In, <- existsb_eqb_In in Y.
        congruence.
    + destruct (keysAfter_indices (filter_index_Forall cs)) as [H _]; exact H.
Qed.

Lemma filter_index_notProto (cs : list string) :
  filter isIndexKey (filter notProto cs) = filter isIndexKey cs.
Proof.
  induction cs as [|c cs IH]; simpl; [reflexivity|].
  unfold notProto at 1.
  destruct (String.eqb c "__proto__") eqn:E; simpl.
  - apply String.eqb_eq in E; subst c; exact IH.
  - now rewrite IH.
Qed.

Lemma filter_plain_notProto (cs : list string) :
  filter isPlainKey (filter notProto cs) = filter isNameKey cs.
Proof.
  induction cs as [|c cs IH]; simpl; [reflexivity|].
  unfold notProto at 1, isNameKey at 1.
  destruct (String.eqb c "__proto__") eqn:E; simpl.
  - rewrite andb_false_r; exact IH.
  - rewrite andb_true_r; fold (isPlainKey c).
    destruct (isPlainKey c); now rewrite IH.
Qed.

Lemma totalExpensesOf_sum (l : list Transaction) :
  totalExpensesOf l = sum (map absAmount l).
Proof.
  unfold totalExpensesOf, sum, sumFrom; generalize Number.zero.
  induction l as [|t l IH]; intros start; simpl; [reflexivity|apply IH].
Qed.

Lemma summary_bars (s : State) :
  updateSpendingSummary s
  = map (barOf (totalExpensesOf (filter isExpense (transactions s))))
      (fold_left groupStep (filter isExpense (transactions s)) JsObject.empty).
Proof.
  unfold updateSpendingSummary.
  destruct (filter isExpense (transactions s)); reflexivity.
Qed.

Lemma strictEq_zero_not_gtb (x : Number.t) :
  (x === Number.zero) = true -> (x >? Number.zero) = false.
Proof. destruct x as [[]|[]| |[] m e]; simpl; auto; discriminate. Qed.

Lemma tidy_empty : tidy JsObject.empty.
Proof. intros c v _ H; discriminate. Qed.

End SummaryFacts.

(* ================================================================= *)
(** ** The spending summary *)

Section SummaryTheorem.

Import JsObject ObjectFacts NumberFacts.

(** The categories of the bars, from the categories of the expenses:
    array indices first, then the other names by first occurrence. *)
Lemma summary_keys (s : State) :
  map barCategory (updateSpendingSummary s)
  = (keysAfter
       (filter isIndexKey (map category (filter isExpense (transactions s))))
       []
     ++ firstOccurrences
          (filter isNameKey
             (map category (filter isExpense (transactions s)))))%list.
Proof.
  rewrite summary_bars, map_map; simpl.
  change (map (fun x : string * Value => fst x) ?o) with (map fst o).
  rewrite grouped_keys; simpl.
  now rewrite keysAfter_split, filter_index_notProto, filter_plain_notProto.
Qed.

Lemma index_not_name (c : string) (l : list string) :
  isIndexKey c = true -> ~ In c (firstOccurrences (filter isNameKey l)).
Proof.
  intros Hc H; apply firstOccurrences_In, filter_In in H as [_ H].
  unfold isNameKey in H; rewrite Hc in H; discriminate.
Qed.

End SummaryTheorem.

(* ================================================================= *)
(** ** Rounding errors of binary64 arithmetic *)

(** The operations of [SpecFloat] round to nearest, ties to even.  What
    follows derives, from their definitions, the one fact the summary
    needs: a sum, a product or a quotient of positive normal numbers that
    neither overflows nor falls below the normal range is within the
    relative distance [Number.EPSILON] of the exact result. *)

Section RoundingError.

Import Exact.

Local Open Scope Z_scope.

(** A mantissa of [d] binary digits lies between [2^(d-1)] and [2^d]. *)
Lemma digits2_pos_bounds (p : positive) :
  2 ^ (Zpos (digits2_pos p) - 1) <= Zpos p < 2 ^ Zpos (digits2_pos p).
Proof.
  induction p as [p IH|p IH|]; simpl digits2_pos.
  - rewrite Pos2Z.inj_succ.
    replace (Z.succ (Zpos (digits2_pos p)) - 1)
      with (Z.succ (Zpos (digits2_pos p) - 1)) by lia.
    rewrite !Z.pow_succ_r by lia. lia.
  - rewrite Pos2Z.inj_succ.
    replace (Z.succ (Zpos (digits2_pos p)) - 1)
      with (Z.succ (Zpos (digits2_pos p) - 1)) by lia.
    rewrite !Z.pow_succ_r by lia. lia.
  - simpl. lia.
Qed.

Lemma digits2_pos_unique (p : positive) (k : Z) :
  2 ^ (k - 1) <= Zpos p < 2 ^ k -> Zpos (digits2_pos p) = k.
Proof.
  intros [Hl Hu].
  pose proof (digits2_pos_bounds p) as [Bl Bu].
  assert (0 < k).
  { destruct (Z.ltb_spec 0 k); auto.
    assert (2 ^ k <= 2 ^ 0) by (apply Z.pow_le_mono_r; lia).
    simpl in *. lia. }
  destruct (Z.lt_trichotomy (Zpos (digits2_pos p)) k) as [L|[E|G]]; auto.
  - assert (2 ^ Zpos (digits2_pos p) <= 2 ^ (k - 1))
      by (apply Z.pow_le_mono_r; lia).
    lia.
  - assert (2 ^ k <= 2 ^ (Zpos (digits2_pos p) - 1))
      by (apply Z.pow_le_mono_r; lia).
    lia.
Qed.

(** Shifting the mantissa right by [n] bits divides it by [2^n]. *)
Lemma shr_1_m (mrs : shr_record) :
  0 <= shr_m mrs -> shr_m (shr_1 mrs) = shr_m mrs / 2.
Proof.
  destruct mrs as [m r s]; simpl.
  destruct m as [|[p|p|]|[p|p|]]; simpl; intros H; try lia; try reflexivity.
  - rewrite Pos2Z.inj_xI. apply Z.div_unique with 1; lia.
  - rewrite Pos2Z.inj_xO. apply Z.div_unique with 0; lia.
Qed.

Lemma iter_pos_nat (A : Type) (f : A -> A) (p : positive) (x : A) :
  SpecFloat.iter_pos f p x = Nat.iter (Pos.to_nat p) f x.
Proof.
  revert x; induction p as [p IH|p IH|]; intros x; simpl SpecFloat.iter_pos.
  - rewrite !IH, Pos2Nat.inj_xI.
    change (S (2 * Pos.to_nat p))%nat with (1 + (2 * Pos.to_nat p))%nat.
    replace (1 + 2 * Pos.to_nat p)%nat
      with (Pos.to_nat p + (Pos.to_nat p + 1))%nat by lia.
    rewrite !Nat.iter_add. simpl. reflexivity.
  - rewrite !IH, Pos2Nat.inj_xO.
    replace (2 * Pos.to_nat p)%nat
      with (Pos.to_nat p + Pos.to_nat p)%nat by lia.
    now rewrite Nat.iter_add.
  - reflexivity.
Qed.

Lemma iter_shr_1_m (n : nat) (mrs : shr_record) :
  0 <= shr_m mrs ->
  shr_m (Nat.iter n shr_1 mrs) = shr_m mrs / 2 ^ Z.of_nat n.
Proof.
  intros H; induction n as [|n IH].
  - simpl. now rewrite Z.div_1_r.
  - rewrite Nat2Z.inj_succ, Z.pow_succ_r by lia.
    simpl Nat.iter. rewrite shr_1_m.
    + rewrite IH, Z.div_div by lia. f_equal; lia.
    + rewrite IH. apply Z.div_pos; lia.
Qed.

Lemma shr_m_shift (m : Z) (l : location) (e n : Z) :
  0 <= m -> 0 <= n ->
  shr_m (fst (shr (shr_record_of_loc m l) e n)) = m / 2 ^ n
  /\ snd (shr (shr_record_of_loc m l) e n) = e + n.
Proof.
  intros Hm Hn.
  assert (Hr : shr_m (shr_record_of_loc m l) = m)
    by (destruct l as [|[]]; reflexivity).
  destruct n as [|p|p]; simpl; try lia.
  - rewrite Hr, Z.div_1_r. split; [reflexivity|lia].
  - rewrite iter_pos_nat, iter_shr_1_m, Hr by (rewrite Hr; exact Hm).
    now rewrite positive_nat_Z.
Qed.

Lemma round_nearest_even_range (m : Z) (l : location) :
  round_nearest_even m l = m \/ round_nearest_even m l = m + 1.
Proof.
  destruct l as [|[]]; simpl; auto.
  destruct (Z.even m); auto.
Qed.

Lemma fexp_normal (x : Z) : -1074 <= x - 53 -> fexp 53 1024 x = x - 53.
Proof. unfold fexp, emin; lia. Qed.

Lemma div_pow2_bounds (m n k : Z) :
  0 <= n -> 0 <= k -> 2 ^ (n + k) <= m < 2 ^ (n + k + 1) ->
  2 ^ k <= m / 2 ^ n < 2 ^ (k + 1).
Proof.
  intros Hn Hk [Hl Hu].
  assert (P : 0 < 2 ^ n) by (apply Z.pow_pos_nonneg; lia).
  rewrite Z.pow_add_r in Hl by lia.
  replace (n + k + 1) with (n + (k + 1)) in Hu by lia.
  rewrite Z.pow_add_r in Hu by lia.
  split.
  - apply Z.div_le_lower_bound; lia.
  - apply Z.div_lt_upper_bound; lia.
Qed.

Lemma div_pow2_sandwich (m n : Z) :
  0 <= m -> 0 <= n ->
  (m / 2 ^ n) * 2 ^ n <= m < (m / 2 ^ n + 1) * 2 ^ n.
Proof.
  intros Hm Hn.
  assert (P : 0 < 2 ^ n) by (apply Z.pow_pos_nonneg; lia).
  pose proof (Z.div_mod m (2 ^ n) ltac:(lia)) as E.
  pose proof (Z.mod_pos_bound m (2 ^ n) P) as B.
  nia.
Qed.

(** Rounding a mantissa [m] of at least 53 bits at exponent [e], in the
    normal range: the result is infinite, or it has a mantissa [m3] of
    exactly 53 bits at an exponent [e3 >= e], and [m] lies between
    [(m3 - 1) * 2^(e3 - e)] and [(m3 + 1) * 2^(e3 - e)], whatever the
    position of the discarded bits says. *)
Lemma binary_round_aux_normal (sx : bool) (m : positive) (e : Z)
    (l : location) :
  53 <= Zpos (digits2_pos m) ->
  -1074 <= Zpos (digits2_pos m) + e - 53 ->
  exists (m3 : positive) (e3 : Z),
    binary_round_aux 53 1024 sx (Zpos m) e l
    = (if e3 <=? 971 then S754_finite sx m3 e3 else S754_infinity sx)
    /\ 2 ^ 52 <= Zpos m3 < 2 ^ 53
    /\ e <= e3 /\ -1074 <= e3
    /\ (Zpos m3 - 1) * 2 ^ (e3 - e) <= Zpos m
    /\ Zpos m + 1 <= (Zpos m3 + 1) * 2 ^ (e3 - e).
Proof.
  intros Hd He.
  set (d := Zpos (digits2_pos m)) in *.
  set (n := d - 53).
  assert (Hn : 0 <= n) by (unfold n; lia).
  pose proof (digits2_pos_bounds m) as Bm; fold d in Bm.
  assert (B1 : 2 ^ 52 <= Zpos m / 2 ^ n < 2 ^ (52 + 1)).
  { apply div_pow2_bounds; try lia.
    replace (n + 52) with (d - 1) by (unfold n; lia).
    replace (d - 1 + 1) with d by lia. exact Bm. }
  pose proof (@div_pow2_sandwich (Zpos m) n ltac:(lia) Hn) as S1.
  set (m1 := Zpos m / 2 ^ n) in *.
  unfold binary_round_aux, shr_fexp.
  change (Zdigits2 (Zpos m)) with d.
  rewrite (fexp_normal (d + e)) by lia.
  replace (d + e - 53 - e) with n by (unfold n; lia).
  destruct (@shr_m_shift (Zpos m) l e n ltac:(lia) Hn) as [Hm1 He1].
  destruct (shr (shr_record_of_loc (Zpos m) l) e n) as [mrs' e'].
  simpl in Hm1, He1. fold m1 in Hm1. subst e'.
  set (m2 := round_nearest_even (shr_m mrs') (loc_of_shr_record mrs')).
  assert (H2 : m2 = m1 \/ m2 = m1 + 1).
  { unfold m2; rewrite <- Hm1; apply round_nearest_even_range. }
  assert (P2 : 0 < m2) by (change (2 ^ 52) with 4503599627370496 in B1; lia).
  destruct m2 as [|q|q] eqn:Eq2; try lia.
  destruct (Z.ltb_spec (Zpos q) (2 ^ 53)) as [Lt|Ge].
  - (* no carry *)
    assert (Dq : Zpos (digits2_pos q) = 53).
    { apply digits2_pos_unique. change (53 - 1) with 52. lia. }
    change (Zdigits2 (Zpos q)) with (Zpos (digits2_pos q)).
    rewrite Dq, (fexp_normal (53 + (e + n))) by (unfold n; lia).
    replace (53 + (e + n) - 53 - (e + n)) with 0 by lia.
    simpl shr. simpl shr_m.
    exists q, (e + n).
    replace (e + n - e) with n by lia.
    split; [reflexivity|].
    split; [lia|]. split; [lia|]. split; [unfold n; lia|].
    split; nia.
  - (* the rounding carries into the next binade *)
    assert (Eq : Zpos q = 2 ^ 53) by (change (52 + 1) with 53 in B1; lia).
    assert (Dq : Zpos (digits2_pos q) = 54).
    { apply digits2_pos_unique. rewrite Eq. change (54 - 1) with 53.
      split; [lia|]. apply Z.pow_lt_mono_r; lia. }
    change (Zdigits2 (Zpos q)) with (Zpos (digits2_pos q)).
    rewrite Dq, (fexp_normal (54 + (e + n))) by (unfold n; lia).
    replace (54 + (e + n) - 53 - (e + n)) with 1 by lia.
    destruct (@shr_m_shift (Zpos q) loc_Exact (e + n) 1 ltac:(lia) ltac:(lia))
      as [Hm3 He3].
    destruct (shr (shr_record_of_loc (Zpos q) loc_Exact) (e + n) 1)
      as [mrs'' e''].
    simpl in Hm3, He3. subst e''.
    rewrite Hm3, Eq.
    change (2 ^ 53 / 2 ^ 1) with (Zpos 4503599627370496).
    exists 4503599627370496%positive, (e + n + 1).
    replace (e + n + 1 - e) with (n + 1) by lia.
    rewrite Z.pow_add_r by lia. change (2 ^ 1) with 2.
    split; [reflexivity|].
    split; [split; [reflexivity|reflexivity]|].
    split; [lia|]. split; [unfold n; lia|].
    change (52 + 1) with 53 in B1.
    change (2 ^ 53) with 9007199254740992 in *.
    split; nia.
Qed.

Lemma pow2_pos (e : Z) : (0 < 2 ^ e)%Q.
Proof. apply Qpower_0_lt; reflexivity. Qed.

Lemma pow2_add (a b : Z) : (2 ^ (a + b) == 2 ^ a * 2 ^ b)%Q.
Proof. apply Qpower_plus; discriminate. Qed.

Lemma pow2_inject (k : Z) : 0 <= k -> (inject_Z (2 ^ k) == 2 ^ k)%Q.
Proof. intros H; now rewrite Zpower_Qpower. Qed.

Lemma EPSILON_pos : (0 < EPSILON)%Q.
Proof. apply pow2_pos. Qed.

Lemma EPSILON_lt_1 : (EPSILON < 1)%Q.
Proof. reflexivity. Qed.

Lemma EPSILON_mantissa (m : Z) :
  2 ^ 52 <= m -> (1 <= EPSILON * inject_Z m)%Q.
Proof.
  intros H.
  assert (E : (EPSILON * inject_Z (2 ^ 52) == 1)%Q) by reflexivity.
  rewrite <- E.
  apply Qmult_le_l; [apply EPSILON_pos|].
  now rewrite <- Zle_Qle.
Qed.

(** A value [v] between [M * 2^e] and [(M + 1) * 2^e], rounded to
    [m3 * 2^e3] with a full mantissa, is within the relative distance
    [EPSILON] of the result. *)
Lemma rounded_within (m3 e3 M e : Z) (v : Q) :
  2 ^ 52 <= m3 -> e <= e3 ->
  (m3 - 1) * 2 ^ (e3 - e) <= M ->
  M + 1 <= (m3 + 1) * 2 ^ (e3 - e) ->
  (inject_Z M * 2 ^ e <= v)%Q ->
  (v <= inject_Z (M + 1) * 2 ^ e)%Q ->
  ((1 - EPSILON) * (inject_Z m3 * 2 ^ e3) <= v
   /\ v <= (1 + EPSILON) * (inject_Z m3 * 2 ^ e3))%Q.
Proof.
  intros Hm He Hl Hu Vl Vu.
  assert (E3 : (2 ^ e3 == inject_Z (2 ^ (e3 - e)) * 2 ^ e)%Q).
  { rewrite pow2_inject by lia. rewrite <- pow2_add.
    now replace (e3 - e + e) with e3 by lia. }
  pose proof (pow2_pos e) as Pe.
  pose proof (pow2_pos e3) as Pe3.
  pose proof (EPSILON_mantissa Hm) as Hu1.
  replace (m3 - 1) with (m3 + (-1)) in Hl by lia.
  rewrite Zle_Qle in Hl, Hu.
  rewrite inject_Z_mult in Hl, Hu.
  rewrite inject_Z_plus in Hl.
  repeat rewrite inject_Z_plus in Hu.
  change (inject_Z (-1)) with (-1)%Q in Hl.
  change (inject_Z 1) with 1%Q in Hu.
  rewrite inject_Z_plus in Vu. change (inject_Z 1) with 1%Q in Vu.
  set (K := inject_Z (2 ^ (e3 - e))) in *.
  set (P := (2 ^ e)%Q) in *.
  set (U := (2 ^ e3)%Q) in *.
  set (a := inject_Z m3) in *.
  set (b := inject_Z M) in *.
  assert (L1 : ((a - 1) * U <= b * P)%Q).
  { rewrite E3. 
    assert (X : ((a + -1) * K * P <= b * P)%Q)
      by (apply Qmult_le_compat_r; [exact Hl|apply Qlt_le_weak, Pe]).
    lra. }
  assert (L2 : ((b + 1) * P <= (a + 1) * U)%Q).
  { rewrite E3.
    assert (X : ((b + 1) * P <= (a + 1) * K * P)%Q)
      by (apply Qmult_le_compat_r; [exact Hu|apply Qlt_le_weak, Pe]).
    lra. }
  assert (L3 : (U <= EPSILON * a * U)%Q).
  { assert (X : (1 * U <= EPSILON * a * U)%Q)
      by (apply Qmult_le_compat_r; [exact Hu1|apply Qlt_le_weak, Pe3]).
    lra. }
  split; lra.
Qed.

(** Aligning two mantissas on the smaller exponent keeps their values. *)
Lemma iter_xO (m d : positive) :
  Zpos (Pos.iter xO m d) = Zpos m * 2 ^ Zpos d.
Proof.
  induction d as [|d IH] using Pos.peano_ind.
  - simpl. lia.
  - rewrite Pos.iter_succ, Pos2Z.inj_xO, IH, Pos2Z.inj_succ,
      Z.pow_succ_r by lia.
    lia.
Qed.

Lemma shl_align_le (m : positive) (e e' : Z) :
  e' <= e -> Zpos (fst (shl_align m e e')) = Zpos m * 2 ^ (e - e').
Proof.
  intros H; unfold shl_align.
  destruct (e' - e) as [|d|d] eqn:E; simpl fst; try lia.
  - replace (e - e') with 0 by lia. simpl. lia.
  - rewrite iter_xO. f_equal. f_equal. lia.
Qed.

Lemma shl_align_ge (m : positive) (e e' : Z) :
  e <= e' -> shl_align m e e' = (m, e).
Proof.
  intros H; unfold shl_align.
  destruct (e' - e) as [|d|d] eqn:E; try reflexivity; lia.
Qed.

Lemma digits2_pos_ge (p : positive) (k : Z) :
  2 ^ (k - 1) <= Zpos p -> k <= Zpos (digits2_pos p).
Proof.
  intros H.
  pose proof (digits2_pos_bounds p) as [_ B].
  destruct (Z.le_gt_cases k (Zpos (digits2_pos p))) as [L|G]; auto.
  assert (2 ^ Zpos (digits2_pos p) <= 2 ^ (k - 1))
    by (apply Z.pow_le_mono_r; lia).
  lia.
Qed.

Lemma value_finite (m : positive) (e : Z) :
  value (S754_finite false m e) = (inject_Z (Zpos m) * 2 ^ e)%Q.
Proof. reflexivity. Qed.

Lemma value_shift (m e e' : Z) :
  e' <= e ->
  (inject_Z (m * 2 ^ (e - e')) * 2 ^ e' == inject_Z m * 2 ^ e)%Q.
Proof.
  intros H.
  rewrite inject_Z_mult, pow2_inject by lia.
  rewrite <- Qmult_assoc, <- pow2_add.
  now replace (e - e' + e') with e by lia.
Qed.

Lemma normalPos_value (x : spec_float) : normalPos x -> (0 < value x)%Q.
Proof.
  destruct x as [| | |[] m e]; simpl; try tauto.
  intros _. apply Qmult_lt_0_compat; [|apply pow2_pos].
  reflexivity.
Qed.

(** The sum of two positive normal numbers. *)
Lemma SFadd_normal (x y : spec_float) :
  normalPos x -> normalPos y ->
  SFadd 53 1024 x y = S754_infinity false
  \/ (normalPos (SFadd 53 1024 x y)
      /\ ((1 - EPSILON) * value (SFadd 53 1024 x y) <= value x + value y)%Q
      /\ (value x + value y <= (1 + EPSILON) * value (SFadd 53 1024 x y))%Q).
Proof.
  destruct x as [| | |[] mx ex]; simpl normalPos; try tauto.
  destruct y as [| | |[] my ey]; simpl normalPos; try tauto.
  intros [Bx Ex] [By Ey].
  unfold SFadd. set (ez := Z.min ex ey).
  assert (Hx : ez <= ex) by (unfold ez; lia).
  assert (Hy : ez <= ey) by (unfold ez; lia).
  assert (Hz : -1074 <= ez) by (unfold ez; lia).
  pose proof (shl_align_le mx Hx) as Ax.
  pose proof (shl_align_le my Hy) as Ay.
  set (a := fst (shl_align mx ex ez)) in *.
  set (b := fst (shl_align my ey ez)) in *.
  unfold cond_Zopp.
  change (Zpos a + Zpos b) with (Zpos (a + b)).
  unfold binary_normalize, binary_round.
  assert (Pa : Zpos mx <= Zpos a).
  { rewrite Ax. 
    assert (0 < 2 ^ (ex - ez)) by (apply Z.pow_pos_nonneg; lia). nia. }
  assert (D : 53 <= Zpos (digits2_pos (a + b))).
  { apply digits2_pos_ge. change (53 - 1) with 52. lia. }
  rewrite shl_align_ge by (unfold fexp, emin; lia).
  destruct (@binary_round_aux_normal false (a + b) ez loc_Exact D ltac:(lia))
    as [m3 [e3 [R [B3 [E3 [E3' [Sl Su]]]]]]].
  rewrite R.
  destruct (e3 <=? 971); [right|left; reflexivity].
  split; [simpl; lia|].
  rewrite !value_finite.
  assert (V : (inject_Z (Zpos mx) * 2 ^ ex + inject_Z (Zpos my) * 2 ^ ey
               == inject_Z (Zpos (a + b)) * 2 ^ ez)%Q).
  { rewrite Pos2Z.inj_add, inject_Z_plus, Ax, Ay.
    rewrite Qmult_plus_distr_l, !value_shift by lia. reflexivity. }
  rewrite V.
  apply (@rounded_within (Zpos m3) e3 (Zpos (a + b)) ez); try lia.
  - apply Qle_refl.
  - apply Qmult_le_compat_r; [|apply Qlt_le_weak, pow2_pos].
    rewrite <- Zle_Qle. lia.
Qed.

Lemma normalPos_digits (m : positive) :
  2 ^ 52 <= Zpos m < 2 ^ 53 -> Zpos (digits2_pos m) = 53.
Proof. intros H; apply digits2_pos_unique; exact H. Qed.

(** The product of two positive normal numbers, when it is not below the
    normal range. *)
Lemma SFmul_normal (x y : spec_float) :
  normalPos x -> normalPos y ->
  -1126 <= exponent x + exponent y ->
  SFmul 53 1024 x y = S754_infinity false
  \/ (normalPos (SFmul 53 1024 x y)
      /\ ((1 - EPSILON) * value (SFmul 53 1024 x y) <= value x * value y)%Q
      /\ (value x * value y <= (1 + EPSILON) * value (SFmul 53 1024 x y))%Q).
Proof.
  destruct x as [| | |[] mx ex]; simpl normalPos; try tauto.
  destruct y as [| | |[] my ey]; simpl normalPos; try tauto.
  simpl exponent. intros [Bx Ex] [By Ey] He.
  unfold SFmul. simpl xorb.
  assert (P : 2 ^ 104 <= Zpos (mx * my)).
  { rewrite Pos2Z.inj_mul. change (2 ^ 104) with (2 ^ 52 * 2 ^ 52). nia. }
  assert (D : 105 <= Zpos (digits2_pos (mx * my))).
  { apply digits2_pos_ge. exact P. }
  destruct (@binary_round_aux_normal false (mx * my) (ex + ey) loc_Exact
              ltac:(lia) ltac:(lia))
    as [m3 [e3 [R [B3 [E3 [E3' [Sl Su]]]]]]].
  rewrite R.
  destruct (e3 <=? 971); [right|left; reflexivity].
  split; [simpl; lia|].
  rewrite !value_finite.
  assert (V : (inject_Z (Zpos mx) * 2 ^ ex * (inject_Z (Zpos my) * 2 ^ ey)
               == inject_Z (Zpos (mx * my)) * 2 ^ (ex + ey))%Q).
  { rewrite Pos2Z.inj_mul, inject_Z_mult, pow2_add. ring. }
  rewrite V.
  apply (@rounded_within (Zpos m3) e3 (Zpos (mx * my)) (ex + ey)); try lia.
  - apply Qle_refl.
  - apply Qmult_le_compat_r; [|apply Qlt_le_weak, pow2_pos].
    rewrite <- Zle_Qle. lia.
Qed.

(** The integer quotient the division rounds: [mx * 2^53 / my] at the
    exponent [ex - ey - 53]. *)
Lemma SFdiv_core_normal (mx my : positive) (ex ey : Z) :
  2 ^ 52 <= Zpos mx < 2 ^ 53 -> 2 ^ 52 <= Zpos my < 2 ^ 53 ->
  -1021 <= ex - ey ->
  exists l,
    SFdiv_core_binary 53 1024 (Zpos mx) ex (Zpos my) ey
    = (Zpos mx * 2 ^ 53 / Zpos my, ex - ey - 53, l).
Proof.
  intros Bx By He.
  unfold SFdiv_core_binary.
  change (Zdigits2 (Zpos mx)) with (Zpos (digits2_pos mx)).
  change (Zdigits2 (Zpos my)) with (Zpos (digits2_pos my)).
  rewrite (normalPos_digits Bx), (normalPos_digits By).
  replace (53 + ex - (53 + ey)) with (ex - ey) by lia.
  rewrite fexp_normal by lia.
  replace (Z.min (ex - ey - 53) (ex - ey)) with (ex - ey - 53) by lia.
  replace (ex - ey - (ex - ey - 53)) with 53 by lia.
  cbv iota beta.
  rewrite Z.shiftl_mul_pow2 by lia.
  unfold Z.div.
  destruct (Z.div_eucl (Zpos mx * 2 ^ 53) (Zpos my)) as [q r].
  eexists; reflexivity.
Qed.

(** The quotient of two positive normal numbers, when it is not below the
    normal range. *)
Lemma SFdiv_normal (x y : spec_float) :
  normalPos x -> normalPos y ->
  -1021 <= exponent x - exponent y ->
  SFdiv 53 1024 x y = S754_infinity false
  \/ (normalPos (SFdiv 53 1024 x y)
      /\ ((1 - EPSILON) * value (SFdiv 53 1024 x y) <= value x / value y)%Q
      /\ (value x / value y <= (1 + EPSILON) * value (SFdiv 53 1024 x y))%Q).
Proof.
  destruct x as [| | |[] mx ex]; simpl normalPos; try tauto.
  destruct y as [| | |[] my ey]; simpl normalPos; try tauto.
  simpl exponent. intros [Bx Ex] [By Ey] He.
  unfold SFdiv. simpl xorb.
  destruct (SFdiv_core_normal ex ey Bx By He) as [l Hcore].
  rewrite Hcore.
  set (q := Zpos mx * 2 ^ 53 / Zpos my).
  assert (Hq : q * Zpos my <= Zpos mx * 2 ^ 53 < (q + 1) * Zpos my).
  { unfold q.
    pose proof (Z.div_mod (Zpos mx * 2 ^ 53) (Zpos my) ltac:(lia)) as E.
    pose proof (Z.mod_pos_bound (Zpos mx * 2 ^ 53) (Zpos my) ltac:(lia)) as B.
    set (N := Zpos mx * 2 ^ 53) in *.
    set (d := N / Zpos my) in *. set (r := N mod Zpos my) in *.
    nia. }
  assert (Bq : 2 ^ 52 <= q < 2 ^ 54).
  { assert (T0 : 0 < 2 ^ 52) by reflexivity.
    unfold q; split.
    - apply Z.div_le_lower_bound; [lia|].
      change (2 ^ 53) with (2 * 2 ^ 52) in *.
      set (t := 2 ^ 52) in *. nia.
    - apply Z.div_lt_upper_bound; [lia|].
      change (2 ^ 54) with (4 * 2 ^ 52).
      change (2 ^ 53) with (2 * 2 ^ 52) in *.
      set (t := 2 ^ 52) in *. nia. }
  destruct q as [|q'|q'] eqn:Eq; try lia.
  assert (D : 53 <= Zpos (digits2_pos q')).
  { apply digits2_pos_ge. change (53 - 1) with 52. lia. }
  destruct (@binary_round_aux_normal false q' (ex - ey - 53) l D ltac:(lia))
    as [m3 [e3 [R [B3 [E3 [E3' [Sl Su]]]]]]].
  rewrite R.
  destruct (e3 <=? 971); [right|left; reflexivity].
  split; [simpl; lia|].
  rewrite !value_finite.
  pose proof (pow2_pos ey) as Py.
  pose proof (pow2_pos (ex - ey - 53)) as Pe.
  assert (Ex2 : (2 ^ ex == inject_Z (2 ^ 53) * 2 ^ (ex - ey - 53) * 2 ^ ey)%Q).
  { rewrite pow2_inject by lia. rewrite <- !pow2_add.
    now replace (53 + (ex - ey - 53) + ey) with ex by lia. }
  assert (My : (0 < inject_Z (Zpos my))%Q) by reflexivity.
  destruct Hq as [Hq1 Hq2].
  rewrite Zle_Qle in Hq1. apply Z.lt_le_incl in Hq2. rewrite Zle_Qle in Hq2.
  rewrite !inject_Z_mult in Hq1, Hq2.
  apply (@rounded_within (Zpos m3) e3 (Zpos q') (ex - ey - 53)); try lia.
  - apply Qle_shift_div_l.
    + apply Qmult_lt_0_compat; assumption.
    + rewrite Ex2.
      set (A := inject_Z (Zpos mx)) in *. set (B := inject_Z (Zpos my)) in *.
      set (T := inject_Z (2 ^ 53)) in *. set (Q' := inject_Z (Zpos q')) in *.
      set (U := (2 ^ (ex - ey - 53))%Q) in *. set (W := (2 ^ ey)%Q) in *.
      assert (X : (Q' * B * (U * W) <= A * T * (U * W))%Q).
      { apply Qmult_le_compat_r; [exact Hq1|].
        apply Qlt_le_weak, Qmult_lt_0_compat; assumption. }
      lra.
  - apply Qle_shift_div_r.
    + apply Qmult_lt_0_compat; assumption.
    + rewrite Ex2.
      set (A := inject_Z (Zpos mx)) in *. set (B := inject_Z (Zpos my)) in *.
      set (T := inject_Z (2 ^ 53)) in *.
      set (Q1 := inject_Z (Zpos q' + 1)) in *.
      set (U := (2 ^ (ex - ey - 53))%Q) in *. set (W := (2 ^ ey)%Q) in *.
      assert (X : (A * T * (U * W) <= Q1 * B * (U * W))%Q).
      { apply Qmult_le_compat_r; [exact Hq2|].
        apply Qlt_le_weak, Qmult_lt_0_compat; assumption. }
      lra.
Qed.

End RoundingError.

(* ================================================================= *)
(** ** Rounding errors of the sums *)

Section SummationError.

Import Exact.

Local Open Scope Q_scope.

Lemma one_minus_EPSILON_pos : 0 < 1 - EPSILON.
Proof. reflexivity. Qed.

Lemma shrink_S (n : nat) : shrink (S n) == (1 - EPSILON) * shrink n.
Proof.
  unfold shrink; rewrite Nat2Z.inj_succ.
  replace (Z.succ (Z.of_nat n)) with (1 + Z.of_nat n)%Z by lia.
  rewrite Qpower_plus; [reflexivity|].
  intros H; pose proof one_minus_EPSILON_pos as P; rewrite H in P.
  discriminate.
Qed.

Lemma growth_S (n : nat) : growth (S n) == (1 + EPSILON) * growth n.
Proof.
  unfold growth; rewrite Nat2Z.inj_succ.
  replace (Z.succ (Z.of_nat n)) with (1 + Z.of_nat n)%Z by lia.
  rewrite Qpower_plus; [reflexivity|].
  intros H; pose proof EPSILON_pos as P.
  assert (X : 0 < 1 + EPSILON) by lra.
  rewrite H in X; discriminate.
Qed.

Lemma shrink_range (n : nat) : 0 < shrink n /\ shrink n <= 1.
Proof.
  pose proof EPSILON_pos as P; pose proof EPSILON_lt_1 as L.
  induction n as [|n [IH1 IH2]].
  - split; [reflexivity|discriminate].
  - rewrite shrink_S.
    split; [apply Qmult_lt_0_compat; [lra|assumption]|].
    nra.
Qed.

Lemma growth_ge_1 (n : nat) : 1 <= growth n.
Proof.
  pose proof EPSILON_pos as P.
  induction n as [|n IH].
  - discriminate.
  - rewrite growth_S. nra.
Qed.

Lemma shrink_le (n m : nat) : (n <= m)%nat -> shrink m <= shrink n.
Proof.
  pose proof EPSILON_pos as P; pose proof EPSILON_lt_1 as L.
  induction 1 as [|m _ IH]; [apply Qle_refl|].
  rewrite shrink_S. pose proof (shrink_range m) as [R1 R2]. nra.
Qed.

Lemma growth_le (n m : nat) : (n <= m)%nat -> growth n <= growth m.
Proof.
  pose proof EPSILON_pos as P.
  induction 1 as [|m _ IH]; [apply Qle_refl|].
  rewrite growth_S. pose proof (growth_ge_1 m) as R. nra.
Qed.

Lemma normalPos_finite (x : Number.t) :
  normalPos x -> exists m e, x = S754_finite false m e.
Proof.
  destruct x as [| | |[] m e]; simpl; try tauto.
  intros _; now exists m, e.
Qed.

Lemma add_normal (x y : Number.t) :
  normalPos x -> normalPos y ->
  (x + y)%num = Number.Infinity
  \/ (normalPos (x + y)%num
      /\ (1 - EPSILON) * value (x + y)%num <= value x + value y
      /\ value x + value y <= (1 + EPSILON) * value (x + y)%num).
Proof. apply SFadd_normal. Qed.

Lemma sumFrom_Infinity (l : list Number.t) :
  Forall normalPos l -> sumFrom Number.Infinity l = Number.Infinity.
Proof.
  induction 1 as [|x l Hx _ IH]; [reflexivity|].
  destruct (normalPos_finite x Hx) as [m [e ->]]; exact IH.
Qed.

(** A running sum of positive normal numbers that stays finite: each
    addition moves the result by a factor between [1 - EPSILON] and
    [1 + EPSILON] at most. *)
Lemma sumFrom_error (l : list Number.t) (acc : Number.t) (A : Q) (k : nat) :
  Forall normalPos l -> normalPos acc ->
  Number.isFinite (sumFrom acc l) = true ->
  shrink k * value acc <= A -> A <= growth k * value acc ->
  normalPos (sumFrom acc l)
  /\ shrink (k + List.length l) * value (sumFrom acc l)
     <= A + sumQ (map value l)
  /\ A + sumQ (map value l)
     <= growth (k + List.length l) * value (sumFrom acc l).
Proof.
  intros Hl; revert acc A k.
  induction Hl as [|x l Hx Hl IH]; intros acc A k Hacc Hfin Hlo Hhi.
  - simpl. rewrite Nat.add_0_r. split; [exact Hacc|]. split; lra.
  - change (sumFrom acc (x :: l)) with (sumFrom (acc + x)%num l) in *.
    destruct (add_normal acc x Hacc Hx) as [Hinf|[Hn [Hl1 Hh1]]].
    { rewrite Hinf, (sumFrom_Infinity Hl) in Hfin; discriminate. }
    pose proof (shrink_range k) as [S1 S2].
    pose proof (growth_ge_1 k) as G1.
    pose proof (normalPos_value x Hx) as Vx.
    pose proof (normalPos_value acc Hacc) as Va.
    pose proof (normalPos_value _ Hn) as Vn.
    destruct (IH (acc + x)%num (A + value x) (S k) Hn Hfin) as [R1 [R2 R3]].
    + rewrite shrink_S.
      assert (X : shrink k * ((1 - EPSILON) * value (acc + x)%num)
                  <= shrink k * (value acc + value x))
        by (apply Qmult_le_l; assumption).
      assert (Y : shrink k * value x <= 1 * value x)
        by (apply Qmult_le_compat_r; lra).
      lra.
    + rewrite growth_S.
      assert (X : growth k * (value acc + value x)
                  <= growth k * ((1 + EPSILON) * value (acc + x)%num))
        by (apply Qmult_le_l; lra).
      assert (Y : 1 * value x <= growth k * value x)
        by (apply Qmult_le_compat_r; lra).
      lra.
    + simpl List.length. rewrite Nat.add_succ_r.
      split; [exact R1|].
      change (sumQ (map value (x :: l)))
        with (value x + sumQ (map value l)).
      change (S k + List.length l)%nat with (S (k + List.length l)) in R2, R3.
      split; lra.
Qed.

(** The sum, from [+0], of positive normal numbers. *)
Lemma sum_error (l : list Number.t) :
  Forall normalPos l -> Number.isFinite (sum l) = true ->
  zeroOrNormal (sum l)
  /\ (l <> [] -> normalPos (sum l))
  /\ shrink (List.length l) * value (sum l) <= sumQ (map value l)
  /\ sumQ (map value l) <= growth (List.length l) * value (sum l).
Proof.
  intros Hl Hfin; destruct Hl as [|x l Hx Hl].
  - split; [left; reflexivity|]. split; [tauto|]. split; discriminate.
  - unfold sum in *.
    assert (E : sumFrom Number.zero (x :: l) = sumFrom x l).
    { destruct (normalPos_finite x Hx) as [m [e ->]]; reflexivity. }
    rewrite E in *.
    destruct (@sumFrom_error l x (value x) 0 Hl Hx Hfin) as [R1 [R2 R3]].
    + change (shrink 0) with 1. lra.
    + change (growth 0) with 1. lra.
    + pose proof (normalPos_value _ R1) as V.
      pose proof (shrink_le (Nat.le_succ_diag_r (List.length l))) as S1.
      pose proof (growth_le (Nat.le_succ_diag_r (List.length l))) as G1.
      change (0 + List.length l)%nat with (List.length l) in R2, R3.
      split; [right; exact R1|]. split; [intros _; exact R1|].
      change (List.length (x :: l)) with (S (List.length l)).
      change (sumQ (map value (x :: l)))
        with (value x + sumQ (map value l)).
      assert (X : shrink (S (List.length l)) * value (sumFrom x l)
                  <= shrink (List.length l) * value (sumFrom x l))
        by (apply Qmult_le_compat_r; lra).
      assert (Y : growth (List.length l) * value (sumFrom x l)
                  <= growth (S (List.length l)) * value (sumFrom x l))
        by (apply Qmult_le_compat_r; lra).
      split; lra.
Qed.

End SummationError.

(* ================================================================= *)
(** ** Rounding errors of the percentages *)

Section PercentageError.

Import Exact.

Local Open Scope Q_scope.

Lemma hundred : Number.ofZ 100 = S754_finite false 7036874417766400 (-46).
Proof. reflexivity. Qed.

Lemma normalPos_gtb_zero (x : Number.t) :
  normalPos x -> (x >? Number.zero)%num = true.
Proof. destruct x as [| | |[] m e]; simpl; tauto. Qed.

Lemma normalPos_exponent (x : Number.t) :
  normalPos x -> (-1074 <= exponent x)%Z.
Proof. destruct x as [| | |[] m e]; simpl; tauto. Qed.

Lemma div_normal (x y : Number.t) :
  normalPos x -> normalPos y ->
  (-1021 <= exponent x - exponent y)%Z ->
  (x / y)%num = Number.Infinity
  \/ (normalPos (x / y)%num
      /\ (1 - EPSILON) * value (x / y)%num <= value x / value y
      /\ value x / value y <= (1 + EPSILON) * value (x / y)%num).
Proof. apply SFdiv_normal. Qed.

Lemma mul_hundred_normal (x : Number.t) :
  normalPos x ->
  (x * Number.ofZ 100)%num = Number.Infinity
  \/ (normalPos (x * Number.ofZ 100)%num
      /\ (1 - EPSILON) * value (x * Number.ofZ 100)%num <= value x * 100
      /\ value x * 100 <= (1 + EPSILON) * value (x * Number.ofZ 100)%num).
Proof.
  intros Hx.
  assert (H100 : normalPos (Number.ofZ 100)).
  { rewrite hundred; simpl; lia. }
  assert (V100 : value (Number.ofZ 100) == 100) by reflexivity.
  pose proof (normalPos_exponent x Hx) as Ex.
  destruct (@SFmul_normal x (Number.ofZ 100) Hx H100) as [H|[H1 [H2 H3]]].
  - rewrite hundred; simpl exponent; lia.
  - left; exact H.
  - right; split; [exact H1|].
    rewrite V100 in H2, H3. split; assumption.
Qed.

(** The percentage of a group, multiplied back by the total, is the
    amount of the group up to two roundings. *)
Lemma percentage_error (a total : Number.t) :
  normalPos a -> normalPos total ->
  (-1021 <= exponent a - exponent total)%Z ->
  Number.isFinite (percentageOf total (VNumber a)) = true ->
  let weighted :=
    value (percentageOf total (VNumber a)) / 100 * value total in
  (1 - EPSILON) * ((1 - EPSILON) * weighted) <= value a
  /\ value a <= (1 + EPSILON) * ((1 + EPSILON) * weighted).
Proof.
  intros Ha Ht He Hfin; cbv zeta.
  unfold percentageOf in *; rewrite (normalPos_gtb_zero total Ht) in *.
  simpl toNumber in *.
  destruct (div_normal a total Ha Ht He) as [Hinf|[Hq [Hq1 Hq2]]].
  { rewrite Hinf in Hfin; discriminate. }
  destruct (mul_hundred_normal (a / total)%num Hq) as [Hinf|[Hp [Hp1 Hp2]]].
  { rewrite Hinf in Hfin; discriminate. }
  pose proof (normalPos_value total Ht) as Vt.
  pose proof (normalPos_value _ Hq) as Vq.
  pose proof (normalPos_value _ Hp) as Vp.
  pose proof EPSILON_pos as E0; pose proof EPSILON_lt_1 as E1.
  assert (R : value a / value total * value total == value a).
  { field. intros H; rewrite H in Vt; discriminate. }
  set (r := value a / value total) in *.
  set (P := value ((a / total) * Number.ofZ 100)%num) in *.
  set (Vq' := value (a / total)%num) in *.
  change (P / 100) with (P * (1 # 100)).
  set (e := EPSILON) in *.
  set (Va := value a) in *. set (VT := value total) in *.
  clearbody r P Vq' e Va VT.
  clear Ha Ht He Hfin Hq Hp.
  assert (X1 : (1 - e) * P * VT <= Vq' * 100 * VT)
    by (apply Qmult_le_compat_r; lra).
  assert (X2 : Vq' * 100 * VT <= (1 + e) * P * VT)
    by (apply Qmult_le_compat_r; lra).
  assert (X3 : (1 - e) * Vq' * VT <= r * VT)
    by (apply Qmult_le_compat_r; lra).
  assert (X4 : r * VT <= (1 + e) * Vq' * VT)
    by (apply Qmult_le_compat_r; lra).
  assert (X5 : (1 - e) * ((1 - e) * P * VT) <= (1 - e) * (Vq' * 100 * VT))
    by (apply Qmult_le_l; lra).
  assert (X6 : (1 + e) * (Vq' * 100 * VT) <= (1 + e) * ((1 + e) * P * VT))
    by (apply Qmult_le_l; lra).
  set (pt := P * VT) in *. set (qt := Vq' * VT) in *.
  split; nra.
Qed.

End PercentageError.

(* ================================================================= *)
(** ** Exact sums over the groups *)

Section ExactSums.

Import Exact.

Local Open Scope Q_scope.

Lemma sumQ_zero (A : Type) (l : list A) : sumQ (map (fun _ => 0) l) == 0.
Proof. induction l as [|x l IH]; simpl; [reflexivity|]. rewrite IH; lra. Qed.

Lemma sumQ_ext (A : Type) (f g : A -> Q) (l : list A) :
  (forall x, In x l -> f x == g x) -> sumQ (map f l) == sumQ (map g l).
Proof.
  induction l as [|x l IH]; intros H; simpl; [reflexivity|].
  rewrite (H x (or_introl eq_refl)), IH; [reflexivity|].
  intros y Hy; apply H; now right.
Qed.

Lemma sumQ_add (A : Type) (f g : A -> Q) (l : list A) :
  sumQ (map (fun x => f x + g x) l) == sumQ (map f l) + sumQ (map g l).
Proof.
  induction l as [|x l IH]; simpl; [reflexivity|]. rewrite IH; lra.
Qed.

(** A sum over distinct keys that is [v] at the key [k] and [0]
    elsewhere. *)
Lemma sumQ_at (k : string) (v : Q) (keys : list string) :
  NoDup keys ->
  sumQ (map (fun c => if String.eqb k c then v else 0) keys)
  == if existsb (String.eqb k) keys then v else 0.
Proof.
  induction 1 as [|c keys Hc Hn IH]; simpl; [reflexivity|].
  rewrite IH.
  destruct (String.eqb k c) eqn:E; simpl; [|lra].
  apply String.eqb_eq in E; subst c.
  assert (X : existsb (String.eqb k) keys = false).
  { destruct (existsb (String.eqb k) keys) eqn:X; [|reflexivity].
    apply existsb_eqb_In in X; contradiction. }
  rewrite X; lra.
Qed.

(** The groups cut the list into parts: summing over each category and
    then over the categories gives the sum over the list. *)
Lemma sumQ_partition (f : Transaction -> Q) (keys : list string)
    (l : list Transaction) :
  NoDup keys -> (forall t, In t l -> In (category t) keys) ->
  sumQ (map (fun c => sumQ (map f (filter (hasCategory c) l))) keys)
  == sumQ (map f l).
Proof.
  intros Hk; induction l as [|t l IH]; intros Hl.
  - simpl. apply sumQ_zero.
  - rewrite (@sumQ_ext _ _
               (fun c => (if String.eqb (category t) c then f t else 0)
                         + sumQ (map f (filter (hasCategory c) l)))).
    + rewrite sumQ_add, (sumQ_at (category t) (f t) Hk), IH.
      * assert (X : existsb (String.eqb (category t)) keys = true).
        { apply existsb_eqb_In, Hl; now left. }
        rewrite X; reflexivity.
      * intros t' Ht'; apply Hl; now right.
    + intros c _; simpl filter; unfold hasCategory at 1.
      destruct (String.eqb (category t) c); simpl; lra.
Qed.

(** Bounds that hold bar by bar hold of the sums. *)
Lemma sumQ_scaled (A : Type) (w x : A -> Q) (lo hi : Q) (l : list A) :
  (forall a, In a l -> lo * w a <= x a /\ x a <= hi * w a) ->
  lo * sumQ (map w l) <= sumQ (map x l)
  /\ sumQ (map x l) <= hi * sumQ (map w l).
Proof.
  induction l as [|a l IH]; intros H; simpl.
  - split; lra.
  - destruct (H a (or_introl eq_refl)) as [H1 H2].
    destruct IH as [I1 I2]; [intros b Hb; apply H; now right|].
    split; lra.
Qed.

End ExactSums.

(* ================================================================= *)
(** ** The bars and the groups *)

Section SummaryStructure.

Import JsObject ObjectFacts.

Lemma index_not_proto (c : string) : isIndexKey c = true -> c <> "__proto__".
Proof. intros H ->; discriminate. Qed.

(** The categories that get a bar: those of the expenses, except
    ["__proto__"]. *)
Lemma summary_categories (s : State) (c : string) :
  In c (map barCategory (updateSpendingSummary s))
  <-> In c (map category (filter isExpense (transactions s)))
      /\ c <> "__proto__".
Proof.
  rewrite summary_keys, in_app_iff, firstOccurrences_In.
  destruct (keysAfter_indices
              (filter_index_Forall
                 (map category (filter isExpense (transactions s)))))
    as [_ [_ [_ Helems]]].
  rewrite Helems, !filter_In.
  unfold isNameKey; rewrite andb_true_iff, !negb_true_iff, String.eqb_neq.
  split.
  - intros [[H1 H2]|[H1 [H2 H3]]]; split; auto using index_not_proto.
  - intros [H1 H2]; destruct (isIndexKey c); auto.
Qed.

Lemma summary_categories_NoDup (s : State) :
  NoDup (map barCategory (updateSpendingSummary s)).
Proof.
  rewrite summary_keys.
  destruct (keysAfter_indices
              (filter_index_Forall
                 (map category (filter isExpense (transactions s)))))
    as [Hidx [_ [Hnodup _]]].
  apply NoDup_app; auto using firstOccurrences_NoDup.
  intros c Hc; apply index_not_name.
  now apply (proj1 (Forall_forall _ _) Hidx).
Qed.

Lemma NoDup_keys_getOwn (k : string) (v : Value) (o : JsObject.t) :
  NoDup (map fst o) -> In (k, v) o -> getOwn k o = Some v.
Proof.
  induction o as [|[k' v'] o IH]; simpl; [tauto|].
  intros Hn [H|H]; inversion Hn as [|? ? Hk Ho]; subst.
  - injection H as -> ->. now rewrite String.eqb_refl.
  - destruct (String.eqb_spec k k') as [->|Hne]; [|auto].
    exfalso; apply Hk. now apply (in_map fst) in H.
Qed.

(** A bar whose category is not a property name of [Object.prototype]
    shows the sum of its group. *)
Lemma summary_bar_amount (s : State) (bar : CategoryBar) :
  let expenses := filter isExpense (transactions s) in
  Forall numericAmount expenses ->
  In bar (updateSpendingSummary s) ->
  inherited (barCategory bar) = false ->
  barAmount bar = VNumber (groupAmount (barCategory bar) expenses)
  /\ barPercentage bar
     = percentageOf (totalExpensesOf expenses) (barAmount bar).
Proof.
  cbv zeta; intros Hnum Hbar Hc.
  pose proof (summary_categories_NoDup s) as Hnd.
  assert (Hcat : In (barCategory bar)
                   (map category (filter isExpense (transactions s)))).
  { apply (summary_categories s), (in_map barCategory), Hbar. }
  rewrite summary_bars in Hbar, Hnd.
  rewrite map_map in Hnd; simpl in Hnd.
  change (map (fun x : string * Value => fst x) ?o) with (map fst o) in Hnd.
  apply in_map_iff in Hbar as [[k v] [<- Hin]]; simpl in *.
  split; [|reflexivity].
  apply (NoDup_keys_getOwn _ _ _ Hnd) in Hin.
  rewrite (@grouped_value _ JsObject.empty k tidy_empty Hnum Hc) in Hin.
  assert (X : existsb (hasCategory k)
                (filter isExpense (transactions s)) = true).
  { apply in_map_iff in Hcat as [t [Ht Hin']].
    apply existsb_exists; exists t; split; [assumption|].
    now apply String.eqb_eq. }
  rewrite X in Hin. now injection Hin as <-.
Qed.

End SummaryStructure.

(* ================================================================= *)
(** ** The percentage-weighted amounts sum back to the total *)

Section SummaryTolerance.

Import JsObject ObjectFacts Exact.

Local Open Scope Q_scope.

Lemma isNormal_abs (x : Number.t) :
  isNormal x = true -> normalPos (Number.abs x).
Proof.
  destruct x as [| | |sx m e]; try discriminate.
  unfold isNormal, Number.abs, SFabs, normalPos; intros H.
  apply andb_true_iff in H as [H _]; apply andb_true_iff in H as [D E].
  apply Z.eqb_eq in D; apply Z.leb_le in E.
  pose proof (digits2_pos_bounds m) as B; rewrite D in B.
  split; [exact B|exact E].
Qed.

Lemma isNormal_numeric (t : Transaction) :
  isNormal (amount t) = true -> numericAmount t.
Proof. unfold numericAmount; now destruct (amount t). Qed.

Lemma percentage_not_finite (a total : Number.t) :
  normalPos total -> Number.isFinite a = false ->
  Number.isFinite (percentageOf total (VNumber a)) = false.
Proof.
  intros Ht Ha; unfold percentageOf.
  rewrite (normalPos_gtb_zero total Ht), hundred.
  destruct (normalPos_finite total Ht) as [m [e ->]].
  destruct a; try discriminate; reflexivity.
Qed.

Lemma shrink_two (n : nat) :
  shrink (n + 2) == (1 - EPSILON) * ((1 - EPSILON) * shrink n).
Proof.
  replace (n + 2)%nat with (S (S n)) by lia.
  now rewrite !shrink_S.
Qed.

Lemma growth_two (n : nat) :
  growth (n + 2) == (1 + EPSILON) * ((1 + EPSILON) * growth n).
Proof.
  replace (n + 2)%nat with (S (S n)) by lia.
  now rewrite !growth_S.
Qed.

(** Bar by bar: the weighted percentage is the exact sum of the group, up
    to the roundings of that sum, of the division and of the
    multiplication. *)
Lemma bar_sums_back (s : State) (bar : CategoryBar) :
  let expenses := filter isExpense (transactions s) in
  let total := totalExpensesOf expenses in
  let n := List.length expenses in
  Forall (fun t => isNormal (amount t) = true) expenses ->
  Forall (fun t => inherited (category t) = false) expenses ->
  Number.isFinite total = true ->
  In bar (updateSpendingSummary s) ->
  inRange total bar = true ->
  let weighted := value (barPercentage bar) / 100 * value total in
  shrink (n + 2) * weighted <= exactGroup expenses (barCategory bar)
  /\ exactGroup expenses (barCategory bar) <= growth (n + 2) * weighted.
Proof.
  cbv zeta; intros Hnormal Hplain Hfin Hbar Hrange.
  set (expenses := filter isExpense (transactions s)) in *.
  set (total := totalExpensesOf expenses) in *.
  set (c := barCategory bar) in *.
  assert (Hnum : Forall numericAmount expenses).
  { apply Forall_forall; intros t Ht; apply isNormal_numeric.
    now apply (proj1 (Forall_forall _ _) Hnormal). }
  assert (Hcat : In c (map category expenses)).
  { apply (summary_categories s), (in_map barCategory), Hbar. }
  apply in_map_iff in Hcat as [t0 [Ht0 Hin0]].
  assert (Hc : inherited c = false).
  { rewrite <- Ht0. now apply (proj1 (Forall_forall _ _) Hplain). }
  destruct (summary_bar_amount s bar Hnum Hbar Hc) as [Hamount Hpct].
  fold expenses total c in Hamount, Hpct.
  unfold inRange in Hrange; apply andb_true_iff in Hrange as [Hpfin Hexp].
  apply Z.leb_le in Hexp.
  rewrite Hpct in *; rewrite Hamount in *; simpl toNumber in Hexp.
  (* the total *)
  assert (Hall : Forall normalPos (map absAmount expenses)).
  { apply Forall_forall; intros x Hx.
    apply in_map_iff in Hx as [t [<- Ht]]; apply isNormal_abs.
    now apply (proj1 (Forall_forall _ _) Hnormal). }
  unfold total in Hfin; rewrite totalExpensesOf_sum in Hfin.
  destruct (sum_error Hall Hfin) as [_ [Htn _]].
  assert (Htotal : normalPos total).
  { unfold total; rewrite totalExpensesOf_sum; apply Htn.
    destruct expenses; [destruct Hin0|discriminate]. }
  (* the group *)
  set (group := map absAmount (filter (hasCategory c) expenses)) in *.
  assert (Hgroup : Forall normalPos group).
  { apply Forall_forall; intros x Hx.
    apply in_map_iff in Hx as [t [<- Ht]]; apply isNormal_abs.
    apply filter_In in Ht as [Ht _].
    now apply (proj1 (Forall_forall _ _) Hnormal). }
  assert (Hne : group <> []).
  { assert (X : In (absAmount t0) group).
    { apply in_map, filter_In; split; [assumption|].
      now apply String.eqb_eq. }
    intros E; rewrite E in X; destruct X. }
  change (groupAmount c expenses) with (sum group) in *.
  assert (Hgfin : Number.isFinite (sum group) = true).
  { destruct (Number.isFinite (sum group)) eqn:E; [reflexivity|].
    rewrite (@percentage_not_finite (sum group) total Htotal E) in Hpfin.
    discriminate. }
  destruct (sum_error Hgroup Hgfin) as [_ [Hgn [Hg1 Hg2]]].
  specialize (Hgn Hne).
  destruct (@percentage_error (sum group) total Hgn Htotal ltac:(lia) Hpfin)
    as [Hp1 Hp2].
  (* the group is not longer than the list *)
  assert (Hlen : (List.length group <= List.length expenses)%nat).
  { unfold group; rewrite length_map; apply filter_length_le. }
  pose proof (shrink_le Hlen) as S1.
  pose proof (growth_le Hlen) as G1.
  pose proof (shrink_range (List.length expenses)) as [S2 S3].
  pose proof (growth_ge_1 (List.length expenses)) as G2.
  pose proof (normalPos_value _ Hgn) as Va.
  assert (Hx : exactGroup expenses c == sumQ (map value group)).
  { unfold exactGroup, group; now rewrite map_map. }
  rewrite Hx, shrink_two, growth_two.
  set (W := value (percentageOf total (VNumber (sum group))) / 100
            * value total) in *.
  set (A := value (sum group)) in *.
  set (X := sumQ (map value group)) in *.
  set (sn := shrink (List.length expenses)) in *.
  set (sg := shrink (List.length group)) in *.
  set (gn := growth (List.length expenses)) in *.
  set (gg := growth (List.length group)) in *.
  set (e := EPSILON) in *.
  assert (L1 : sn * ((1 - e) * ((1 - e) * W)) <= sn * A)
    by (apply Qmult_le_l; assumption).
  assert (L2 : sn * A <= sg * A)
    by (apply Qmult_le_compat_r; lra).
  assert (U1 : gn * A <= gn * ((1 + e) * ((1 + e) * W)))
    by (apply Qmult_le_l; lra).
  assert (U2 : gg * A <= gn * A)
    by (apply Qmult_le_compat_r; lra).
  clearbody W A X sn sg gn gg e.
  split; nra.
Qed.

(** Over all bars: the percentage-weighted amounts sum back to the total
    up to the roundings. *)
Lemma summary_sums_back (s : State) :
  let expenses := filter isExpense (transactions s) in
  let total := totalExpensesOf expenses in
  let bars := updateSpendingSummary s in
  let n := List.length expenses in
  Forall (fun t => isNormal (amount t) = true) expenses ->
  Forall (fun t => inherited (category t) = false) expenses ->
  Number.isFinite total = true ->
  Forall (fun bar => inRange total bar = true) bars ->
  shrink (n + 2) * weightedBack total bars <= growth n * value total
  /\ shrink n * value total <= growth (n + 2) * weightedBack total bars.
Proof.
  cbv zeta; intros Hnormal Hplain Hfin Hrange.
  set (expenses := filter isExpense (transactions s)) in *.
  set (total := totalExpensesOf expenses) in *.
  set (n := List.length expenses).
  destruct (@sumQ_scaled CategoryBar
              (fun bar => value (barPercentage bar) / 100 * value total)
              (fun bar => exactGroup expenses (barCategory bar))
              (shrink (n + 2)) (growth (n + 2))
              (updateSpendingSummary s)) as [L U].
  { intros bar Hbar.
    apply (bar_sums_back s bar Hnormal Hplain Hfin Hbar).
    now apply (proj1 (Forall_forall _ _) Hrange). }
  fold (weightedBack total (updateSpendingSummary s)) in L, U.
  assert (P : sumQ (map (fun bar => exactGroup expenses (barCategory bar))
                      (updateSpendingSummary s))
              == sumQ (map (fun t => value (absAmount t)) expenses)).
  { rewrite <- (@sumQ_partition (fun t => value (absAmount t))
                  (map barCategory (updateSpendingSummary s)) expenses).
    - now rewrite map_map.
    - apply summary_categories_NoDup.
    - intros t Ht; apply summary_categories; split.
      + now apply in_map.
      + intros E.
        pose proof (proj1 (Forall_forall _ _) Hplain t Ht) as H.
        cbv beta in H; rewrite E in H; discriminate. }
  assert (Hall : Forall normalPos (map absAmount expenses)).
  { apply Forall_forall; intros x Hx.
    apply in_map_iff in Hx as [t [<- Ht]]; apply isNormal_abs.
    now apply (proj1 (Forall_forall _ _) Hnormal). }
  unfold total in Hfin; rewrite totalExpensesOf_sum in Hfin.
  destruct (sum_error Hall Hfin) as [_ [_ [T1 T2]]].
  rewrite length_map, map_map, <- totalExpensesOf_sum in T1, T2.
  fold total n in T1, T2.
  rewrite P in L, U.
  split; lra.
Qed.

Lemma inject_nat_S (m : nat) :
  inject_Z (Z.of_nat (S m)) == inject_Z (Z.of_nat m) + 1.
Proof. now rewrite Nat2Z.inj_succ, <- Z.add_1_r, inject_Z_plus. Qed.

Lemma inject_nat_nonneg (m : nat) : 0 <= inject_Z (Z.of_nat m).
Proof. change 0 with (inject_Z 0); rewrite <- Zle_Qle; lia. Qed.

(** [(1 - e)^m >= 1 - m e]. *)
Lemma shrink_linear (m : nat) :
  1 - inject_Z (Z.of_nat m) * EPSILON <= shrink m.
Proof.
  pose proof EPSILON_pos as E0; pose proof EPSILON_lt_1 as E1.
  induction m as [|m IH].
  - change (shrink 0) with 1; change (inject_Z (Z.of_nat 0)) with 0; lra.
  - rewrite shrink_S, inject_nat_S.
    pose proof (inject_nat_nonneg m) as M.
    set (k := inject_Z (Z.of_nat m)) in *; set (e := EPSILON) in *.
    assert (X : (1 - e) * (1 - k * e) <= (1 - e) * shrink m)
      by (apply Qmult_le_l; lra).
    nra.
Qed.

(** [(1 + e)^m <= 1 + 2 m e] as long as [2 m e <= 1]. *)
Lemma growth_linear (m : nat) :
  2 * inject_Z (Z.of_nat m) * EPSILON <= 1 ->
  growth m <= 1 + 2 * inject_Z (Z.of_nat m) * EPSILON.
Proof.
  pose proof EPSILON_pos as E0; pose proof EPSILON_lt_1 as E1.
  induction m as [|m IH].
  - intros _; change (growth 0) with 1.
    change (inject_Z (Z.of_nat 0)) with 0; lra.
  - rewrite growth_S, inject_nat_S.
    pose proof (inject_nat_nonneg m) as M.
    set (k := inject_Z (Z.of_nat m)) in *; set (e := EPSILON) in *.
    intros H.
    assert (H' : 2 * k * e <= 1) by nra.
    specialize (IH H').
    assert (X : (1 + e) * growth m <= (1 + e) * (1 + 2 * k * e))
      by (apply Qmult_le_l; lra).
    nra.
Qed.

Lemma tolerance_unfold (n : nat) :
  tolerance n == 2 * (inject_Z (Z.of_nat n) + 2) * EPSILON.
Proof.
  unfold tolerance.
  replace (Z.of_nat (2 * n + 4)) with (2 * (Z.of_nat n + 2))%Z by lia.
  now rewrite inject_Z_mult, inject_Z_plus.
Qed.

(** The same, as a relative tolerance: the two numbers differ by at most
    [tolerance n] times their sum. *)
Lemma summary_within_tolerance (s : State) :
  let expenses := filter isExpense (transactions s) in
  let total := totalExpensesOf expenses in
  let bars := updateSpendingSummary s in
  let n := List.length expenses in
  Forall (fun t => isNormal (amount t) = true) expenses ->
  Forall (fun t => inherited (category t) = false) expenses ->
  Number.isFinite total = true ->
  Forall (fun bar => inRange total bar = true) bars ->
  0 <= value total
  /\ 0 <= weightedBack total bars
  /\ weightedBack total bars - value total
     <= tolerance n * (weightedBack total bars + value total)
  /\ value total - weightedBack total bars
     <= tolerance n * (weightedBack total bars + value total).
Proof.
  cbv zeta; intros Hnormal Hplain Hfin Hrange.
  destruct (summary_sums_back s Hnormal Hplain Hfin Hrange) as [L U].
  set (expenses := filter isExpense (transactions s)) in *.
  set (total := totalExpensesOf expenses) in *.
  set (n := List.length expenses) in *.
  set (W := weightedBack total (updateSpendingSummary s)) in *.
  assert (VT : 0 <= value total).
  { assert (Hall : Forall normalPos (map absAmount expenses)).
    { apply Forall_forall; intros x Hx.
      apply in_map_iff in Hx as [t [<- Ht]]; apply isNormal_abs.
      now apply (proj1 (Forall_forall _ _) Hnormal). }
    unfold total in *; rewrite totalExpensesOf_sum in *.
    destruct (sum_error Hall Hfin) as [[Z|N] _].
    - rewrite Z; discriminate.
    - apply Qlt_le_weak, normalPos_value, N. }
  pose proof (shrink_range n) as [Sn0 Sn1].
  pose proof (shrink_range (n + 2)) as [Sm0 Sm1].
  pose proof (growth_ge_1 n) as Gn.
  pose proof (growth_ge_1 (n + 2)) as Gm.
  assert (W0 : 0 <= W).
  { assert (X : 0 <= shrink n * value total)
      by (apply Qmult_le_0_compat; lra).
    assert (Y : 0 <= growth (n + 2) * W) by lra.
    destruct (Qlt_le_dec W 0) as [Neg|]; [|assumption].
    exfalso.
    assert (Z : 0 < growth (n + 2) * (- W))
      by (apply Qmult_lt_0_compat; lra).
    lra. }
  split; [exact VT|]. split; [exact W0|].
  rewrite tolerance_unfold.
  pose proof EPSILON_pos as E0.
  pose proof (inject_nat_nonneg n) as N0.
  destruct (Qlt_le_dec (2 * (inject_Z (Z.of_nat n) + 2) * EPSILON) 1)
    as [Small|Large].
  - pose proof (shrink_linear n) as B1.
    pose proof (shrink_linear (n + 2)) as B2.
    assert (I2 : inject_Z (Z.of_nat (n + 2)) == inject_Z (Z.of_nat n) + 2).
    { rewrite Nat2Z.inj_add, inject_Z_plus; reflexivity. }
    rewrite I2 in B2.
    assert (B3 : growth n <= 1 + 2 * inject_Z (Z.of_nat n) * EPSILON).
    { apply growth_linear; nra. }
    assert (B4 : growth (n + 2)
                 <= 1 + 2 * inject_Z (Z.of_nat (n + 2)) * EPSILON).
    { apply growth_linear; rewrite I2; lra. }
    rewrite I2 in B4.
    set (k := inject_Z (Z.of_nat n)) in *; set (e := EPSILON) in *.
    set (T := value total) in *.
    clearbody k e T W.
    assert (X1 : (1 - (k + 2) * e) * W <= shrink (n + 2) * W)
      by (apply Qmult_le_compat_r; lra).
    assert (X2 : growth n * T <= (1 + 2 * k * e) * T)
      by (apply Qmult_le_compat_r; lra).
    assert (X3 : (1 - k * e) * T <= shrink n * T)
      by (apply Qmult_le_compat_r; lra).
    assert (X4 : growth (n + 2) * W <= (1 + 2 * (k + 2) * e) * W)
      by (apply Qmult_le_compat_r; lra).
    assert (K : 0 <= k * e) by (apply Qmult_le_0_compat; lra).
    assert (P1 : 0 <= k * e * W) by (apply Qmult_le_0_compat; lra).
    assert (P2 : 0 <= k * e * T) by (apply Qmult_le_0_compat; lra).
    assert (P3 : 0 <= e * W) by (apply Qmult_le_0_compat; lra).
    assert (P4 : 0 <= e * T) by (apply Qmult_le_0_compat; lra).
    set (a := shrink (n + 2) * W) in *. set (b := growth n * T) in *.
    set (c := shrink n * T) in *. set (d := growth (n + 2) * W) in *.
    clearbody a b c d.
    clear Sn0 Sn1 Sm0 Sm1 Gn Gm B1 B2 B3 B4 I2 Small.
    set (keW := k * e * W) in *. set (keT := k * e * T) in *.
    set (eW := e * W) in *. set (eT := e * T) in *.
    assert (Y1 : W - keW - 2 * eW <= a) by (unfold keW, eW; lra).
    assert (Y2 : b <= T + 2 * keT) by (unfold keT; lra).
    assert (Y3 : T - keT <= c) by (unfold keT; lra).
    assert (Y4 : d <= W + 2 * keW + 4 * eW) by (unfold keW, eW; lra).
    assert (G1 : 2 * (k + 2) * e * (W + T)
                 == 2 * keW + 2 * keT + 4 * eW + 4 * eT)
      by (unfold keW, keT, eW, eT; ring).
    rewrite G1.
    clearbody keW keT eW eT.
    split; lra.
  - set (tol := 2 * (inject_Z (Z.of_nat n) + 2) * EPSILON) in *.
    set (T := value total) in *.
    assert (X : 1 * (W + T) <= tol * (W + T))
      by (apply Qmult_le_compat_r; lra).
    split; lra.
Qed.

End SummaryTolerance.




(** An expense filed under ["__proto__"] counts in the total and gets no
    bar: assigning to that name of a plain object sets no property. *)
Example summary_of_proto :
  let t := sampleTransaction 1 "x" (Number.ofZ (-5)) "__proto__" "" in
  updateSpendingSummary (loadedState [t; groceries])
  = [barOf (Number.ofZ 155) ("Food", VNumber (Number.ofZ 150))]
  /\ totalExpensesOf (filter isExpense [t; groceries]) = Number.ofZ 155.
Proof. split; vm_compute; reflexivity. Qed.

(** Rent 1200 and groceries 150: 1350 of expenses, about 88.9% and 11.1%. *)
Example summary_of_rent_and_groceries :
  let bars := updateSpendingSummary (loadedState [groceries; rent]) in
  let percentage i := nth i (map barPercentage bars) Number.NaN in
  let tenths z := Number.ofZ z / Number.ofZ 10 in
  map barCategory bars = ["Food"; "Rent"]
  /\ map barAmount bars = [VNumber (Number.ofZ 150); VNumber (Number.ofZ 1200)]
  /\ Number.ltb (tenths 111%Z) (percentage 0%nat) = true
  /\ Number.ltb (percentage 0%nat) (tenths 112%Z) = true
  /\ Number.ltb (tenths 888%Z) (percentage 1%nat) = true
  /\ Number.ltb (percentage 1%nat) (tenths 889%Z) = true.
Proof. cbv zeta; repeat split; vm_compute; reflexivity. Qed.

(** With an expense under ["__proto__"] the weighted amounts do not sum
    back: the 5 units count in the total of 155 and in no group. *)
Example sum_back_misses_proto :
  let t := sampleTransaction 1 "x" (Number.ofZ (-5)) "__proto__" "" in
  let s := loadedState [t; groceries] in
  let total := totalExpensesOf (filter isExpense (transactions s)) in
  (Exact.value total == 155
   /\ weightedBack total (updateSpendingSummary s) < 151)%Q.
Proof. cbv zeta; split; vm_compute; reflexivity. Qed.

(** The exact values on examples. *)
Example exact_values :
  (Exact.value (Number.ofZ 150) == 150
   /\ Exact.value (Number.ofZ (-12)) == -12
   /\ Exact.value (Number.ofZ 3 / Number.ofZ 2)%num == 3 # 2
   /\ Exact.value Number.Infinity == 0
   /\ Exact.EPSILON == 1 # 4503599627370496
   /\ Exact.tolerance 4 == 12 # 4503599627370496)%Q.
Proof. repeat split. Qed.

(** Three categories with one unit each: every percentage is
    33.33333333333333, so that the weighted amounts sum to a little less
    than the total of 3, well within the tolerance. *)
Example weighted_amounts_of_thirds :
  let unit c := sampleTransaction 1 "x" (Number.ofZ (-1)) c "" in
  let s := loadedState [unit "A"; unit "B"; unit "C"] in
  let total := totalExpensesOf (filter isExpense (transactions s)) in
  let back := weightedBack total (updateSpendingSummary s) in
  (Exact.value total == 3
   /\ back < 3
   /\ 3 - back <= Exact.tolerance 3 * (back + 3)
   /\ 3 - back <= Exact.EPSILON * 3)%Q.
Proof.
  cbv zeta; repeat split; vm_compute; solve [reflexivity | discriminate].
Qed.

(** In binary64 the percentages need not add up to 100 exactly: three
    categories with one unit each give three times 33.33333333333333. *)
Example percentages_add_up_only_roughly :
  let unit c := sampleTransaction 1 "x" (Number.ofZ (-1)) c "" in
  let bars := updateSpendingSummary (loadedState [unit "A"; unit "B"; unit "C"]) in
  (sum (map barPercentage bars) === Number.ofZ 100) = false
  /\ Number.ltb (sum (map barPercentage bars)) (Number.ofZ 100) = true
  /\ Number.ltb (Number.ofZ 9999 / Number.ofZ 100) (sum (map barPercentage bars))
     = true.
Proof. cbv zeta; repeat split; vm_compute; reflexivity. Qed.

(** A category named like a property of [Object.prototype] does not get a
    sum: the inherited function is concatenated with the amount. *)
Example summary_of_inherited_name :
  let t := sampleTransaction 1 "x" (Number.ofZ (-5)) "toString" "" in
  map barAmount (updateSpendingSummary (loadedState [t])) = [VText]
  /\ map barPercentage (updateSpendingSummary (loadedState [t])) = [Number.NaN].
Proof. split; reflexivity. Qed.

(* ================================================================= *)
(** ** The data model's rule holds throughout a session *)

Section WellTypedFacts.

Variable timeValue : string -> option Z.

Lemma newTransaction_wellTyped (f : Submission) :
  rejectsInput f = false -> wellTyped (newTransaction f).
Proof.
  unfold rejectsInput; intros H.
  apply orb_false_iff in H as [H _]; apply orb_false_iff in H as [_ H].
  split; [exact H|reflexivity].
Qed.

Lemma put_wellTyped (t : Transaction) (records : list Transaction) :
  wellTyped t -> Forall wellTyped records ->
  Forall wellTyped (Store.put t records).
Proof.
  intros Ht; induction 1 as [|r records Hr Hrs IH]; simpl.
  - now constructor.
  - destruct (id r === id t); [now constructor|].
    destruct (Number.ltb (id t) (id r)).
    + constructor; [assumption|now constructor].
    + now constructor.
Qed.

Lemma filter_Forall (A : Type) (P : A -> Prop) (p : A -> bool) (l : list A) :
  Forall P l -> Forall P (filter p l).
Proof.
  intros H; apply Forall_forall; intros x Hx.
  apply filter_In in Hx as [Hx _].
  now apply (proj1 (Forall_forall _ _) H).
Qed.

Lemma handle_wellTyped (s : State) (e : Event) :
  opensWellTyped e -> allWellTyped s -> allWellTyped (handle timeValue s e).
Proof.
  unfold allWellTyped, storedRecords.
  intros He [Ht Hs].
  destruct e as [request durable|request durable|request|f request
                 |confirmed key request|request|searchValue]; simpl in *.
  - destruct request; simpl; auto.
  - destruct request; simpl; auto.
  - unfold loadTransactions.
    destruct (db s) as [records|] eqn:Hdb; [destruct request|]; simpl;
      rewrite ?Hdb; split; auto.
    apply (Permutation_Forall (Array_sort_perm _ _) Hs).
  - unfold addTransaction, saveTransaction.
    destruct (rejectsInput f) eqn:Hv; simpl; [auto|].
    pose proof (newTransaction_wellTyped f Hv) as Hn.
    destruct (db s) as [records|] eqn:Hdb; [destruct request|]; simpl;
      rewrite ?Hdb; split; auto using put_wellTyped.
  - unfold deleteClick, deleteTransaction.
    destruct confirmed; simpl; [|auto].
    destruct (db s) as [records|] eqn:Hdb; [destruct request|]; simpl;
      rewrite ?Hdb; split; auto; now apply filter_Forall.
  - unfold clearAllTransactions, clearAllTransactionsFromDB.
    destruct (db s) as [records|] eqn:Hdb; [destruct request|]; simpl;
      rewrite ?Hdb; split; auto.
  - unfold filterTransactions.
    destruct (Str.isEmpty _); simpl; auto.
Qed.

(** When the database only ever yields records that obey the data model,
    so does every state of the session. *)
Lemma run_wellTyped (events : list Event) :
  Forall opensWellTyped events ->
  allWellTyped (run timeValue events initialState).
Proof.
  assert (G : forall s, Forall opensWellTyped events -> allWellTyped s ->
                        allWellTyped (run timeValue events s)).
  { induction events as [|e events IH]; intros s He Hs; simpl; auto.
    inversion He; subst. apply IH; auto. now apply handle_wellTyped. }
  intros He; apply G; auto.
  split; constructor.
Qed.

End WellTypedFacts.

(* ================================================================= *)
(** ** Strings and numbers on examples *)

Example trim_pads : Str.trim "  Rent  " = "Rent".
Proof. reflexivity. Qed.

Example lower_mixed : Str.toLowerCase "Groceries & FOOD" = "groceries & food".
Proof. reflexivity. Qed.

Example includes_food : Str.includes "seafood" "food" = true.
Proof. reflexivity. Qed.

Example zero_is_income :
  typeOf Number.zero = "income" /\ typeOf (S754_zero true) = "income"
  /\ typeOf (Number.ofZ (-1)) = "expense" /\ typeOf Number.NaN = "expense".
Proof. repeat split. Qed.

Example salary_scenario :
  let s := fst (addTransaction (submission "Salary" (Number.ofZ 3500) "Income")
                  Succeeds (loadedState [])) in
  income (totals (transactions s)) = Number.ofZ 3500
  /\ map type (transactions s) = ["income"].
Proof. split; reflexivity. Qed.

(* ================================================================= *)
(** * Further properties of the script *)

(* ================================================================= *)
(** ** The type rule in a session *)

(** X1.  The type rule of the data model holds throughout a session: when
    the records found at each opening of the database have a numeric
    amount and the type derived from it, so has every transaction of the
    list, of the filtered list and of the store after any sequence of
    events, whatever the store requests do. *)
Theorem type_rule_in_session (timeValue : string -> option Z)
    (events : list Event) :
  Forall opensWellTyped events ->
  let s := run timeValue events initialState in
  Forall wellTyped (transactions s)
  /\ Forall wellTyped (filteredTransactions s)
  /\ Forall wellTyped (storedRecords s).
Proof.
  intros H; cbv zeta.
  destruct (run_wellTyped timeValue H) as [Ht Hs].
  split; [exact Ht|]. split; [|exact Hs].
  apply Forall_forall; intros t Hin.
  apply (proj1 (Forall_forall _ _) Ht).
  revert Hin; apply (run_view timeValue events (s := initialState)).
  apply incl_refl.
Qed.

Lemma type_rule_in_session_sample :
  let events := [Opened Succeeds [salary; rent];
                 Loaded Succeeds;
                 Submitted (submission "Coffee" (Number.ofZ (-3)) "Food")
                   Succeeds;
                 DeleteClicked true (id rent) Succeeds] in
  let s := run sampleTimeValue events initialState in
  Forall opensWellTyped events
  /\ Forall wellTyped (transactions s)
  /\ Forall wellTyped (filteredTransactions s)
  /\ Forall wellTyped (storedRecords s).
Proof.
  cbv zeta.
  assert (H : Forall opensWellTyped
                [Opened Succeeds [salary; rent];
                 Loaded Succeeds;
                 Submitted (submission "Coffee" (Number.ofZ (-3)) "Food")
                   Succeeds;
                 DeleteClicked true (id rent) Succeeds]).
  { repeat constructor. }
  split; [exact H|].
  exact (@type_rule_in_session sampleTimeValue _ H).
Defined.

(* ================================================================= *)
(** ** Memory and store *)

Section SyncFacts.

Variable timeValue : string -> option Z.

Lemma put_fresh_perm (t : Transaction) (records : list Transaction) :
  existsb (fun r => id r === id t) records = false ->
  Permutation (t :: records) (Store.put t records).
Proof.
  induction records as [|r records IH]; simpl; [reflexivity|].
  intros H; apply orb_false_iff in H as [Hr H]; rewrite Hr.
  destruct (Number.ltb (id t) (id r)); [reflexivity|].
  rewrite perm_swap; constructor; auto.
Qed.

Lemma filter_perm (A : Type) (p : A -> bool) (l l' : list A) :
  Permutation l l' -> Permutation (filter p l) (filter p l').
Proof.
  induction 1 as [|x l l' _ IH|x y l|l l' l'' _ IH1 _ IH2]; simpl.
  - constructor.
  - destruct (p x); [now constructor|assumption].
  - destruct (p x), (p y); try reflexivity. apply perm_swap.
  - now transitivity (filter p l').
Qed.

Lemma handle_inSync (s : State) (e : Event) :
  inSync s -> keepsSync s e -> inSync (handle timeValue s e).
Proof.
  unfold inSync, keepsSync, freshKey, storedRecords.
  destruct e as [request durable|request durable|request|f request
                 |confirmed key request|request|searchValue]; simpl.
  - tauto.
  - tauto.
  - unfold loadTransactions.
    destruct (db s) as [records|] eqn:Hdb; [destruct request|]; simpl;
      rewrite ?Hdb; try tauto.
    intros _ _; apply Array_sort_perm.
  - unfold addTransaction, saveTransaction.
    destruct (rejectsInput f); [tauto|].
    destruct (db s) as [records|] eqn:Hdb; [destruct request|]; simpl;
      rewrite ?Hdb; auto.
    intros Hp Hf.
    rewrite <- (put_fresh_perm (newTransaction f) records Hf).
    now constructor.
  - unfold deleteClick, deleteTransaction.
    destruct confirmed; [|tauto].
    destruct (db s) as [records|] eqn:Hdb; [destruct request|]; simpl;
      rewrite ?Hdb; auto.
    intros Hp _; now apply filter_perm.
  - unfold clearAllTransactions, clearAllTransactionsFromDB.
    destruct (db s) as [records|] eqn:Hdb; [destruct request|]; simpl;
      rewrite ?Hdb; auto.
  - unfold filterTransactions.
    destruct (Str.isEmpty _); simpl; tauto.
Qed.

End SyncFacts.

(** X2.  The list in memory and the store hold the same records: a
    successful load makes it so, and it stays so through every submission
    whose id is new to the store, every delete click, every clear and
    every search, whether the store requests succeed or fail. *)
Theorem memory_follows_store (timeValue : string -> option Z)
    (s : State) (e : Event) :
  inSync s -> keepsSync s e ->
  inSync (handle timeValue s e)
  /\ inSync (fst (loadTransactions timeValue Succeeds s)).
Proof.
  intros Hs He; split.
  - now apply handle_inSync.
  - apply (handle_inSync timeValue s (Loaded Succeeds) Hs I).
Qed.

Lemma memory_follows_store_sample :
  let s := loadedState [groceries; rent] in
  let e := Submitted (submission "Coffee" (Number.ofZ (-3)) "Food")
             Succeeds in
  inSync s /\ keepsSync s e
  /\ inSync (handle sampleTimeValue s e)
  /\ inSync (fst (loadTransactions sampleTimeValue Succeeds s)).
Proof.
  cbv zeta.
  assert (Hs : inSync (loadedState [groceries; rent])).
  { exact (Permutation_refl [groceries; rent]). }
  assert (He : keepsSync (loadedState [groceries; rent])
                 (Submitted (submission "Coffee" (Number.ofZ (-3)) "Food")
                    Succeeds)).
  { reflexivity. }
  split; [exact Hs|]. split; [exact He|].
  exact (memory_follows_store sampleTimeValue
           (loadedState [groceries; rent])
           (Submitted (submission "Coffee" (Number.ofZ (-3)) "Food")
              Succeeds) Hs He).
Defined.

(* ================================================================= *)
(** ** The delete button *)

Lemma strictEq_refl (x : Number.t) :
  Number.isNaN x = false -> (x === x) = true.
Proof.
  destruct x as [[]|[]| |[] m e]; simpl; try reflexivity; try discriminate;
    intros _; unfold Number.strictEq, SFeqb; simpl;
    now rewrite Z.compare_refl, Pos.compare_cont_refl.
Qed.

Lemma withoutId_In (key : Number.t) (t : Transaction)
    (l : list Transaction) :
  In t (withoutId key l) <-> In t l /\ (id t === key) = false.
Proof.
  unfold withoutId; now rewrite filter_In, negb_true_iff.
Qed.

Lemma deleteKeys_ids (s : State) :
  deleteKeys (renderTransactions s) = map id (filteredTransactions s).
Proof.
  unfold renderTransactions.
  destruct (filteredTransactions s) as [|t l]; simpl; [reflexivity|].
  now rewrite map_map.
Qed.

(** X3.  Every delete button on the page holds the id of a filtered
    transaction.  When the id is a number, the database is open and the
    request succeeds, a confirmed click leaves no transaction with that id
    in the list, in the filtered list, in the store or under a delete
    button, and keeps every transaction that has another id. *)
Theorem deleteClick_removes_rendered (key : Number.t) (s : State)
    (records : list Transaction) :
  In key (deleteKeys (renderTransactions s)) ->
  Number.isNaN key = false ->
  db s = Some records ->
  let s' := fst (deleteClick true key Succeeds s) in
  (exists t, In t (filteredTransactions s) /\ id t = key)
  /\ (forall t, id t = key ->
        ~ In t (transactions s') /\ ~ In t (filteredTransactions s')
        /\ ~ In t (storedRecords s'))
  /\ ~ In key (deleteKeys (renderTransactions s'))
  /\ (forall t, (id t === key) = false ->
        (In t (transactions s) -> In t (transactions s'))
        /\ (In t (filteredTransactions s) -> In t (filteredTransactions s'))
        /\ (In t records -> In t (storedRecords s'))).
Proof.
  intros Hkey Hnan Hdb; cbv zeta.
  pose proof (strictEq_refl key Hnan) as Hrefl.
  assert (Hs : fst (deleteClick true key Succeeds s)
               = deleteClick_deleted key
                   (setDb (Some (Store.delete key records)) s)).
  { unfold deleteClick, deleteTransaction; now rewrite Hdb. }
  rewrite Hs; unfold storedRecords; simpl.
  split; [|split; [|split]].
  - rewrite deleteKeys_ids in Hkey.
    apply in_map_iff in Hkey as [t [Ht Hin]]; now exists t.
  - intros t Ht; subst key.
    repeat split; intros H; [apply withoutId_In in H
                            |apply withoutId_In in H
                            |apply filter_In in H as [H1 H2];
                             apply negb_true_iff in H2];
      try destruct H as [_ H]; congruence.
  - rewrite deleteKeys_ids; simpl; intros H.
    apply in_map_iff in H as [t [Ht Hin]].
    apply withoutId_In in Hin as [_ Hin]; subst key; congruence.
  - intros t Ht; repeat split; intros H.
    + now apply withoutId_In.
    + now apply withoutId_In.
    + apply filter_In; split; [assumption|now apply negb_true_iff].
Qed.

Lemma deleteClick_removes_rendered_sample :
  let s := loadedState [groceries; rent; salary] in
  let key := id rent in
  let s' := fst (deleteClick true key Succeeds s) in
  In key (deleteKeys (renderTransactions s))
  /\ ~ In rent (transactions s')
  /\ ~ In key (deleteKeys (renderTransactions s'))
  /\ In groceries (transactions s').
Proof.
  cbv zeta.
  assert (H1 : In (id rent)
                 (deleteKeys
                    (renderTransactions
                       (loadedState [groceries; rent; salary])))).
  { right; left; reflexivity. }
  destruct (@deleteClick_removes_rendered (id rent)
              (loadedState [groceries; rent; salary])
              [groceries; rent; salary] H1 eq_refl eq_refl)
    as [_ [H2 [H3 H4]]].
  split; [exact H1|].
  split; [exact (proj1 (H2 rent eq_refl))|].
  split; [exact H3|].
  apply (proj1 (H4 groceries eq_refl)); left; reflexivity.
Defined.

(* ================================================================= *)
(** ** Searching, once more *)

Lemma filterTransactions_filtered (searchValue : string) (s : State) :
  filteredTransactions (filterTransactions searchValue s)
  = filter (matchesTerm (searchTermOf searchValue)) (transactions s).
Proof.
  unfold filterTransactions, searchTermOf.
  destruct (Str.isEmpty _) eqn:E; simpl; [|reflexivity].
  apply isEmpty_true in E; rewrite E.
  symmetry; apply filter_all; intros t.
  unfold matchesTerm; now rewrite includes_empty.
Qed.

Lemma filter_swap (A : Type) (p q : A -> bool) (l : list A) :
  filter p (filter q l) = filter q (filter p l).
Proof.
  induction l as [|x l IH]; simpl; [reflexivity|].
  destruct (p x) eqn:P, (q x) eqn:Q; simpl; rewrite ?P, ?Q, IH; reflexivity.
Qed.

(** X4.  A delete click does not disturb the search on display: when the
    filtered list is the result of a search before the click, it is the
    result of the same search over the new list after it, whether the
    click is confirmed or not and whether the store request succeeds or
    fails. *)
Theorem deleteClick_keeps_search (term : string) (confirmed : bool)
    (key : Number.t) (request : Request) (s : State) :
  showsSearch term s ->
  showsSearch term (fst (deleteClick confirmed key request s)).
Proof.
  unfold showsSearch, deleteClick, deleteTransaction; intros H.
  destruct confirmed; [|exact H].
  destruct (db s); [destruct request|]; simpl; try exact H.
  rewrite H; unfold withoutId; apply filter_swap.
Qed.

Lemma deleteClick_keeps_search_sample :
  let s := filterTransactions "food"
             (loadedState [seafood; groceries; rent]) in
  let s' := fst (deleteClick true (id seafood) Succeeds s) in
  showsSearch "food" s
  /\ showsSearch "food" s'
  /\ filteredTransactions s' = [groceries].
Proof.
  cbv zeta.
  assert (H : showsSearch "food"
                (filterTransactions "food"
                   (loadedState [seafood; groceries; rent]))).
  { reflexivity. }
  split; [exact H|].
  split; [|reflexivity].
  exact (@deleteClick_keeps_search "food" true (id seafood) Succeeds
           (filterTransactions "food"
              (loadedState [seafood; groceries; rent])) H).
Defined.

Lemma Substring_trans (a b c : string) :
  Substring a b -> Substring b c -> Substring a c.
Proof.
  intros [p1 [q1 H1]] [p2 [q2 H2]]; subst.
  exists (p2 ++ p1)%string, (q1 ++ q2)%string.
  induction p2 as [|x p2 IH]; simpl.
  - clear; induction p1 as [|x p1 IH]; simpl; [|now rewrite IH].
    clear; induction a as [|x a IH]; simpl; [|now rewrite IH].
    reflexivity.
  - now rewrite IH.
Qed.

Lemma termMatch_narrows (term1 term2 : string) (t : Transaction) :
  Substring term1 term2 -> termMatch term2 t -> termMatch term1 t.
Proof.
  intros H [H2|[H2|H2]]; [left|right; left|right; right];
    eapply Substring_trans; eassumption.
Qed.

(** X5.  Typing more narrows the result: when the term of one search
    occurs in the term of another, every transaction the second search
    shows is shown by the first. *)
Theorem filterTransactions_narrows (value1 value2 : string) (s : State) :
  Substring (searchTermOf value1) (searchTermOf value2) ->
  incl (filteredTransactions (filterTransactions value2 s))
       (filteredTransactions (filterTransactions value1 s)).
Proof.
  intros H t; rewrite !filterTransactions_filtered, !filter_In.
  intros [Hin Hm]; split; [assumption|].
  apply matchesTerm_spec; apply matchesTerm_spec in Hm.
  eapply termMatch_narrows; eassumption.
Qed.

Lemma filterTransactions_narrows_sample :
  let s := loadedState [seafood; groceries; rent; salary] in
  Substring (searchTermOf "Foo") (searchTermOf " seaFOOD ")
  /\ incl (filteredTransactions (filterTransactions " seaFOOD " s))
          (filteredTransactions (filterTransactions "Foo" s))
  /\ filteredTransactions (filterTransactions " seaFOOD " s) = [seafood]
  /\ filteredTransactions (filterTransactions "Foo" s) = [seafood; groceries].
Proof.
  cbv zeta.
  assert (H : Substring (searchTermOf "Foo") (searchTermOf " seaFOOD ")).
  { exists "sea", "d"; reflexivity. }
  split; [exact H|].
  split; [|split; reflexivity].
  exact (@filterTransactions_narrows "Foo" " seaFOOD "
           (loadedState [seafood; groceries; rent; salary]) H).
Defined.

(* ================================================================= *)
(** ** Case and padding of the search value *)

Lemma lowerChar_idempotent (c : ascii) :
  Str.lowerChar (Str.lowerChar c) = Str.lowerChar c.
Proof. destruct c as [[] [] [] [] [] [] [] []]; reflexivity. Qed.

Lemma lowerChar_whiteSpace (c : ascii) :
  Str.isWhiteSpace c = true -> Str.lowerChar c = c.
Proof.
  destruct c as [[] [] [] [] [] [] [] []]; intros H;
    solve [reflexivity | discriminate H].
Qed.

Lemma toLowerCase_idempotent (s : string) :
  Str.toLowerCase (Str.toLowerCase s) = Str.toLowerCase s.
Proof.
  induction s as [|c s IH]; simpl; [reflexivity|].
  now rewrite lowerChar_idempotent, IH.
Qed.

Lemma toLowerCase_app (s1 s2 : string) :
  Str.toLowerCase (s1 ++ s2)
  = (Str.toLowerCase s1 ++ Str.toLowerCase s2)%string.
Proof. induction s1 as [|c s1 IH]; simpl; [reflexivity|now rewrite IH]. Qed.

Lemma toLowerCase_whiteSpace (pad : string) :
  allWhiteSpace pad = true -> Str.toLowerCase pad = pad.
Proof.
  induction pad as [|c pad IH]; simpl; [reflexivity|].
  intros H; apply andb_true_iff in H as [Hc H].
  now rewrite (lowerChar_whiteSpace c Hc), IH.
Qed.

Lemma trimStart_pad (pad s : string) :
  allWhiteSpace pad = true -> Str.trimStart (pad ++ s) = Str.trimStart s.
Proof.
  induction pad as [|c pad IH]; simpl; [reflexivity|].
  intros H; apply andb_true_iff in H as [-> H]; auto.
Qed.

Lemma trimEnd_whiteSpace (pad : string) :
  allWhiteSpace pad = true -> Str.trimEnd pad = "".
Proof.
  induction pad as [|c pad IH]; simpl; [reflexivity|].
  intros H; apply andb_true_iff in H as [-> H].
  now rewrite (IH H).
Qed.

Lemma trimEnd_pad (s pad : string) :
  allWhiteSpace pad = true -> Str.trimEnd (s ++ pad) = Str.trimEnd s.
Proof.
  intros H; induction s as [|c s IH]; simpl.
  - now apply trimEnd_whiteSpace.
  - now rewrite IH.
Qed.

Lemma trimStart_trimEnd_pad (s pad : string) :
  allWhiteSpace pad = true ->
  Str.trimEnd (Str.trimStart (s ++ pad)) = Str.trimEnd (Str.trimStart s).
Proof.
  intros H; induction s as [|c s IH]; simpl.
  - assert (E : Str.trimStart pad = "").
    { clear -H; induction pad as [|c pad IH]; simpl in *; [reflexivity|].
      apply andb_true_iff in H as [-> H]; auto. }
    now rewrite E.
  - destruct (Str.isWhiteSpace c); [exact IH|].
    apply (trimEnd_pad (String c s) pad H).
Qed.

Lemma searchTermOf_padded (pad1 pad2 value : string) :
  allWhiteSpace pad1 = true -> allWhiteSpace pad2 = true ->
  searchTermOf (pad1 ++ value ++ pad2) = searchTermOf value.
Proof.
  intros H1 H2; unfold searchTermOf, Str.trim.
  rewrite !toLowerCase_app, (toLowerCase_whiteSpace pad1 H1),
    (toLowerCase_whiteSpace pad2 H2), (trimStart_pad pad1 _ H1).
  now apply trimStart_trimEnd_pad.
Qed.

(** X6.  The search does not depend on the letter case of what is typed
    nor on white space around it: a search value, the same value in lower
    case, and the same value between runs of white space give the same
    state. *)
Theorem filterTransactions_case_and_padding (pad1 pad2 value : string)
    (s : State) :
  allWhiteSpace pad1 = true -> allWhiteSpace pad2 = true ->
  filterTransactions (Str.toLowerCase value) s = filterTransactions value s
  /\ filterTransactions (pad1 ++ value ++ pad2) s
     = filterTransactions value s.
Proof.
  intros H1 H2; unfold filterTransactions; split.
  - now rewrite toLowerCase_idempotent.
  - fold (searchTermOf (pad1 ++ value ++ pad2)) (searchTermOf value).
    now rewrite (searchTermOf_padded pad1 pad2 value H1 H2).
Qed.

Lemma filterTransactions_case_and_padding_sample :
  let s := loadedState [seafood; groceries; rent] in
  allWhiteSpace "  " = true /\ allWhiteSpace " " = true
  /\ filterTransactions (Str.toLowerCase "FOOD") s = filterTransactions "FOOD" s
  /\ filterTransactions ("  " ++ "FOOD" ++ " ") s = filterTransactions "FOOD" s.
Proof.
  cbv zeta; split; [reflexivity|]. split; [reflexivity|].
  exact (@filterTransactions_case_and_padding "  " " " "FOOD"
           (loadedState [seafood; groceries; rent]) eq_refl eq_refl).
Defined.

(* ================================================================= *)
(** ** Feedback *)

Section FeedbackFacts.

Variable timeValue : string -> option Z.

Lemma handle_feedback (s : State) (e : Event) :
  feedbackCount (handle timeValue s e)
  = (feedbackCount s + if answered e then 1 else 0)%nat.
Proof.
  unfold feedbackCount.
  destruct e as [request durable|request durable|request|f request
                 |confirmed key request|request|searchValue]; simpl.
  - destruct request; simpl; lia.
  - destruct request; simpl; lia.
  - unfold loadTransactions.
    destruct (db s); [destruct request|]; simpl; lia.
  - unfold addTransaction, saveTransaction.
    destruct (rejectsInput f); simpl;
      [rewrite length_app; simpl; lia|].
    destruct (db s); [destruct request|]; simpl;
      rewrite length_app; simpl; lia.
  - unfold deleteClick, deleteTransaction.
    destruct confirmed; [|simpl; lia].
    destruct (db s); [destruct request|]; simpl;
      rewrite length_app; simpl; lia.
  - unfold clearAllTransactions, clearAllTransactionsFromDB.
    destruct (db s); [destruct request|]; simpl;
      rewrite length_app; simpl; lia.
  - unfold filterTransactions.
    destruct (Str.isEmpty _); simpl; lia.
Qed.

End FeedbackFacts.

(** X7.  No action of the user goes unanswered and nothing else speaks:
    over any session, the alerts and notifications shown number exactly
    the submissions, the confirmed delete clicks and the clears, whatever
    the store did; opening, loading, searching and an unconfirmed delete
    click show nothing. *)
Theorem feedback_per_action (timeValue : string -> option Z)
    (events : list Event) (s : State) :
  feedbackCount (run timeValue events s)
  = (feedbackCount s + List.length (filter answered events))%nat.
Proof.
  revert s; induction events as [|e events IH]; intros s; simpl; [lia|].
  change (run timeValue (e :: events) s)
    with (run timeValue events (handle timeValue s e)).
  rewrite IH, handle_feedback.
  destruct (answered e); simpl; lia.
Qed.

(* ================================================================= *)
(** ** Newest first *)

Section OrderFacts.

Variable timeValue : string -> option Z.

Lemma notOlder_trans (a b c : Transaction) :
  notOlder timeValue a b -> notOlder timeValue b c -> notOlder timeValue a c.
Proof.
  intros [ta [tb [Ha [Hb Hab]]]] [tb' [tc [Hb' [Hc Hbc]]]].
  rewrite Hb in Hb'; injection Hb' as <-.
  exists ta, tc; repeat split; auto; lia.
Qed.

Lemma newestFirst_filter (p : Transaction -> bool) (l : list Transaction) :
  newestFirst timeValue l -> newestFirst timeValue (filter p l).
Proof.
  unfold newestFirst; induction 1 as [|t l Hs IH Hall]; simpl.
  - constructor.
  - destruct (p t); [|assumption].
    constructor; [assumption|].
    apply Forall_forall; intros x Hx; apply filter_In in Hx as [Hx _].
    now apply (proj1 (Forall_forall _ _) Hall).
Qed.

Lemma newestFirst_sort (l : list Transaction) :
  Forall (validDate timeValue) l ->
  newestFirst timeValue (Array_sort (byDateDescending timeValue) l).
Proof.
  intros H; apply Sorted_StronglySorted.
  - intros a b c; apply notOlder_trans.
  - now apply sort_byDate_Sorted.
Qed.

Lemma newestFirst_cons (t : Transaction) (l : list Transaction) :
  newestFirst timeValue l ->
  match l with
  | [] => True
  | first :: _ => notOlder timeValue t first
  end ->
  newestFirst timeValue (t :: l).
Proof.
  unfold newestFirst; intros Hl Ht; constructor; [assumption|].
  destruct l as [|first rest]; constructor; [assumption|].
  inversion Hl as [|? ? _ Hall]; subst.
  eapply Forall_impl; [|exact Hall].
  intros x Hx; now apply notOlder_trans with first.
Qed.

Lemma handle_ordered (s : State) (e : Event) :
  orderedLists timeValue s -> keepsOrder timeValue s e ->
  orderedLists timeValue (handle timeValue s e).
Proof.
  unfold orderedLists, keepsOrder, clockAhead, storedRecords.
  intros [Ht Hf].
  assert (Hnil : newestFirst timeValue []) by constructor.
  destruct e as [request durable|request durable|request|f request
                 |confirmed key request|request|searchValue]; simpl.
  - destruct request; simpl; auto.
  - destruct request; simpl; auto.
  - unfold loadTransactions.
    destruct (db s) as [records|]; [destruct request|]; simpl; auto.
    intros Hv; split; now apply newestFirst_sort.
  - unfold addTransaction, saveTransaction.
    destruct (rejectsInput f); simpl; auto.
    destruct (db s) as [records|]; [destruct request|]; simpl; auto.
    intros Hc; split; now apply newestFirst_cons.
  - unfold deleteClick, deleteTransaction.
    destruct confirmed; simpl; auto.
    destruct (db s) as [records|]; [destruct request|]; simpl; auto.
    intros _; split; now apply newestFirst_filter.
  - unfold clearAllTransactions, clearAllTransactionsFromDB.
    destruct (db s) as [records|]; [destruct request|]; simpl; auto.
  - unfold filterTransactions.
    destruct (Str.isEmpty _); simpl; auto.
    intros _; split; [assumption|now apply newestFirst_filter].
Qed.

End OrderFacts.

(** X8.  The order of display is kept: when in both lists no transaction
    is older than any after it, the same holds after every event, provided
    a load finds valid dates in the store and a submission is not dated
    before the first transaction of the list.  In particular a delete
    click and a search never disturb the order. *)
Theorem newest_first_is_kept (timeValue : string -> option Z)
    (s : State) (e : Event) :
  orderedLists timeValue s -> keepsOrder timeValue s e ->
  orderedLists timeValue (handle timeValue s e).
Proof. apply handle_ordered. Qed.

Lemma newest_first_is_kept_sample :
  let s := fst (loadTransactions sampleTimeValue Succeeds
                  (setLists [] [] (loadedState [salary; rent; groceries]))) in
  let e := Submitted (submission "Coffee" (Number.ofZ (-3)) "Food")
             Succeeds in
  orderedLists sampleTimeValue s /\ keepsOrder sampleTimeValue s e
  /\ orderedLists sampleTimeValue (handle sampleTimeValue s e).
Proof.
  cbv zeta.
  assert (Hv : Forall (validDate sampleTimeValue) [salary; rent; groceries]).
  { repeat constructor; discriminate. }
  assert (Hs : orderedLists sampleTimeValue
                 (fst (loadTransactions sampleTimeValue Succeeds
                         (setLists [] []
                            (loadedState [salary; rent; groceries]))))).
  { split; exact (newestFirst_sort Hv). }
  assert (He : keepsOrder sampleTimeValue
                 (fst (loadTransactions sampleTimeValue Succeeds
                         (setLists [] []
                            (loadedState [salary; rent; groceries]))))
                 (Submitted (submission "Coffee" (Number.ofZ (-3)) "Food")
                    Succeeds)).
  { exists 1709974800000%Z, 1709456400000%Z.
    repeat split; try reflexivity. intros H; discriminate H. }
  split; [exact Hs|]. split; [exact He|].
  exact (@newest_first_is_kept sampleTimeValue _ _ Hs He).
Defined.

(* ================================================================= *)
(** ** The sample data *)

Section SampleFacts.

Variable env : SampleEnv.

Lemma saveSamples_closed (rows : list (string * Number.t * string))
    (i : nat) (s : State) :
  db s = None ->
  saveSamples env i rows s
  = (s, match rows with
        | [] => Fulfilled
        | _ => Rejected "IndexedDB not initialized"
        end).
Proof.
  intros H; destruct rows as [|row rows]; simpl; [reflexivity|].
  unfold saveTransaction; now rewrite H.
Qed.

Lemma saveSamples_open (rows : list (string * Number.t * string))
    (i : nat) (s : State) (records : list Transaction) :
  db s = Some records ->
  let k := leadingSuccesses env i (List.length rows) in
  let r := saveSamples env i rows s in
  transactions (fst r)
  = (transactions s ++ builtFrom env i (firstn k rows))%list
  /\ filteredTransactions (fst r) = filteredTransactions s
  /\ db (fst r) = Some (putAll (builtFrom env i (firstn k rows)) records)
  /\ notifications (fst r) = notifications s
  /\ alerts (fst r) = alerts s
  /\ (snd r = Fulfilled <-> k = List.length rows).
Proof.
  cbv zeta; revert i s records.
  induction rows as [|row rows IH]; intros i s records Hdb; simpl.
  - rewrite app_nil_r; repeat split; auto.
  - unfold saveTransaction; rewrite Hdb.
    destruct (sampleRequest env i) as [|error|error]; simpl.
    + set (s1 := setLists _ _ _).
      assert (Hdb1 : db s1 = Some (Store.put (fullTransaction env i row)
                                     records)) by reflexivity.
      destruct (IH (S i) s1 _ Hdb1) as [H1 [H2 [H3 [H4 [H5 H6]]]]].
      rewrite H1, H2, H3, H4, H5; simpl.
      rewrite <- app_assoc; simpl.
      repeat split; auto; try (apply H6); intros H.
      * f_equal; now apply H6.
      * apply H6; now injection H.
    + rewrite app_nil_r; repeat split; auto; discriminate.
    + rewrite app_nil_r; repeat split; auto; discriminate.
Qed.

Lemma builtFrom_wellTyped (rows : list (string * Number.t * string))
    (i : nat) :
  Forall (fun row => Number.isNaN (snd (fst row)) = false) rows ->
  Forall wellTyped (builtFrom env i rows).
Proof.
  intros H; revert i; induction H as [|row rows Hr _ IH]; intros i; simpl;
    constructor; auto.
  split; [exact Hr|reflexivity].
Qed.

Lemma putAll_wellTyped (l records : list Transaction) :
  Forall wellTyped l -> Forall wellTyped records ->
  Forall wellTyped (putAll l records).
Proof.
  intros Hl; revert records; induction Hl as [|t l Ht _ IH];
    intros records Hr; simpl; auto.
  apply IH; now apply put_wellTyped.
Qed.

Lemma sampleRows_numeric :
  Forall (fun row => Number.isNaN (snd (fst row)) = false) sampleRows.
Proof. repeat constructor. Qed.

Lemma firstn_Forall (A : Type) (P : A -> Prop) (n : nat) (l : list A) :
  Forall P l -> Forall P (firstn n l).
Proof.
  intros H; revert n; induction H as [|x l Hx _ IH]; intros [|n]; simpl;
    constructor; auto.
Qed.

End SampleFacts.

(** X9.  On an empty list with the database open, [addSampleData] writes
    the samples in the order of its array until a write is refused: the
    list and the store receive exactly the samples written before that,
    the list in array order.  When all eight are written the filtered list
    is made equal to the list and the success notification is shown;
    otherwise the filtered list is left as it was and the error
    notification is shown.  The promise is fulfilled either way. *)
Theorem addSampleData_writes_a_prefix (env : SampleEnv) (s : State)
    (records : list Transaction) :
  transactions s = [] -> db s = Some records ->
  let k := leadingSuccesses env 0 8 in
  let written := builtFrom env 0 (firstn k sampleRows) in
  let r := addSampleData env s in
  transactions (fst r) = written
  /\ db (fst r) = Some (putAll written records)
  /\ filteredTransactions (fst r)
     = (if (k =? 8)%nat then written else filteredTransactions s)
  /\ notifications (fst r)
     = (notifications s
        ++ [if (k =? 8)%nat
            then ("Sample data loaded. Try the search and clear features!",
                  "success")
            else ("Error loading sample data.", "error")])%list
  /\ snd r = Fulfilled.
Proof.
  intros Ht Hdb; cbv zeta.
  destruct (saveSamples_open env sampleRows 0 s Hdb)
    as [H1 [H2 [H3 [H4 [_ H6]]]]].
  change (List.length sampleRows) with 8%nat in H1, H3, H6.
  rewrite Ht in H1; change ([] ++ ?x)%list with x in H1.
  remember (leadingSuccesses env 0 8) as k eqn:Hk; clear Hk.
  unfold addSampleData; rewrite Ht.
  change (0 <? List.length (@nil Transaction))%nat with false; cbv iota.
  destruct (saveSamples env 0 sampleRows s) as [s' [|reason]];
    cbn [fst snd] in H1, H2, H3, H4, H6.
  - assert (E : k = 8%nat) by now apply H6.
    subst k; change (8 =? 8)%nat with true; cbv iota.
    cbn [fst snd showNotification setLists transactions
         filteredTransactions db notifications].
    now rewrite H1, H3, H4.
  - destruct (k =? 8)%nat eqn:E.
    + apply Nat.eqb_eq in E; apply H6 in E; discriminate.
    + cbn [fst snd showNotification transactions filteredTransactions db
           notifications].
      now rewrite H1, H2, H3, H4.
Qed.

Lemma addSampleData_writes_a_prefix_sample :
  let s := loadedState [] in
  let r := addSampleData (sampleEnv 2) s in
  leadingSuccesses (sampleEnv 2) 0 8 = 2%nat
  /\ transactions (fst r)
     = builtFrom (sampleEnv 2) 0 (firstn 2 sampleRows)
  /\ map name (transactions (fst r)) = ["Salary"; "Rent"]
  /\ filteredTransactions (fst r) = []
  /\ snd r = Fulfilled.
Proof.
  cbv zeta.
  destruct (@addSampleData_writes_a_prefix (sampleEnv 2) (loadedState []) []
              eq_refl eq_refl) as [H1 [_ [H3 [_ H5]]]].
  split; [reflexivity|]. split; [exact H1|].
  split; [reflexivity|]. split; [exact H3|exact H5].
Defined.

(** X10.  [addSampleData] leaves a list that already has transactions
    exactly as it is; and from any state it keeps the filtered list within
    the list and keeps the type rule of the data model, however many of
    its writes succeed. *)
Theorem addSampleData_is_safe (env : SampleEnv) (s : State) :
  viewWithin s -> allWellTyped s ->
  (transactions s <> [] -> addSampleData env s = (s, Fulfilled))
  /\ viewWithin (fst (addSampleData env s))
  /\ allWellTyped (fst (addSampleData env s)).
Proof.
  intros Hv [Hw Hs].
  destruct (transactions s) as [|t ts] eqn:Ht.
  - split; [congruence|].
    assert (Hf : filteredTransactions s = []).
    { unfold viewWithin in Hv; rewrite Ht in Hv.
      now apply incl_l_nil. }
    unfold addSampleData; rewrite Ht; simpl Nat.ltb; cbv iota.
    destruct (db s) as [records|] eqn:Hdb.
    + destruct (saveSamples_open env sampleRows 0 s Hdb)
        as [H1 [H2 [H3 [_ [_ _]]]]].
      rewrite Ht in H1; simpl app in H1; rewrite Hf in H2.
      assert (Hb : Forall wellTyped
                     (builtFrom env 0
                        (firstn (leadingSuccesses env 0
                                   (List.length sampleRows)) sampleRows))).
      { apply builtFrom_wellTyped, firstn_Forall, sampleRows_numeric. }
      assert (Hp : Forall wellTyped
                     (putAll
                        (builtFrom env 0
                           (firstn (leadingSuccesses env 0
                                      (List.length sampleRows)) sampleRows))
                        records)).
      { apply putAll_wellTyped; [exact Hb|].
        unfold storedRecords in Hs; now rewrite Hdb in Hs. }
      destruct (saveSamples env 0 sampleRows s) as [s' [|reason]];
        unfold viewWithin, allWellTyped, storedRecords; simpl in *;
        rewrite ?H1, ?H2, ?H3; repeat split; auto using incl_refl.
      intros x [].
    + rewrite (saveSamples_closed env sampleRows 0 s Hdb); simpl.
      unfold viewWithin, allWellTyped, storedRecords; simpl.
      rewrite Ht, Hf, Hdb; repeat split; auto using incl_refl.
  - split; [intros _; unfold addSampleData; now rewrite Ht|].
    unfold addSampleData; rewrite Ht; simpl.
    split; [exact Hv|]. split; [now rewrite Ht|exact Hs].
Qed.

Lemma addSampleData_is_safe_sample :
  let s := loadedState [groceries; rent] in
  viewWithin s /\ allWellTyped s
  /\ transactions s <> []
  /\ addSampleData (sampleEnv 99) s = (s, Fulfilled)
  /\ viewWithin (fst (addSampleData (sampleEnv 99) s)).
Proof.
  cbv zeta.
  assert (Hv : viewWithin (loadedState [groceries; rent]))
    by apply incl_refl.
  assert (Hw : allWellTyped (loadedState [groceries; rent])).
  { split; simpl; repeat constructor. }
  assert (Hn : transactions (loadedState [groceries; rent]) <> [])
    by discriminate.
  destruct (@addSampleData_is_safe (sampleEnv 99)
              (loadedState [groceries; rent]) Hv Hw) as [H1 [H2 _]].
  split; [exact Hv|]. split; [exact Hw|]. split; [exact Hn|].
  split; [exact (H1 Hn)|exact H2].
Defined.

(* ================================================================= *)
(** ** Start-up *)

(** X11.  [init] reaches [setupEventListeners] exactly when its promise is
    fulfilled, and that is exactly when the database opens and the stored
    records are read: a fulfilled [init] has every stored record in the
    list, so it never hides a failure behind an empty list.  When the read
    is refused the lists are empty, and when the read throws they are as
    they were; either way [init] is rejected with the error.  When the
    open is refused [init] is rejected with the error, the lists are as
    they were and [db] is assigned only if the upgrade handler has run;
    when [indexedDB.open] throws the state is untouched.  [init] itself
    shows no alert and no notification. *)
Theorem init_outcomes (timeValue : string -> option Z) (upgrade : bool)
    (openRequest loadRequest : Request) (durable : list Transaction)
    (s : State) :
  let r := init timeValue upgrade openRequest durable loadRequest s in
  let s' := fst (fst r) in
  (snd r = true <-> snd (fst r) = Fulfilled)
  /\ (snd (fst r) = Fulfilled
      <-> openRequest = Succeeds /\ loadRequest = Succeeds)
  /\ notifications s' = notifications s
  /\ alerts s' = alerts s
  /\ match openRequest, loadRequest with
     | Succeeds, Succeeds =>
         db s' = Some durable
         /\ Permutation durable (transactions s')
         /\ filteredTransactions s' = transactions s'
     | Succeeds, Fails error =>
         db s' = Some durable
         /\ transactions s' = [] /\ filteredTransactions s' = []
         /\ snd (fst r) = Rejected error
     | Succeeds, Throws error =>
         db s' = Some durable
         /\ transactions s' = transactions s
         /\ filteredTransactions s' = filteredTransactions s
         /\ snd (fst r) = Rejected error
     | Fails error, _ =>
         db s' = (if upgrade then Some durable else db s)
         /\ transactions s' = transactions s
         /\ filteredTransactions s' = filteredTransactions s
         /\ snd (fst r) = Rejected error
     | Throws error, _ => s' = s /\ snd (fst r) = Rejected error
     end.
Proof.
  cbv zeta; unfold init, initIndexedDB, onupgradeneeded, loadTransactions.
  destruct openRequest as [|e1|e1];
    [destruct loadRequest as [|e2|e2]| |]; destruct upgrade; simpl;
    repeat split; auto; try discriminate;
    try (intros [H1 H2]; discriminate).
  all: apply Array_sort_perm.
Qed.

(** An open that is refused once the upgrade has started leaves [db]
    assigned; refused before any upgrade, it leaves [db] [undefined]. *)
Example init_refused_open :
  db (fst (fst (init sampleTimeValue true (Fails "AbortError") []
                  Succeeds initialState))) = Some []
  /\ db (fst (fst (init sampleTimeValue false (Fails "VersionError") []
                     Succeeds initialState))) = None.
Proof. split; reflexivity. Qed.

(* ================================================================= *)
(** ** The amount on display *)

Lemma abs_of_geb_zero (a : Number.t) :
  (a >=? Number.zero) = true -> (Number.abs a === a) = true.
Proof.
  destruct a as [[]|[]| |[] m e]; simpl; try reflexivity; try discriminate.
  intros _; unfold Number.strictEq, SFeqb; simpl.
  now rewrite Z.compare_refl, Pos.compare_cont_refl.
Qed.

Lemma abs_of_negative (a : Number.t) :
  Number.isNaN a = false -> (a >=? Number.zero) = false ->
  negate (Number.abs a) = a /\ Number.ltb a Number.zero = true.
Proof.
  destruct a as [[]|[]| |[] m e]; simpl; try discriminate; auto.
Qed.

(** X12.  The sign and the magnitude on display give the amount back.
    For a transaction that obeys the data model, when [amount >= 0] the
    element has class [income], sign [+] and shows a magnitude equal to
    the amount; otherwise it has class [expense], sign [-] and the amount
    is the negation of the magnitude shown.  The magnitude is never
    negative. *)
Theorem createTransactionElement_sign (t : Transaction) :
  wellTyped t ->
  let e := createTransactionElement t in
  (amountShown e >=? Number.zero) = true
  /\ if amount t >=? Number.zero
     then amountSign e = "+" /\ amountClass e = "income"
          /\ elementClass e = "transaction-item income"
          /\ (amountShown e === amount t) = true
     else amountSign e = "-" /\ amountClass e = "expense"
          /\ elementClass e = "transaction-item expense"
          /\ negate (amountShown e) = amount t
          /\ Number.ltb (amount t) Number.zero = true.
Proof.
  intros [Hn Ht]; cbv zeta.
  unfold createTransactionElement, isIncome; simpl; rewrite Ht.
  split; [now apply NumberFacts.positive0_geb, NumberFacts.abs_positive0|].
  unfold typeOf; destruct (amount t >=? Number.zero) eqn:E; simpl.
  - repeat split; now apply abs_of_geb_zero.
  - destruct (abs_of_negative (amount t) Hn E); repeat split; assumption.
Qed.

Lemma createTransactionElement_sign_sample :
  wellTyped rent
  /\ amountSign (createTransactionElement rent) = "-"
  /\ negate (amountShown (createTransactionElement rent)) = amount rent.
Proof.
  assert (H : wellTyped rent) by (split; reflexivity).
  split; [exact H|].
  destruct (createTransactionElement_sign H) as [_ H2].
  change (amount rent >=? Number.zero) with false in H2; cbv iota in H2.
  destruct H2 as [H2 [_ [_ [H3 _]]]].
  split; [exact H2|exact H3].
Defined.

(* ================================================================= *)
(** ** Colours and icons *)

Lemma ownText_listed (k : string) :
  (In k listedCategories ->
   exists c i, ownText colors k = Some c /\ ownText icons k = Some i
               /\ Str.isEmpty c = false /\ Str.isEmpty i = false
               /\ c <> "#94a3b8" /\ i <> "tag"
               /\ JsObject.inherited k = false)
  /\ (~ In k listedCategories ->
      ownText colors k = None /\ ownText icons k = None).
Proof.
  split.
  - intros H; simpl in H.
    repeat (destruct H as [<-|H];
            [do 2 eexists; repeat split; try reflexivity; discriminate|]).
    destruct H.
  - intros H; simpl in H.
    assert (N : forall x, In x listedCategories -> String.eqb k x = false).
    { intros x Hx; apply String.eqb_neq; intros ->; now apply H. }
    unfold colors, icons; simpl.
    rewrite !N; auto; simpl; tauto.
Qed.

(** X13.  [getCategoryColor] and [getCategoryIcon] treat every category
    alike.  For the five listed categories both give the listed string:
    Food has ['#10b981'] and ['utensils'], Rent ['#6366f1'] and ['home'],
    Fun ['#8b5cf6'] and ['gamepad'], Income ['#06b6d4'] and
    ['money-bill-wave'], Other ['#f59e0b'] and ['shopping-bag']; none of
    these is the fallback.  For a category that is a property name of
    [Object.prototype] neither gives a string, the inherited function or
    object passing the [||] test; for every other category both give the
    fallback, ['#94a3b8'] and ['tag']. *)
Theorem category_colour_and_icon (category : string) :
  (getCategoryColor "Food" = Text "#10b981"
   /\ getCategoryIcon "Food" = Text "utensils")
  /\ (getCategoryColor "Rent" = Text "#6366f1"
      /\ getCategoryIcon "Rent" = Text "home")
  /\ (getCategoryColor "Fun" = Text "#8b5cf6"
      /\ getCategoryIcon "Fun" = Text "gamepad")
  /\ (getCategoryColor "Income" = Text "#06b6d4"
      /\ getCategoryIcon "Income" = Text "money-bill-wave")
  /\ (getCategoryColor "Other" = Text "#f59e0b"
      /\ getCategoryIcon "Other" = Text "shopping-bag")
  /\ (if existsb (String.eqb category)
           ["Food"; "Rent"; "Fun"; "Income"; "Other"]
      then
        exists c i, getCategoryColor category = Text c
                    /\ getCategoryIcon category = Text i
                    /\ c <> "#94a3b8" /\ i <> "tag"
      else if JsObject.inherited category then
        getCategoryColor category = FromPrototype
        /\ getCategoryIcon category = FromPrototype
      else
        getCategoryColor category = Text "#94a3b8"
        /\ getCategoryIcon category = Text "tag").
Proof.
  do 5 (split; [split; reflexivity|]).
  change ["Food"; "Rent"; "Fun"; "Income"; "Other"] with listedCategories.
  destruct (ownText_listed category) as [Hin Hout].
  unfold getCategoryColor, getCategoryIcon, lookupOr.
  destruct (existsb (String.eqb category) listedCategories) eqn:E.
  - apply existsb_eqb_In in E.
    destruct (Hin E) as [c [i [Hc [Hi [Ec [Ei [Nc [Ni _]]]]]]]].
    exists c, i; now rewrite Hc, Hi, Ec, Ei.
  - assert (N : ~ In category listedCategories).
    { intros H; apply existsb_eqb_In in H; congruence. }
    destruct (Hout N) as [-> ->].
    now destruct (JsObject.inherited category).
Qed.

(* ================================================================= *)
(** ** The mark on the balance *)

Lemma sub_zero (x : Number.t) : x - Number.zero = x.
Proof. destruct x as [[]|[]| |[] m e]; reflexivity. Qed.

Lemma zero_sub_not_positive (x : Number.t) :
  (x >=? Number.zero) = true -> (Number.zero - x >? Number.zero) = false.
Proof.
  destruct x as [[]|[]| |[] m e]; simpl; try reflexivity; discriminate.
Qed.

(** X14.  The balance is never marked against the facts.  Over
    transactions that obey the data model: when none has a type other than
    ['income'], the balance is the income and does not get the class
    [negative]; when none has the type ['income'], the balance does not
    get the class [positive]. *)
Theorem balance_mark (ts : list Transaction) :
  Forall wellTyped ts ->
  (filter notIncome ts = [] ->
   totalBalance ts = income (totals ts)
   /\ ~ In "negative" (balanceClassList (totalBalance ts)))
  /\ (filter isIncome ts = [] ->
      ~ In "positive" (balanceClassList (totalBalance ts))).
Proof.
  intros Hwf; unfold totalBalance, totals; rewrite totals_from; simpl.
  pose proof (@sumFrom_geb_zero (map amount (filter isIncome ts))
                Number.zero eq_refl (income_amounts_geb_zero Hwf)) as Hi.
  pose proof (@sumFrom_geb_zero (map absAmount (filter notIncome ts))
                Number.zero eq_refl (expense_amounts_geb_zero Hwf)) as He.
  split; intros H; rewrite H in *; simpl sumFrom in *.
  - rewrite sub_zero; split; [reflexivity|].
    unfold balanceClassList.
    destruct (_ >? Number.zero) eqn:P.
    + simpl; intros F;
        repeat (destruct F as [F|F]; [discriminate|]); exact F.
    + assert (L : Number.ltb
                    (sumFrom Number.zero (map amount (filter isIncome ts)))
                    Number.zero = false).
      { revert Hi; generalize (sumFrom Number.zero
                                 (map amount (filter isIncome ts))).
        intros x; destruct x as [[]|[]| |[] m e]; simpl; auto; discriminate. }
      rewrite L; simpl; intros F;
        repeat (destruct F as [F|F]; [discriminate|]); exact F.
  - unfold balanceClassList.
    change (sumFrom Number.zero (map amount [])) with Number.zero.
    rewrite (zero_sub_not_positive _ He).
    destruct (Number.ltb _ _); simpl; intros F;
      repeat (destruct F as [F|F]; [discriminate|]); exact F.
Qed.

Lemma balance_mark_sample :
  Forall wellTyped [salary]
  /\ filter notIncome [salary] = []
  /\ totalBalance [salary] = income (totals [salary])
  /\ ~ In "negative" (balanceClassList (totalBalance [salary])).
Proof.
  assert (H : Forall wellTyped [salary]) by (repeat constructor).
  split; [exact H|]. split; [reflexivity|].
  exact (proj1 (balance_mark H) eq_refl).
Defined.

(* ================================================================= *)
(** ** Across a reload *)

Lemma put_In (t : Transaction) (records : list Transaction) :
  In t (Store.put t records).
Proof.
  induction records as [|r records IH]; simpl; [now left|].
  destruct (id r === id t); [now left|].
  destruct (Number.ltb (id t) (id r)); [now left|now right].
Qed.

Lemma reopen_transactions (timeValue : string -> option Z) (s : State)
    (t : Transaction) :
  In t (transactions (reopen timeValue s)) <-> In t (storedRecords s).
Proof.
  unfold reopen, init, initIndexedDB, loadTransactions; simpl.
  split; intros H.
  - eapply Permutation_in; [symmetry; apply Array_sort_perm|exact H].
  - eapply Permutation_in; [apply Array_sort_perm|exact H].
Qed.

(** X15.  The store is what a reload shows.  With the database open and
    the request successful: a transaction that has been added is in the
    list after a reload; after a confirmed delete click no transaction
    with that id is in the list after a reload; and after a clear the list
    is empty after a reload.  When the request fails, a reload shows the
    same transactions as a reload before the attempt. *)
Theorem reload_shows_the_store (timeValue : string -> option Z)
    (f : Submission) (key : Number.t) (error : string) (s : State)
    (records : list Transaction) :
  db s = Some records -> rejectsInput f = false ->
  In (newTransaction f)
     (transactions (reopen timeValue (fst (addTransaction f Succeeds s))))
  /\ (forall t,
        In t (transactions
                (reopen timeValue (fst (deleteClick true key Succeeds s)))) ->
        (id t === key) = false)
  /\ transactions (reopen timeValue (fst (clearAllTransactions Succeeds s)))
     = []
  /\ (forall t,
        In t (transactions
                (reopen timeValue (fst (addTransaction f (Fails error) s))))
        <-> In t (transactions (reopen timeValue s))).
Proof.
  intros Hdb Hv; split; [|split; [|split]].
  - apply reopen_transactions.
    unfold addTransaction, saveTransaction, storedRecords.
    rewrite Hv, Hdb; simpl. apply put_In.
  - intros t Ht; apply reopen_transactions in Ht.
    unfold deleteClick, deleteTransaction, storedRecords in Ht.
    rewrite Hdb in Ht; simpl in Ht.
    apply filter_In in Ht as [_ Ht]; now apply negb_true_iff.
  - unfold reopen, init, initIndexedDB, loadTransactions, storedRecords,
      clearAllTransactions, clearAllTransactionsFromDB.
    now rewrite Hdb.
  - intros t; rewrite !reopen_transactions.
    unfold addTransaction, saveTransaction, storedRecords.
    rewrite Hv, Hdb; simpl; rewrite Hdb; tauto.
Qed.

Lemma reload_shows_the_store_sample :
  let f := submission "Coffee" (Number.ofZ (-3)) "Food" in
  let s := loadedState [groceries; rent] in
  rejectsInput f = false
  /\ In (newTransaction f)
        (transactions
           (reopen sampleTimeValue (fst (addTransaction f Succeeds s))))
  /\ transactions
       (reopen sampleTimeValue (fst (clearAllTransactions Succeeds s))) = [].
Proof.
  cbv zeta.
  destruct (@reload_shows_the_store sampleTimeValue
              (submission "Coffee" (Number.ofZ (-3)) "Food")
              (id rent) "AbortError" (loadedState [groceries; rent])
              [groceries; rent] eq_refl eq_refl) as [H1 [_ [H3 _]]].
  split; [reflexivity|]. split; [exact H1|exact H3].
Defined.

(* ================================================================= *)
(** ** The two totals of expenses *)

Lemma wellTyped_expense (t : Transaction) :
  wellTyped t -> isExpense t = notIncome t.
Proof.
  intros [_ H]; unfold isExpense, notIncome, isIncome; rewrite H.
  unfold typeOf; now destruct (amount t >=? Number.zero).
Qed.

Lemma filter_agree (A : Type) (P : A -> Prop) (p q : A -> bool)
    (l : list A) :
  (forall x, P x -> p x = q x) -> Forall P l -> filter p l = filter q l.
Proof.
  intros H; induction 1 as [|x l Hx _ IH]; simpl; [reflexivity|].
  now rewrite (H x Hx), IH.
Qed.

(** X16.  The two views agree on the expenses: over transactions that
    obey the data model, the total that [updateSpendingSummary] divides by
    is, to the last bit, the expense that [updateBalance] shows. *)
Theorem summary_total_is_expense (s : State) :
  Forall wellTyped (transactions s) ->
  totalExpensesOf (filter isExpense (transactions s))
  = expense (totals (transactions s)).
Proof.
  intros H; unfold totals; rewrite totals_from, totalExpensesOf_sum; simpl.
  unfold sum; f_equal; f_equal.
  apply filter_agree with (P := wellTyped); [|exact H].
  apply wellTyped_expense.
Qed.

Lemma summary_total_is_expense_sample :
  let s := loadedState [groceries; rent; salary] in
  Forall wellTyped (transactions s)
  /\ totalExpensesOf (filter isExpense (transactions s))
     = expense (totals (transactions s)).
Proof.
  cbv zeta.
  assert (H : Forall wellTyped
                (transactions (loadedState [groceries; rent; salary]))).
  { simpl; repeat constructor. }
  split; [exact H|].
  exact (summary_total_is_expense (loadedState [groceries; rent; salary]) H).
Defined.

(* ================================================================= *)
(** ** What a submission stores *)

Lemma trimEnd_idempotent (s : string) :
  Str.trimEnd (Str.trimEnd s) = Str.trimEnd s.
Proof.
  induction s as [|c s IH]; simpl; [reflexivity|].
  destruct (Str.isWhiteSpace c) eqn:W; simpl.
  - destruct (Str.isEmpty (Str.trimEnd s)) eqn:E; simpl; [reflexivity|].
    now rewrite W, IH, E.
  - now rewrite W, IH.
Qed.

Lemma trimStart_head (s : string) :
  match Str.trimStart s with
  | EmptyString => True
  | String c _ => Str.isWhiteSpace c = false
  end.
Proof.
  induction s as [|c s IH]; simpl; [exact I|].
  destruct (Str.isWhiteSpace c) eqn:W; [exact IH|exact W].
Qed.

Lemma trim_idempotent (s : string) : Str.trim (Str.trim s) = Str.trim s.
Proof.
  unfold Str.trim.
  pose proof (trimStart_head s) as H.
  destruct (Str.trimStart s) as [|c r]; [reflexivity|].
  simpl; rewrite H; simpl; rewrite H; simpl.
  now rewrite H, trimEnd_idempotent.
Qed.

(** X17.  What a submission stores is clean: when the guard lets the input
    through, the transaction it builds has a name that is not empty and
    that trimming leaves unchanged, a category that is not empty, an
    amount that is a number, and the type ['income'] or ['expense']
    according to [amount >= 0]; so it obeys the data model. *)
Theorem newTransaction_is_clean (f : Submission) :
  rejectsInput f = false ->
  let t := newTransaction f in
  name t <> "" /\ Str.trim (name t) = name t
  /\ category t <> ""
  /\ Number.isNaN (amount t) = false
  /\ (type t = "income" \/ type t = "expense")
  /\ wellTyped t.
Proof.
  intros H; cbv zeta.
  pose proof (newTransaction_wellTyped f H) as Hw.
  unfold rejectsInput in H.
  apply orb_false_iff in H as [H Hc]; apply orb_false_iff in H as [Hn Ha].
  split; [intros E; simpl in E; rewrite E in Hn; discriminate|].
  split; [apply trim_idempotent|].
  split; [intros E; simpl in E; rewrite E in Hc; discriminate|].
  split; [exact Ha|].
  split; [|exact Hw].
  simpl; unfold typeOf; destruct (_ >=? _); auto.
Qed.

Lemma newTransaction_is_clean_sample :
  let f := submission "  Coffee  " (Number.ofZ (-3)) "Food" in
  rejectsInput f = false
  /\ name (newTransaction f) = "Coffee"
  /\ Str.trim (name (newTransaction f)) = name (newTransaction f)
  /\ wellTyped (newTransaction f).
Proof.
  cbv zeta.
  destruct (@newTransaction_is_clean
              (submission "  Coffee  " (Number.ofZ (-3)) "Food") eq_refl)
    as [_ [H2 [_ [_ [_ H6]]]]].
  split; [reflexivity|]. split; [reflexivity|]. split; [exact H2|exact H6].
Defined.
